(** * qrcode-pro: the symbol-encoding engine, embedded and verified

    The development follows the classes [QRGenerator] (the encoding engine,
    [core/qr-generator]) and [ValidationUtils] ([utils/validation]), the
    constants of [utils/constants] and the facade [QRCode] of [index.ts].
    Every definition of the first part is a transcription of the TypeScript
    function of the same name: the mutable fields of the generator
    ([matrix], [version], [modules], [maskPattern]) are threaded explicitly,
    a thrown [Error] is the [Throws] arm of [outcome], a [for] loop is a fold
    over its index range or, when its step varies, a recursion on fuel that
    is shown to be enough.

    Payloads are strings, the first arm of [QRData] (numbers and buffers
    are turned into strings by [normalizeData] before anything else is done
    with them); versions and mask patterns are integer-valued numbers.

    Of [LogoProcessor] ([utils/logo-processor]) the options and the module
    tests are embedded.  The sizes of a logo are numbers that the code only
    compares: they are taken in any type with the order of JavaScript
    numbers ([JSNumber]), NaN included.  The progress callback of
    [generateBatch] is the list of the calls it receives, and [await] on the
    facade's own promises is sequential composition. *)

From Stdlib Require Import ZArith List Bool Lia String Ascii DecimalString.
From stdpp Require Import base tactics option list list_numbers.
Import ListNotations.
Local Open Scope Z_scope.

(* ================================================================== *)
(** ** JavaScript values used by the generator *)
(* ================================================================== *)

Module JS.

(** A string is its sequence of UTF-16 code units, which is what
    [data.length], [data[i]], [charCodeAt] and the regular expressions of the
    source (no [u] flag) operate on. *)
Abbreviation jsstring := (list Z).

Definition charCode (a : ascii) : Z := Z.of_N (N_of_ascii a).

(** String literals of the source. *)
Definition lit (s : string) : jsstring := map charCode (list_ascii_of_string s).

(** [s.length] *)
Definition len (s : jsstring) : Z := Z.of_nat (length s).

(** [s.substr(start, n)] for [start >= 0]. *)
Definition substr (s : jsstring) (start n : Z) : jsstring :=
  take (Z.to_nat n) (drop (Z.to_nat start) s).

(** [s[i]]: a one-unit string, or [undefined] out of range. *)
Definition at_ (s : jsstring) (i : Z) : option Z :=
  if i <? 0 then None else s !! Z.to_nat i.

(** [chars.indexOf(c)] for a one-unit string [c]; [-1] when absent, which is
    also the answer for [undefined] (no alphabet contains that word). *)
Fixpoint indexOf_from (chars : jsstring) (c : Z) (i : Z) : Z :=
  match chars with
  | [] => -1
  | d :: rest => if d =? c then i else indexOf_from rest c (i + 1)
  end.

Definition indexOf (chars : jsstring) (c : option Z) : Z :=
  match c with
  | Some c => indexOf_from chars c 0
  | None => -1
  end.

(** ToInt32 on an integer-valued number: wrap-around to 32 bits, signed. *)
Definition toInt32 (z : Z) : Z := (z + 2 ^ 31) mod 2 ^ 32 - 2 ^ 31.

(** [num >> i]: the shift count is taken modulo 32. *)
Definition sar (num i : Z) : Z := Z.shiftr (toInt32 num) (Z.land i 31).

(** [a & b] *)
Definition band (a b : Z) : Z := Z.land (toInt32 a) (toInt32 b).

(** [\d] without the [u] flag: the ten ASCII digits. *)
Definition isDigit (c : Z) : bool := (48 <=? c) && (c <=? 57).

(** White space and line terminators that [parseInt] strips. *)
Definition isWhiteSpace (c : Z) : bool :=
  existsb (Z.eqb c)
    [9; 10; 11; 12; 13; 32; 160; 5760; 8232; 8233; 8239; 8287; 12288; 65279]
  || ((8192 <=? c) && (c <=? 8202)).

Fixpoint skipWhiteSpace (s : jsstring) : jsstring :=
  match s with
  | c :: rest => if isWhiteSpace c then skipWhiteSpace rest else s
  | [] => []
  end.

(** Value of the longest prefix of decimal digits. *)
Fixpoint digitsValue (acc : Z) (s : jsstring) : Z :=
  match s with
  | c :: rest => if isDigit c then digitsValue (10 * acc + (c - 48)) rest else acc
  | [] => acc
  end.

(** [parseInt(s, 10)]; [None] is NaN.  The result is exact while it stays
    below 2^53, which holds at every call of the source (three digits). *)
Definition parseInt (s : jsstring) : option Z :=
  let s := skipWhiteSpace s in
  let sign := match s with c :: _ => if c =? 45 then -1 else 1 | [] => 1 end in
  let s := match s with
           | c :: rest => if (c =? 45) || (c =? 43) then rest else s
           | [] => s
           end in
  match s with
  | c :: _ => if isDigit c then Some (sign * digitsValue 0 s) else None
  | [] => None
  end.

(** *** Binary64 numbers

    A finite double is [mant * 2^expo].  Products are rounded to a 53-bit
    significand, ties to even; the operands met here are far from the
    overflow and subnormal ranges, which are therefore not modelled. *)
Record double := mkDouble { mant : Z; expo : Z }.

Definition ofInt (z : Z) : double := mkDouble z 0.

Definition round53 (m e : Z) : double :=
  let a := Z.abs m in
  let k := Z.log2 a - 52 in
  if k <=? 0 then mkDouble m e
  else
    let q := a / 2 ^ k in
    let r := a mod 2 ^ k in
    let half := 2 ^ (k - 1) in
    let q' := if r <? half then q
              else if half <? r then q + 1
              else if Z.even q then q else q + 1 in
    mkDouble (Z.sgn m * q') (e + k).

(** [a * b] *)
Definition mul (a b : double) : double :=
  round53 (mant a * mant b) (expo a + expo b).

(** [Math.floor(d)] *)
Definition floor (d : double) : Z :=
  if 0 <=? expo d then mant d * 2 ^ expo d else mant d / 2 ^ (- expo d).

(** The literals [0.8], [0.6], [0.4], [2.4] and [1.8] as the nearest doubles. *)
Definition d0_8 : double := mkDouble 7205759403792794 (-53).
Definition d0_6 : double := mkDouble 5404319552844595 (-53).
Definition d0_4 : double := mkDouble 7205759403792794 (-54).
Definition d2_4 : double := mkDouble 5404319552844595 (-51).
Definition d1_8 : double := mkDouble 8106479329266893 (-52).

(** [`${n}`] for an integer. *)
Definition decimal (n : Z) : string := NilZero.string_of_int (Z.to_int n).

(** [`${error}`] for an [Error] with the given message. *)
Definition errorToString (message : string) : string :=
  if String.eqb message EmptyString then "Error"%string
  else ("Error: " ++ message)%string.

(** Numbers that the code compares and tests for truth without computing
    with them (sizes in percent, widths): any type with the literals and
    the strict order of JavaScript numbers, NaN and the infinities included. *)
Class JSNumber (number : Type) := {
  ofZ : Z -> number;
  ltN : number -> number -> bool;
  falsyN : number -> bool;
  ltN_ofZ : forall a b, ltN (ofZ a) (ofZ b) = (a <? b)
}.

(** Integer-valued numbers. *)
#[global] Instance Z_JSNumber : JSNumber Z := {|
  ofZ z := z;
  ltN := Z.ltb;
  falsyN z := z =? 0;
  ltN_ofZ _ _ := eq_refl
|}.

End JS.

Import JS.

(* ================================================================== *)
(** ** Types of [types.ts] *)
(* ================================================================== *)

Module ErrorCorrectionLevel.
Inductive t : Set := L | M | Q | H.
End ErrorCorrectionLevel.

(** [enum DataMode { NUMERIC = 1, ALPHANUMERIC = 2, BYTE = 4, KANJI = 8 }] *)
Module DataMode.
Inductive t : Set := NUMERIC | ALPHANUMERIC | BYTE | KANJI.

Definition value (m : t) : Z :=
  match m with
  | NUMERIC => 1
  | ALPHANUMERIC => 2
  | BYTE => 4
  | KANJI => 8
  end.
End DataMode.

(** A call either returns or throws an [Error] with a message. *)
Inductive outcome (A : Type) : Type :=
| Returns (a : A)
| Throws (message : string).
Arguments Returns {A} a.
Arguments Throws {A} message.

#[global] Instance outcome_bind : MBind outcome :=
  fun A B k o =>
    match o with
    | Returns a => k a
    | Throws msg => Throws msg
    end.

(** [for (let i = lo; i < hi; i++) body] over a state [s]. *)
Definition forZ {St : Type} (lo hi : Z) (body : Z -> St -> St) (s : St) : St :=
  foldl (fun s i => body i s) s (seqZ lo (hi - lo)).

(** The class of a thrown error object. *)
Module ErrorClass.
Inductive t : Set := Error | RangeError.
End ErrorClass.

(** A call that returns, or throws an error of some class with a message:
    for the calls whose errors are not all plain [Error]s. *)
Inductive completion (A : Type) : Type :=
| Value (a : A)
| Thrown (class : ErrorClass.t) (message : string).
Arguments Value {A} a.
Arguments Thrown {A} class message.

#[global] Instance completion_bind : MBind completion :=
  fun A B k c =>
    match c with
    | Value a => k a
    | Thrown class msg => Thrown class msg
    end.

(** [s.repeat(count)] for an integer count: a negative count throws a
    [RangeError]; its message is that of V8, the engine of Node, "Invalid
    count value: " and the count. *)
Definition repeatString (s : jsstring) (count : Z) : completion jsstring :=
  if count <? 0
  then Thrown ErrorClass.RangeError ("Invalid count value: " ++ decimal count)
  else Value (concat (replicate (Z.to_nat count) s)).

(* ================================================================== *)
(** ** The module matrix: [boolean[][]], indexed [matrix[y][x]] *)
(* ================================================================== *)

Abbreviation QRMatrix := (list (list bool)).

(** [matrix[y][x]] read.  Every read of the source happens at
    [0 <= x, y < modules] in a [modules x modules] matrix; outside of the
    stored cells the model answers [false]. *)
Definition mget (m : QRMatrix) (x y : Z) : bool :=
  if (x <? 0) || (y <? 0) then false
  else match m !! Z.to_nat y with
       | Some row => match row !! Z.to_nat x with
                     | Some b => b
                     | None => false
                     end
       | None => false
       end.

(** [matrix[y][x] = v].  Every write of the source is inside the matrix
    (guarded by [isInBounds], or by the loop bounds); JavaScript would
    throw on a missing row and grow a short one, the model leaves the matrix
    as it is there. *)
Definition mset (m : QRMatrix) (x y : Z) (v : bool) : QRMatrix :=
  if (x <? 0) || (y <? 0) then m
  else alter (fun row => <[Z.to_nat x := v]> row) (Z.to_nat y) m.

(** A [n x n] matrix. *)
Definition square (n : Z) (m : QRMatrix) : Prop :=
  Z.of_nat (length m) = n /\ Forall (fun row => Z.of_nat (length row) = n) m.

(* ================================================================== *)
(** ** [utils/constants.ts] *)
(* ================================================================== *)

Module VALIDATION.
Definition MIN_VERSION : Z := 1.
Definition MAX_VERSION : Z := 40.
Definition MIN_MASK_PATTERN : Z := 0.
Definition MAX_MASK_PATTERN : Z := 7.
End VALIDATION.

Module ERROR_MESSAGES.
Definition INVALID_DATA : string := "Invalid input data"%string.
Definition DATA_TOO_LONG : string :=
  "Input data is too long for the specified configuration"%string.
Definition INVALID_VERSION : string :=
  "QR code version must be between 1 and 40"%string.
Definition INVALID_MASK_PATTERN : string :=
  "Mask pattern must be between 0 and 7"%string.
Definition LOGO_TOO_LARGE : string :=
  "Logo size exceeds maximum allowed percentage"%string.
End ERROR_MESSAGES.

Module LOGO_CONSTRAINTS.
Definition MAX_WIDTH_PERCENT : Z := 30.
Definition MAX_HEIGHT_PERCENT : Z := 30.
Definition MIN_WIDTH_PERCENT : Z := 5.
Definition MIN_HEIGHT_PERCENT : Z := 5.
Definition DEFAULT_WIDTH_PERCENT : Z := 20.
Definition DEFAULT_HEIGHT_PERCENT : Z := 20.
Definition DEFAULT_BORDER_WIDTH : Z := 2.
End LOGO_CONSTRAINTS.

(** [VERSION_SPECS[version].capacity[level]]: data capacity in bits of the
    versions the table lists (1 to 5 and 40). *)
Definition VERSION_SPECS_capacity (version : Z) (level : ErrorCorrectionLevel.t)
  : option Z :=
  let row (l m q h : Z) :=
    Some match level with
         | ErrorCorrectionLevel.L => l
         | ErrorCorrectionLevel.M => m
         | ErrorCorrectionLevel.Q => q
         | ErrorCorrectionLevel.H => h
         end in
  if version =? 1 then row 152 128 104 72
  else if version =? 2 then row 272 224 176 128
  else if version =? 3 then row 440 352 272 208
  else if version =? 4 then row 640 512 384 288
  else if version =? 5 then row 864 688 496 368
  else if version =? 40 then row 23648 18672 13328 10208
  else None.

(** [CAPACITY_TABLE[mode][version][level]]: character capacity of the
    versions the table lists (1, 2 and 40); it has no row for kanji. *)
Definition CAPACITY_TABLE (mode : DataMode.t) (version : Z)
    (level : ErrorCorrectionLevel.t) : option Z :=
  let row (l m q h : Z) :=
    Some match level with
         | ErrorCorrectionLevel.L => l
         | ErrorCorrectionLevel.M => m
         | ErrorCorrectionLevel.Q => q
         | ErrorCorrectionLevel.H => h
         end in
  match mode with
  | DataMode.NUMERIC =>
      if version =? 1 then row 41 34 27 17
      else if version =? 2 then row 77 63 48 34
      else if version =? 40 then row 7089 5596 3993 3057
      else None
  | DataMode.ALPHANUMERIC =>
      if version =? 1 then row 25 20 16 10
      else if version =? 2 then row 47 38 29 20
      else if version =? 40 then row 4296 3391 2420 1852
      else None
  | DataMode.BYTE =>
      if version =? 1 then row 17 14 11 7
      else if version =? 2 then row 32 26 20 14
      else if version =? 40 then row 2953 2331 1663 1273
      else None
  | DataMode.KANJI => None
  end.

(* ================================================================== *)
(** ** [class QRGenerator] *)
(* ================================================================== *)

Module QRGenerator.

Import ErrorCorrectionLevel DataMode.

(** The generator's fields after a successful [generate], as read back by
    [getVersion], [getErrorCorrectionLevel], [getMaskPattern], [getModules],
    together with the returned matrix. *)
Record generated := mkGenerated {
  matrix : QRMatrix;
  version : Z;
  errorCorrectionLevel : ErrorCorrectionLevel.t;
  maskPattern : Z;
  modules : Z
}.

Definition getModuleCount (version : Z) : Z := 17 + 4 * version.

(** [/^[class]+$/.test(data)]: at least one unit, all of them in the class
    ([$] without the [m] flag matches at the very end only). *)
Definition test_plus (class : Z -> bool) (data : jsstring) : bool :=
  negb (bool_decide (data = [])) && forallb class data.

(** The class [[0-9A-Z $%*+\-./:]]. *)
Definition isAlphanumericChar (c : Z) : bool :=
  ((48 <=? c) && (c <=? 57)) || ((65 <=? c) && (c <=? 90))
  || existsb (Z.eqb c) [32; 36; 37; 42; 43; 45; 46; 47; 58].

Definition detectDataMode (data : jsstring) : DataMode.t :=
  if test_plus isDigit data then NUMERIC
  else if test_plus isAlphanumericChar data then ALPHANUMERIC
  else BYTE.

Definition getCapacity (version : Z) (errorLevel : ErrorCorrectionLevel.t)
    (mode : DataMode.t) : Z :=
  let baseCapacity := version * 10 in
  let errorMultiplier :=
    match errorLevel with
    | L => ofInt 1
    | M => d0_8
    | Q => d0_6
    | H => d0_4
    end in
  floor (mul (ofInt baseCapacity) errorMultiplier).

(** The body of [for (let version = 1; version <= 40; version++)] with its
    early [return], over the versions still to try. *)
Fixpoint determineVersion_loop (dataLength : Z) (errorLevel : ErrorCorrectionLevel.t)
    (dataMode : DataMode.t) (versions : list Z) : outcome Z :=
  match versions with
  | [] => Throws "Data too long for QR code"
  | version :: rest =>
      let capacity := getCapacity version errorLevel dataMode in
      if dataLength <=? capacity then Returns version
      else determineVersion_loop dataLength errorLevel dataMode rest
  end.

Definition determineVersion (data : jsstring) (errorLevel : ErrorCorrectionLevel.t)
  : outcome Z :=
  let dataMode := detectDataMode data in
  let dataLength := len data in
  determineVersion_loop dataLength errorLevel dataMode (seqZ 1 40).

Definition validateInput (data : jsstring) (version : Z) : outcome unit :=
  if bool_decide (data = []) then Throws "Input data cannot be empty"
  else if (version <? VALIDATION.MIN_VERSION) || (version >? VALIDATION.MAX_VERSION)
  then Throws "Version must be between 1 and 40"
  else Returns tt.

Definition initializeMatrix (modules : Z) : QRMatrix :=
  replicate (Z.to_nat modules) (replicate (Z.to_nat modules) false).

Definition isInBounds (modules x y : Z) : bool :=
  (0 <=? x) && (x <? modules) && (0 <=? y) && (y <? modules).

(** "In a full implementation, track which modules are already set". *)
Definition isEmpty (x y : Z) : bool := true.

Definition isFinderPattern (modules x y : Z) : bool :=
  ((x <? 9) && (y <? 9))
  || ((modules - 8 <=? x) && (y <? 9))
  || ((x <? 9) && (modules - 8 <=? y)).

Definition isDataModule (modules x y : Z) : bool :=
  negb (isFinderPattern modules x y) && negb (x =? 6) && negb (y =? 6).

Definition finderPattern : QRMatrix :=
  [ [true; true; true; true; true; true; true];
    [true; false; false; false; false; false; true];
    [true; false; true; true; true; false; true];
    [true; false; true; true; true; false; true];
    [true; false; true; true; true; false; true];
    [true; false; false; false; false; false; true];
    [true; true; true; true; true; true; true] ].

Definition addFinderPattern (modules startX startY : Z) (m : QRMatrix) : QRMatrix :=
  forZ 0 7 (fun y m =>
    forZ 0 7 (fun x m =>
      if isInBounds modules (startX + x) (startY + y)
      then mset m (startX + x) (startY + y) (mget finderPattern x y)
      else m) m) m.

Definition addFinderPatterns (modules : Z) (m : QRMatrix) : QRMatrix :=
  let positions := [ (0, 0); (modules - 7, 0); (0, modules - 7) ] in
  foldl (fun m pos => addFinderPattern modules (fst pos) (snd pos) m) m positions.

Definition addSeparator (modules startX startY width height : Z) (m : QRMatrix)
  : QRMatrix :=
  forZ startY (startY + height) (fun y m =>
    forZ startX (startX + width) (fun x m =>
      if isInBounds modules x y && isEmpty x y
      then if negb (isFinderPattern modules x y) then mset m x y false else m
      else m) m) m.

Definition addSeparators (modules : Z) (m : QRMatrix) : QRMatrix :=
  let m := addSeparator modules 0 0 8 8 m in
  let m := addSeparator modules (modules - 8) 0 8 8 m in
  addSeparator modules 0 (modules - 8) 8 8 m.

(** [Math.floor((modules - 13) / 2)]: the quotient of two small integers is
    off an integer by at least 1/2 when it is not one, so flooring the
    double is flooring the fraction. *)
Definition getAlignmentPatternPositions (version modules : Z) : list (Z * Z) :=
  if version =? 2 then [ (16, 16) ]
  else if version >=? 3 then
    let step := (modules - 13) / 2 in [ (step, step) ]
  else [].

Definition alignmentPattern : QRMatrix :=
  [ [true; true; true; true; true];
    [true; false; false; false; true];
    [true; false; true; false; true];
    [true; false; false; false; true];
    [true; true; true; true; true] ].

Definition addAlignmentPattern (modules centerX centerY : Z) (m : QRMatrix)
  : QRMatrix :=
  forZ (-2) 3 (fun y m =>
    forZ (-2) 3 (fun x m =>
      let posX := centerX + x in
      let posY := centerY + y in
      if isInBounds modules posX posY && isEmpty posX posY
      then mset m posX posY (mget alignmentPattern (x + 2) (y + 2))
      else m) m) m.

Definition addAlignmentPatterns (version modules : Z) (m : QRMatrix) : QRMatrix :=
  if version <? 2 then m
  else
    let positions := getAlignmentPatternPositions version modules in
    foldl (fun m pos => addAlignmentPattern modules (fst pos) (snd pos) m) m positions.

Definition addTimingPatterns (modules : Z) (m : QRMatrix) : QRMatrix :=
  let m := forZ 8 (modules - 8) (fun x m =>
             if isEmpty x 6 then mset m x 6 (Z.rem x 2 =? 0) else m) m in
  forZ 8 (modules - 8) (fun y m =>
    if isEmpty 6 y then mset m 6 y (Z.rem y 2 =? 0) else m) m.

Definition addDarkModule (version modules : Z) (m : QRMatrix) : QRMatrix :=
  let x := 8 in
  let y := 4 * version + 9 in
  if isInBounds modules x y then mset m x y true else m.

(** [toBits(num, bitCount)]: [i] runs from [bitCount - 1] down to [0]. *)
Definition toBits (num bitCount : Z) : list Z :=
  map (fun i => band (sar num i) 1) (reverse (seqZ 0 bitCount)).

(** A number that may be NaN, as [parseInt] returns it: ToInt32(NaN) is 0. *)
Definition toBitsNum (num : option Z) (bitCount : Z) : list Z :=
  toBits (default 0 num) bitCount.

Definition getCharCountBits (mode : DataMode.t) : Z :=
  match mode with
  | NUMERIC => 10
  | ALPHANUMERIC => 9
  | BYTE => 8
  | KANJI => 8
  end.

(** [for (let i = 0; i < data.length; i += 3)]; the fuel counts the
    remaining iterations and [encodeNumeric] provides [data.length] of them,
    more than the loop can use. *)
Fixpoint encodeNumeric_loop (fuel : nat) (data : jsstring) (i : Z) (bits : list Z)
  : list Z :=
  match fuel with
  | O => bits
  | S fuel =>
      if i <? len data then
        let group := substr data i 3 in
        let value := parseInt group in
        let bits :=
          if len group =? 3 then bits ++ toBitsNum value 10
          else if len group =? 2 then bits ++ toBitsNum value 7
          else bits ++ toBitsNum value 4 in
        encodeNumeric_loop fuel data (i + 3) bits
      else bits
  end.

Definition encodeNumeric (data : jsstring) : list Z :=
  encodeNumeric_loop (length data) data 0 [].

Definition alphanumericChars : jsstring :=
  lit "0123456789ABCDEFGHIJKLMNOPQRSTUVWXYZ $%*+-./:".

(** [for (let i = 0; i < data.length; i += 2)] *)
Fixpoint encodeAlphanumeric_loop (fuel : nat) (data : jsstring) (i : Z)
    (bits : list Z) : list Z :=
  match fuel with
  | O => bits
  | S fuel =>
      if i <? len data then
        let char1 := indexOf alphanumericChars (at_ data i) in
        let bits :=
          if i + 1 <? len data then
            let char2 := indexOf alphanumericChars (at_ data (i + 1)) in
            let value := char1 * 45 + char2 in
            bits ++ toBits value 11
          else bits ++ toBits char1 6 in
        encodeAlphanumeric_loop fuel data (i + 2) bits
      else bits
  end.

Definition encodeAlphanumeric (data : jsstring) : list Z :=
  encodeAlphanumeric_loop (length data) data 0 [].

(** [for (let i = 0; i < data.length; i++)] with [data.charCodeAt(i)]. *)
Definition encodeByte (data : jsstring) : list Z :=
  forZ 0 (len data) (fun i bits =>
    let charCode := default 0 (at_ data i) in
    bits ++ toBits charCode 8) [].

Definition encodeData (data : jsstring) : list Z :=
  let mode := detectDataMode data in
  let encodedData := toBits (DataMode.value mode) 4 in
  let charCountBits := getCharCountBits mode in
  let encodedData := encodedData ++ toBits (len data) charCountBits in
  match mode with
  | NUMERIC => encodedData ++ encodeNumeric data
  | ALPHANUMERIC => encodedData ++ encodeAlphanumeric data
  | BYTE => encodedData ++ encodeByte data
  | KANJI => encodedData
  end.

(** "Simplified error correction - in a full implementation, this would use
    Reed-Solomon error correction": [return [...data]]. *)
Definition addErrorCorrection (data : list Z) : list Z := data.

(** The innermost body of [placeDataModules], which places one module;
    the state is the matrix and [dataIndex]. *)
Definition placeModule (modules : Z) (data : list Z) (col direction count c : Z)
    (st : QRMatrix * Z) : QRMatrix * Z :=
  let '(m, dataIndex) := st in
  let x := col - c in
  let y := if direction =? -1 then modules - 1 - count else count in
  if isInBounds modules x y && isEmpty x y then
    if dataIndex <? len data
    then (mset m x y (bool_decide (at_ data dataIndex = Some 1)), dataIndex + 1)
    else (mset m x y false, dataIndex)
  else st.

(** The two inner loops of [placeDataModules], for one column pair. *)
Definition placeColumnPair (modules : Z) (data : list Z) (col direction : Z)
    (st : QRMatrix * Z) : QRMatrix * Z :=
  forZ 0 modules (fun count st =>
    forZ 0 2 (placeModule modules data col direction count) st) st.

(** [for (let col = modules - 1; col > 0; col -= 2)], with the step over the
    timing column.  Each turn lowers [col] by at least 2, so [modules] turns
    of fuel are never used up. *)
Fixpoint placeDataModules_loop (fuel : nat) (modules : Z) (data : list Z)
    (col direction : Z) (st : QRMatrix * Z) : QRMatrix * Z :=
  match fuel with
  | O => st
  | S fuel =>
      if col >? 0 then
        let col := if col =? 6 then col - 1 else col in
        let st := placeColumnPair modules data col direction st in
        placeDataModules_loop fuel modules data (col - 2) (direction * -1) st
      else st
  end.

Definition placeDataModules (modules : Z) (m : QRMatrix) (data : list Z) : QRMatrix :=
  fst (placeDataModules_loop (Z.to_nat modules) modules data (modules - 1) (-1) (m, 0)).

(** The operands are non-negative, where [%] is [Z.rem]; [Math.floor] of
    [y / 2] and [x / 3] is the integer quotient. *)
Definition shouldApplyMask (x y pattern : Z) : bool :=
  if pattern =? 0 then Z.rem (x + y) 2 =? 0
  else if pattern =? 1 then Z.rem y 2 =? 0
  else if pattern =? 2 then Z.rem x 3 =? 0
  else if pattern =? 3 then Z.rem (x + y) 3 =? 0
  else if pattern =? 4 then Z.rem (y / 2 + x / 3) 2 =? 0
  else if pattern =? 5 then Z.rem (x * y) 2 + Z.rem (x * y) 3 =? 0
  else if pattern =? 6 then Z.rem (Z.rem (x * y) 2 + Z.rem (x * y) 3) 2 =? 0
  else if pattern =? 7 then Z.rem (Z.rem (x + y) 2 + Z.rem (x * y) 3) 2 =? 0
  else false.

Definition applyMaskToMatrix (modules : Z) (m : QRMatrix) (pattern : Z) : QRMatrix :=
  forZ 0 modules (fun y m =>
    forZ 0 modules (fun x m =>
      if isDataModule modules x y && shouldApplyMask x y pattern
      then mset m x y (negb (mget m x y))
      else m) m) m.

Definition applyMask (modules : Z) (m : QRMatrix) (pattern : Z) : QRMatrix :=
  applyMaskToMatrix modules m pattern.

(** One scan line of [calculateAdjacentPenalty]: [cell i] is the [i]-th
    module of the row or column; the state is [(penalty, count)]. *)
Definition scanLine (modules : Z) (cell : Z -> bool) (penalty : Z) : Z :=
  let '(penalty, count) :=
    forZ 1 modules (fun i '(penalty, count) =>
      if eqb (cell i) (cell (i - 1)) then (penalty, count + 1)
      else ((if count >=? 5 then penalty + (count - 2) else penalty), 1))
      (penalty, 1) in
  if count >=? 5 then penalty + (count - 2) else penalty.

Definition calculateAdjacentPenalty (modules : Z) (m : QRMatrix) : Z :=
  let penalty := 0 in
  let penalty := forZ 0 modules (fun y penalty =>
                   scanLine modules (fun x => mget m x y) penalty) penalty in
  forZ 0 modules (fun x penalty =>
    scanLine modules (fun y => mget m x y) penalty) penalty.

Definition calculateBlockPenalty (modules : Z) (m : QRMatrix) : Z :=
  forZ 0 (modules - 1) (fun y penalty =>
    forZ 0 (modules - 1) (fun x penalty =>
      let color := mget m x y in
      if eqb (mget m (x + 1) y) color && eqb (mget m x (y + 1)) color
         && eqb (mget m (x + 1) (y + 1)) color
      then penalty + 3 else penalty) penalty) 0.

(** "Simplified penalty calculation": rules 1 and 2 only. *)
Definition calculateMaskPenalty (modules : Z) (m : QRMatrix) : Z :=
  let penalty := 0 in
  let penalty := penalty + calculateAdjacentPenalty modules m in
  let penalty := penalty + calculateBlockPenalty modules m in
  penalty.

(** [penalty < lowestPenalty], where [None] is [Infinity]. *)
Definition below (penalty : Z) (lowestPenalty : option Z) : bool :=
  match lowestPenalty with
  | None => true
  | Some lowest => penalty <? lowest
  end.

(** One turn of [for (let pattern = 0; pattern <= 7; pattern++)] on the
    state [(bestPattern, lowestPenalty)]. *)
Definition selectStep (modules : Z) (m : QRMatrix) (pattern : Z)
    (st : Z * option Z) : Z * option Z :=
  let testMatrix := applyMaskToMatrix modules m pattern in
  let penalty := calculateMaskPenalty modules testMatrix in
  if below penalty (snd st) then (pattern, Some penalty) else st.

Definition selectBestMaskPattern (modules : Z) (m : QRMatrix) : Z :=
  fst (forZ 0 8 (selectStep modules m) (0, None)).

Definition generateFormatInfo (level : ErrorCorrectionLevel.t) (maskPattern : Z)
  : list Z :=
  let errorCorrectionBits :=
    match level with
    | L => [0; 1]
    | M => [0; 0]
    | Q => [1; 1]
    | H => [1; 0]
    end in
  errorCorrectionBits ++ toBits maskPattern 3.

Definition generateVersionInfo (version : Z) : list Z := toBits version 18.

(** [addFormatInfo] and [addVersionInfo] compute the bits above and place
    nothing; [reserveFormatInfo] and [reserveVersionInfo] have empty bodies. *)
Definition addFormatInfo (level : ErrorCorrectionLevel.t) (maskPattern : Z)
    (m : QRMatrix) : QRMatrix :=
  let formatInfo := generateFormatInfo level maskPattern in m.

Definition addVersionInfo (version : Z) (m : QRMatrix) : QRMatrix :=
  if version <? 7 then m
  else let versionInfo := generateVersionInfo version in m.

(** [version || ...]: [undefined] and [0] are falsy. *)
Definition truthy (n : option Z) : option Z :=
  match n with
  | Some z => if z =? 0 then None else Some z
  | None => None
  end.

(** The matrix before masking, for a resolved version: the steps of
    [generate] from [initializeMatrix] to [placeDataModules]. *)
Definition buildMatrix (inputData : jsstring) (version : Z) : QRMatrix :=
  let modules := getModuleCount version in
  let m := initializeMatrix modules in
  let m := addFinderPatterns modules m in
  let m := addSeparators modules m in
  let m := addAlignmentPatterns version modules m in
  let m := addTimingPatterns modules m in
  let m := addDarkModule version modules m in
  let encodedData := encodeData inputData in
  let finalData := addErrorCorrection encodedData in
  placeDataModules modules m finalData.

(** [generate(data, errorCorrectionLevel, version?, maskPattern?)] on a
    string payload ([normalizeData] returns a string as it is). *)
Definition generate (data : jsstring) (errorCorrectionLevel : ErrorCorrectionLevel.t)
    (version : option Z) (maskPattern : option Z) : outcome generated :=
  let inputData := data in
  version ← match truthy version with
            | Some v => Returns v
            | None => determineVersion inputData errorCorrectionLevel
            end;
  let modules := getModuleCount version in
  _ ← validateInput inputData version;
  let m := buildMatrix inputData version in
  let maskPattern :=
    match maskPattern with
    | Some p => p
    | None => selectBestMaskPattern modules m
    end in
  let m := applyMask modules m maskPattern in
  let m := addFormatInfo errorCorrectionLevel maskPattern m in
  let m := if version >=? 7 then addVersionInfo version m else m in
  Returns (mkGenerated m version errorCorrectionLevel maskPattern modules).

End QRGenerator.

(* ================================================================== *)
(** ** [QRCodeOptions] and the facade's internal options *)
(* ================================================================== *)

(** The options that reach the encoding engine are spelled out; the
    cosmetic ones (scale, colours, margin, logo, svg, image, text) are kept
    together in [rest], which the engine never reads. *)
Module Options.

Record QRCodeOptions (Rest : Type) := mkOptions {
  errorCorrectionLevel : option ErrorCorrectionLevel.t;
  version : option Z;
  maskPattern : option Z;
  rest : Rest
}.
Arguments mkOptions {Rest} _ _ _ _.
Arguments errorCorrectionLevel {Rest} _.
Arguments version {Rest} _.
Arguments maskPattern {Rest} _.
Arguments rest {Rest} _.

(** [{ ...options, maskPattern: p }] *)
Definition withMaskPattern {Rest : Type} (o : QRCodeOptions Rest) (p : option Z)
  : QRCodeOptions Rest :=
  mkOptions (errorCorrectionLevel o) (version o) p (rest o).

Record QRCodeOptionsInternal (RestInternal : Type) := mkInternal {
  finalErrorCorrectionLevel : ErrorCorrectionLevel.t;
  finalVersion : option Z;
  finalMaskPattern : option Z;
  finalRest : RestInternal
}.
Arguments mkInternal {RestInternal} _ _ _ _.
Arguments finalErrorCorrectionLevel {RestInternal} _.
Arguments finalVersion {RestInternal} _.
Arguments finalMaskPattern {RestInternal} _.
Arguments finalRest {RestInternal} _.

(** [DEFAULT_OPTIONS.errorCorrectionLevel] *)
Definition DEFAULT_errorCorrectionLevel : ErrorCorrectionLevel.t :=
  ErrorCorrectionLevel.M.

End Options.

(** [LogoOptions] of [types.ts]. *)
Module Logo.

(** [src: string | Buffer] *)
Inductive LogoSource :=
| SourceString (s : jsstring)
| SourceBuffer (bytes : list Z).

Record LogoOptions (number : Type) := mkLogoOptions {
  src : LogoSource;
  width : option number;
  height : option number;
  border : option bool;
  borderColor : option jsstring;
  borderWidth : option number
}.
Arguments mkLogoOptions {number} _ _ _ _ _ _.
Arguments src {number} _.
Arguments width {number} _.
Arguments height {number} _.
Arguments border {number} _.
Arguments borderColor {number} _.
Arguments borderWidth {number} _.

(** [!logo.src] is true of the empty string only: a [Buffer] is an object. *)
Definition srcFalsy (s : LogoSource) : bool :=
  match s with
  | SourceString s => bool_decide (s = [])
  | SourceBuffer _ => false
  end.

End Logo.

(** [TextOptions] of [types.ts]. *)
Module TextOptions.
Record t := mk {
  darkChar : option jsstring;
  lightChar : option jsstring;
  border : option bool
}.
End TextOptions.

(* ================================================================== *)
(** ** [class ValidationUtils] *)
(* ================================================================== *)

Module ValidationUtils.

Import ErrorCorrectionLevel DataMode Options.

Record ValidationResult := mkValidation {
  valid : bool;
  error : option string;
  suggestedVersion : option Z;
  maxCapacity : option Z;
  dataLength : option Z
}.

Definition ok : ValidationResult := mkValidation true None None None None.
Definition invalid (msg : string) : ValidationResult :=
  mkValidation false (Some msg) None None None.

(** [validateData] on a string payload: the [null], number and [Buffer]
    arms do not apply to it. *)
Definition validateData (data : jsstring) : ValidationResult :=
  if len data =? 0 then invalid ERROR_MESSAGES.INVALID_DATA else ok.

(** Versions and mask patterns are integers here, so [Number.isInteger]
    holds of them. *)
Definition validateVersion (version : Z) : ValidationResult :=
  if (version <? VALIDATION.MIN_VERSION) || (version >? VALIDATION.MAX_VERSION)
  then invalid ERROR_MESSAGES.INVALID_VERSION else ok.

Definition validateMaskPattern (pattern : Z) : ValidationResult :=
  if (pattern <? VALIDATION.MIN_MASK_PATTERN) || (pattern >? VALIDATION.MAX_MASK_PATTERN)
  then invalid ERROR_MESSAGES.INVALID_MASK_PATTERN else ok.

(** The two regular expressions are those of [QRGenerator.detectDataMode];
    the mode names ["numeric"], ["alphanumeric"], ["byte"] are written with
    the constructors of [DataMode]. *)
Definition detectDataMode (data : jsstring) : DataMode.t :=
  if QRGenerator.test_plus isDigit data then NUMERIC
  else if QRGenerator.test_plus QRGenerator.isAlphanumericChar data then ALPHANUMERIC
  else BYTE.

(** [Math.floor(baseCapacity * modeMultiplier * errorMultiplier)], the
    product taken from the left, each step rounded. *)
Definition getCapacityForVersion (version : Z) (errorLevel : ErrorCorrectionLevel.t)
    (mode : DataMode.t) : Z :=
  let baseCapacity := if version =? 1 then 25 else version * 15 in
  let modeMultiplier :=
    match mode with
    | NUMERIC => d2_4
    | ALPHANUMERIC => d1_8
    | _ => ofInt 1
    end in
  let errorMultiplier :=
    match errorLevel with
    | L => ofInt 1
    | M => d0_8
    | Q => d0_6
    | H => d0_4
    end in
  floor (mul (mul (ofInt baseCapacity) modeMultiplier) errorMultiplier).

(** The search loop of [validateCapacity], over the versions still to try. *)
Fixpoint validateCapacity_loop (dataLength : Z) (errorLevel : ErrorCorrectionLevel.t)
    (mode : DataMode.t) (versions : list Z) : ValidationResult :=
  match versions with
  | [] => mkValidation false (Some ERROR_MESSAGES.DATA_TOO_LONG) None None
            (Some dataLength)
  | version :: rest =>
      let capacity := getCapacityForVersion version errorLevel mode in
      if dataLength <=? capacity
      then mkValidation true None (Some version) (Some capacity) (Some dataLength)
      else validateCapacity_loop dataLength errorLevel mode rest
  end.

Section WithRest.

Context {Rest : Type}.

(** [validateScale], [validateColors] and [validateLogoOptions], in that
    order, on the cosmetic options. *)
Variable validateRest : Rest -> ValidationResult.

Definition validateOptions (options : QRCodeOptions Rest) : ValidationResult :=
  let versionValidation :=
    match version options with
    | Some v => validateVersion v
    | None => ok
    end in
  if negb (valid versionValidation) then versionValidation
  else
    (* every value of [ErrorCorrectionLevel.t] is one of the four levels *)
    let maskValidation :=
      match maskPattern options with
      | Some p => validateMaskPattern p
      | None => ok
      end in
    if negb (valid maskValidation) then maskValidation
    else
      let restValidation := validateRest (rest options) in
      if negb (valid restValidation) then restValidation else ok.

Definition validateCapacity (data : jsstring) (options : QRCodeOptions Rest)
  : ValidationResult :=
  let errorLevel :=
    default DEFAULT_errorCorrectionLevel (errorCorrectionLevel options) in
  let dataLength := len data in
  let mode := detectDataMode data in
  match QRGenerator.truthy (version options) with
  | Some v =>
      let capacity := getCapacityForVersion v errorLevel mode in
      if dataLength >? capacity
      then mkValidation false (Some ERROR_MESSAGES.DATA_TOO_LONG) None
             (Some capacity) (Some dataLength)
      else mkValidation true None None (Some capacity) (Some dataLength)
  | None => validateCapacity_loop dataLength errorLevel mode (seqZ 1 40)
  end.

Definition validateInput (data : jsstring) (options : QRCodeOptions Rest)
  : ValidationResult :=
  let dataValidation := validateData data in
  if negb (valid dataValidation) then dataValidation
  else
    let optionsValidation := validateOptions options in
    if negb (valid optionsValidation) then optionsValidation
    else
      let normalizedData := data in
      let capacityValidation := validateCapacity normalizedData options in
      if negb (valid capacityValidation) then capacityValidation
      else mkValidation true None (suggestedVersion capacityValidation)
             (maxCapacity capacityValidation) (Some (len normalizedData)).

End WithRest.

(** The answer of [getCapacityInfo]. *)
Record CapacityInfo := mkCapacityInfo {
  numeric : Z;
  alphanumeric : Z;
  byte : Z;
  modules : Z
}.

Definition getCapacityInfo (version : Z) (errorLevel : ErrorCorrectionLevel.t)
  : CapacityInfo :=
  mkCapacityInfo
    (getCapacityForVersion version errorLevel NUMERIC)
    (getCapacityForVersion version errorLevel ALPHANUMERIC)
    (getCapacityForVersion version errorLevel BYTE)
    (17 + 4 * version).

Section Batch.

Context {Rest : Type}.
Variable validateRest : Rest -> ValidationResult.

(** [`Item ${i + 1}: ${validation.error}`] *)
Definition itemError (i : Z) (error : option string) : string :=
  ("Item " ++ decimal (i + 1) ++ ": " ++ default "undefined" error)%string.

(** The loop of [validateBatchOptions] from index [i], over the items still
    to validate. *)
Fixpoint validateBatchOptions_loop (i : Z) (items : list jsstring)
    (options : QRCodeOptions Rest) : ValidationResult :=
  match items with
  | [] => ok
  | data :: rest =>
      let validation := validateInput validateRest data options in
      if negb (valid validation) then invalid (itemError i (error validation))
      else validateBatchOptions_loop (i + 1) rest options
  end.

(** [validateBatchOptions] on an array of strings. *)
Definition validateBatchOptions (dataArray : list jsstring)
    (options : QRCodeOptions Rest) : ValidationResult :=
  if Z.of_nat (length dataArray) =? 0 then invalid "Data array cannot be empty"
  else validateBatchOptions_loop 0 dataArray options.

End Batch.

Section WithNumber.

Import Logo.

Context {number : Type} `{JSNumber number}.

Definition validateLogoOptions (logo : LogoOptions number) : ValidationResult :=
  if srcFalsy (src logo) then invalid "Logo source is required"
  else if match width logo with
          | Some w =>
              ltN w (ofZ LOGO_CONSTRAINTS.MIN_WIDTH_PERCENT)
              || ltN (ofZ LOGO_CONSTRAINTS.MAX_WIDTH_PERCENT) w
          | None => false
          end
  then invalid ERROR_MESSAGES.LOGO_TOO_LARGE
  else if match height logo with
          | Some h =>
              ltN h (ofZ LOGO_CONSTRAINTS.MIN_HEIGHT_PERCENT)
              || ltN (ofZ LOGO_CONSTRAINTS.MAX_HEIGHT_PERCENT) h
          | None => false
          end
  then invalid ERROR_MESSAGES.LOGO_TOO_LARGE
  else ok.

(** [validateInput({}, { logo })], the call of
    [LogoProcessor.validateAndOptimize].  The data is an object literal:
    [validateData] has no arm for it and answers valid; of the options only
    [logo] is there for [validateOptions]; [normalizeData] then finds
    neither a string, nor a number, nor a [Buffer] and throws "Unsupported
    data type", which the [catch] of [validateInput] turns into a result. *)
Definition validateInput_logo (logo : LogoOptions number) : ValidationResult :=
  let dataValidation := ok in
  if negb (valid dataValidation) then dataValidation
  else
    let optionsValidation :=
      let logoValidation := validateLogoOptions logo in
      if negb (valid logoValidation) then logoValidation else ok in
    if negb (valid optionsValidation) then optionsValidation
    else invalid "Unsupported data type".

End WithNumber.

End ValidationUtils.

(* ================================================================== *)
(** ** [class LogoProcessor] of [utils/logo-processor.ts] *)
(* ================================================================== *)

Module LogoProcessor.
Import Logo.

Section WithNumber.

Context {number : Type} `{JSNumber number}.

(** The [console.warn] calls are left out. *)
Definition optimizeSize (size : option number) (defaultSize : number) : number :=
  match size with
  | None => defaultSize
  | Some size =>
      let minSize := ofZ LOGO_CONSTRAINTS.MIN_WIDTH_PERCENT in
      let maxSize := ofZ LOGO_CONSTRAINTS.MAX_WIDTH_PERCENT in
      if ltN size minSize then minSize
      else if ltN maxSize size then maxSize
      else size
  end.

(** [new Error(undefined)] has the empty message. *)
Definition validateAndOptimize (logoOptions : LogoOptions number)
  : outcome (LogoOptions number) :=
  let validation := ValidationUtils.validateInput_logo logoOptions in
  if negb (ValidationUtils.valid validation)
  then Throws (default EmptyString (ValidationUtils.error validation))
  else
    Returns
      (mkLogoOptions
         (src logoOptions)
         (Some (optimizeSize (width logoOptions)
                  (ofZ LOGO_CONSTRAINTS.DEFAULT_WIDTH_PERCENT)))
         (Some (optimizeSize (height logoOptions)
                  (ofZ LOGO_CONSTRAINTS.DEFAULT_HEIGHT_PERCENT)))
         (Some (default true (border logoOptions)))
         (Some match borderColor logoOptions with
               | Some c => if bool_decide (c = []) then lit "#FFFFFF" else c
               | None => lit "#FFFFFF"
               end)
         (Some match borderWidth logoOptions with
               | Some w => if falsyN w
                           then ofZ LOGO_CONSTRAINTS.DEFAULT_BORDER_WIDTH else w
               | None => ofZ LOGO_CONSTRAINTS.DEFAULT_BORDER_WIDTH
               end)).

End WithNumber.

Definition isInFinderPattern (x y modules : Z) : bool :=
  if (x <=? 8) && (y <=? 8) then true
  else if (modules - 9 <=? x) && (y <=? 8) then true
  else if (x <=? 8) && (modules - 9 <=? y) then true
  else false.

Definition isFormatInfoArea (x y modules : Z) : bool :=
  if ((x <=? 8) && (y =? 8)) || ((x =? 8) && (y <=? 8)) then true
  else if (modules - 8 <=? x) && (y =? 8) then true
  else if (x =? 8) && (modules - 7 <=? y) then true
  else false.

Definition isVersionInfoArea (x y modules : Z) : bool :=
  if (x <=? 5) && (modules - 11 <=? y) && (y <=? modules - 9) then true
  else if (modules - 11 <=? x) && (x <=? modules - 9) && (y <=? 5) then true
  else false.

Definition getAlignmentPatternPositions (version : Z) : list (Z * Z) :=
  if version =? 2 then [ (16, 16) ]
  else if version >=? 3 then
    let modules := 17 + 4 * version in
    let step := (modules - 13) / 2 in
    [ (step, step) ]
  else [].

(** [Math.floor((modules - 17) / 4)] is the integer quotient rounded down,
    also when [modules] is below 17. *)
Definition isInAlignmentPattern (x y modules : Z) : bool :=
  let version := (modules - 17) / 4 + 1 in
  if version <? 2 then false
  else
    existsb (fun pos => (Z.abs (x - fst pos) <=? 2) && (Z.abs (y - snd pos) <=? 2))
      (getAlignmentPatternPositions version).

Definition isDataModule (x y modules : Z) : bool :=
  if isInFinderPattern x y modules then false
  else if (x =? 6) || (y =? 6) then false
  else if (x =? 8) && (y =? 4 * ((modules - 17) / 4) + 9) then false
  else if isFormatInfoArea x y modules then false
  else
    let version := (modules - 17) / 4 + 1 in
    if (version >=? 7) && isVersionInfoArea x y modules then false
    else if (version >=? 2) && isInAlignmentPattern x y modules then false
    else true.

Definition countDataModules (matrix : QRMatrix) : Z :=
  let modules := Z.of_nat (length matrix) in
  forZ 0 modules (fun y dataModules =>
    forZ 0 modules (fun x dataModules =>
      if isDataModule x y modules then dataModules + 1 else dataModules)
      dataModules) 0.

Record Zone := mkZone { zoneX : Z; zoneY : Z; zoneWidth : Z; zoneHeight : Z }.

(** [Math.floor(modules * 0.25)]: a quarter of an integer is a double, its
    floor the integer quotient. *)
Definition findSafeZones (matrix : QRMatrix) : list Zone :=
  let modules := Z.of_nat (length matrix) in
  let centerSize := modules / 4 in
  let centerStart := (modules - centerSize) / 2 in
  [ mkZone centerStart centerStart centerSize centerSize ].

End LogoProcessor.

(* ================================================================== *)
(** ** [class QRCode] of [index.ts] *)
(* ================================================================== *)

Module QRCode.

Import Options.

Record QRCodeResult (Format Rendered Size : Type) := mkResult {
  data : Rendered;
  format : Format;
  version : Z;
  errorCorrectionLevel : ErrorCorrectionLevel.t;
  maskPattern : Z;
  modules : Z;
  size : Size
}.
Arguments mkResult {Format Rendered Size} _ _ _ _ _ _ _.
Arguments data {Format Rendered Size} _.
Arguments version {Format Rendered Size} _.
Arguments maskPattern {Format Rendered Size} _.
Arguments modules {Format Rendered Size} _.

Section Facade.

Context {Rest RestInternal Format Rendered Size : Type}.

(** The collaborators outside of the encoding engine: validation and
    merging of the cosmetic options, the renderers, the output size. *)
Variable validateRest : Rest -> ValidationUtils.ValidationResult.
Variable mergeRest : Rest -> RestInternal.
Variable renderMatrix :
  QRMatrix -> Format -> QRCodeOptionsInternal RestInternal -> outcome Rendered.
Variable calculateOutputSize :
  QRCodeOptionsInternal RestInternal -> Format -> Z -> Size.

(** [x || undefined] on an optional number maps [0] to [undefined]. *)
Definition mergeOptions (options : QRCodeOptions Rest)
  : QRCodeOptionsInternal RestInternal :=
  mkInternal
    (default DEFAULT_errorCorrectionLevel (Options.errorCorrectionLevel options))
    (QRGenerator.truthy (Options.version options))
    (QRGenerator.truthy (Options.maskPattern options))
    (mergeRest (rest options)).

(** The matrix step of [generate]: validation, merging, and the call of the
    generator with [validation.suggestedVersion || finalOptions.version]. *)
Definition generateMatrix (payload : jsstring) (options : QRCodeOptions Rest)
  : outcome QRGenerator.generated :=
  let validation := ValidationUtils.validateInput validateRest payload options in
  if negb (ValidationUtils.valid validation)
  then Throws (default EmptyString (ValidationUtils.error validation))
  else
    let finalOptions := mergeOptions options in
    QRGenerator.generate payload
      (finalErrorCorrectionLevel finalOptions)
      (match QRGenerator.truthy (ValidationUtils.suggestedVersion validation) with
       | Some v => Some v
       | None => finalVersion finalOptions
       end)
      (finalMaskPattern finalOptions).

(** [async generate(data, format, options)]; a rejected promise is the
    [Throws] arm. *)
Definition generate (payload : jsstring) (fmt : Format) (options : QRCodeOptions Rest)
  : outcome (QRCodeResult Format Rendered Size) :=
  g ← generateMatrix payload options;
  let finalOptions := mergeOptions options in
  renderedData ← renderMatrix (QRGenerator.matrix g) fmt finalOptions;
  Returns (mkResult renderedData fmt
             (QRGenerator.version g)
             (QRGenerator.errorCorrectionLevel g)
             (QRGenerator.maskPattern g)
             (QRGenerator.modules g)
             (calculateOutputSize finalOptions fmt (QRGenerator.modules g))).

End Facade.

(** A call of the progress callback: [(completed, total, current)]. *)
Definition ProgressCall : Type := Z * Z * jsstring.

Section Batch.

Context {Rest RestInternal Format Rendered Size : Type}.
Variable validateRest : Rest -> ValidationUtils.ValidationResult.
Variable mergeRest : Rest -> RestInternal.
Variable renderMatrix :
  QRMatrix -> Format -> QRCodeOptionsInternal RestInternal -> outcome Rendered.
Variable calculateOutputSize :
  QRCodeOptionsInternal RestInternal -> Format -> Z -> Size.

(** The loop of [generateBatch] from index [i]: the results so far and the
    calls made to the progress callback, then the outcome. *)
Fixpoint generateBatch_loop (total i : Z) (items : list jsstring) (fmt : Format)
    (options : QRCodeOptions Rest)
    (results : list (QRCodeResult Format Rendered Size))
    (calls : list ProgressCall)
  : list ProgressCall * outcome (list (QRCodeResult Format Rendered Size)) :=
  match items with
  | [] => (calls ++ [(total, total, lit "Complete")], Returns results)
  | data :: rest =>
      let currentData := data in
      let calls := calls ++ [(i, total, currentData)] in
      match generate validateRest mergeRest renderMatrix calculateOutputSize
              data fmt options with
      | Returns result =>
          generateBatch_loop total (i + 1) rest fmt options (results ++ [result]) calls
      | Throws message =>
          (calls,
           Throws ("Failed to generate QR code for item " ++ decimal (i + 1) ++ ": "
                   ++ errorToString message))
      end
  end.

(** [generateBatch] on an array of strings, with the calls that a progress
    callback receives. *)
Definition generateBatch (dataArray : list jsstring) (fmt : Format)
    (options : QRCodeOptions Rest)
  : list ProgressCall * outcome (list (QRCodeResult Format Rendered Size)) :=
  let validation := ValidationUtils.validateBatchOptions validateRest dataArray options in
  if negb (ValidationUtils.valid validation)
  then ([], Throws (default EmptyString (ValidationUtils.error validation)))
  else generateBatch_loop (Z.of_nat (length dataArray)) 0 dataArray fmt options [] [].

End Batch.

(** [s || fallback] on an optional string: [undefined] and [""] are falsy. *)
Definition orString (s : option jsstring) (fallback : jsstring) : jsstring :=
  match s with
  | Some s => if bool_decide (s = []) then fallback else s
  | None => fallback
  end.

(** [renderASCII(matrix, options)], which reads [options.text] and
    [options.margin.size] (an integer here); the rows of the matrix are gone
    through in order, and so are the modules of each row. *)
Definition renderASCII (matrix : QRMatrix) (text : option TextOptions.t) (margin : Z)
  : completion jsstring :=
  let darkChar := orString (text ≫= TextOptions.darkChar) [9608; 9608] in
  let lightChar := orString (text ≫= TextOptions.lightChar) [32; 32] in
  let result := Value [] in
  let lineWidth := Z.of_nat (length matrix) + margin * 2 in
  let marginLines (result : completion jsstring) :=
    forZ 0 margin (fun i result =>
      result ← result;
      blank ← repeatString lightChar lineWidth;
      Value (result ++ blank ++ [10])) result in
  let result := marginLines result in
  let result :=
    foldl (fun result row =>
      result ← result;
      side ← repeatString lightChar margin;
      let result := result ++ side in
      let result :=
        foldl (fun result module => result ++ (if module : bool then darkChar else lightChar))
          result row in
      side ← repeatString lightChar margin;
      Value (result ++ side ++ [10])) result matrix in
  marginLines result.

End QRCode.

(* ================================================================== *)
(** ** The specification's words, for comparison with the code *)
(* ================================================================== *)

Module Spec.

(** "the fixed 45-character alphanumeric set ([0-9], [A-Z], space,
    [$ % * + - . / :])" *)
Definition alphanumericSet : jsstring :=
  lit "0123456789ABCDEFGHIJKLMNOPQRSTUVWXYZ $%*+-./:".

Definition inAlphanumericSet (c : Z) : Prop := c ∈ alphanumericSet.

Definition decimalDigit (c : Z) : Prop := 48 <= c <= 57.

(** [value] written on [width] bits, most significant bit first. *)
Fixpoint binary (width : nat) (value : Z) : list Z :=
  match width with
  | O => []
  | S w => (value / 2 ^ Z.of_nat w) mod 2 :: binary w value
  end.

Definition digit (c : Z) : Z := c - 48.

(** "numeric: groups of 3 digits -> 10 bits; remainder of 2 digits -> 7
    bits; remainder of 1 digit -> 4 bits." *)
Fixpoint packNumeric (digits : jsstring) : list Z :=
  match digits with
  | d1 :: d2 :: d3 :: rest =>
      binary 10 (100 * digit d1 + 10 * digit d2 + digit d3) ++ packNumeric rest
  | [d1; d2] => binary 7 (10 * digit d1 + digit d2)
  | [d1] => binary 4 (digit d1)
  | [] => []
  end.

(** Number of packed payload bits for [n] characters in each mode. *)
Definition packedBits (mode : DataMode.t) (n : Z) : Z :=
  match mode with
  | DataMode.NUMERIC =>
      10 * (n / 3) + (if n mod 3 =? 1 then 4 else if n mod 3 =? 2 then 7 else 0)
  | DataMode.ALPHANUMERIC => 11 * (n / 2) + 6 * (n mod 2)
  | _ => 8 * n
  end.

(** Rule 3 in the spec's words, which [calculateMaskPenalty] does not
    compute: "finder-pattern-like light/dark sequences (1:1:3:1:1 ratio with
    adequate light margin) found in any row/column, penalty 40 each
    occurrence".  A sequence is seven modules of a line, dark, light, three
    dark, light, dark, from [start] on. *)
Definition finderRun (cell : Z -> bool) (start : Z) : bool :=
  bool_decide (map (fun k => cell (start + k)) (seqZ 0 7)
               = [true; false; true; true; true; false; true]).

(** The margin: four light modules of the line, from [start] on. *)
Definition lightMargin (modules : Z) (cell : Z -> bool) (start : Z) : bool :=
  (0 <=? start) && (start + 4 <=? modules)
  && forallb (fun k => negb (cell (start + k))) (seqZ 0 4).

(** An occurrence: a sequence with the margin right before it or right
    after it.  With light modules on both sides it is still one
    occurrence. *)
Definition finderLike (modules : Z) (cell : Z -> bool) (start : Z) : bool :=
  finderRun cell start
  && (lightMargin modules cell (start - 4) || lightMargin modules cell (start + 7)).

(** One row or column: 40 for each occurrence. *)
Definition lineRule3 (modules : Z) (cell : Z -> bool) (penalty : Z) : Z :=
  forZ 0 (modules - 6) (fun start penalty =>
    if finderLike modules cell start then penalty + 40 else penalty) penalty.

Definition penaltyRule3 (modules : Z) (m : QRMatrix) : Z :=
  let penalty := forZ 0 modules (fun y penalty =>
                   lineRule3 modules (fun x => mget m x y) penalty) 0 in
  forZ 0 modules (fun x penalty =>
    lineRule3 modules (fun y => mget m x y) penalty) penalty.

(** The sequences of the rows and columns, with a margin or without. *)
Definition finderRuns (modules : Z) (m : QRMatrix) : Z :=
  let count (cell : Z -> bool) (runs : Z) :=
    forZ 0 (modules - 6) (fun start runs =>
      if finderRun cell start then runs + 1 else runs) runs in
  let runs := forZ 0 modules (fun y runs => count (fun x => mget m x y) runs) 0 in
  forZ 0 modules (fun x runs => count (fun y => mget m x y) runs) runs.

(** Rule 4 in the spec's words, which [calculateMaskPenalty] does not
    compute: "deviation of dark-module percentage from 50%", the standard
    ten points for every full 5% of deviation. *)
Definition darkModules (modules : Z) (m : QRMatrix) : Z :=
  forZ 0 modules (fun y dark =>
    forZ 0 modules (fun x dark => if mget m x y then dark + 1 else dark) dark) 0.

Definition penaltyRule4 (modules : Z) (m : QRMatrix) : Z :=
  let total := modules * modules in
  10 * (Z.abs (100 * darkModules modules m - 50 * total) / (5 * total)).

(** "four penalty rules": the two of the code and the two above. *)
Definition fourRulePenalty (modules : Z) (m : QRMatrix) : Z :=
  QRGenerator.calculateAdjacentPenalty modules m
  + QRGenerator.calculateBlockPenalty modules m
  + penaltyRule3 modules m
  + penaltyRule4 modules m.

End Spec.

(* ================================================================== *)
(** ** Derived notions and proof automation *)
(* ================================================================== *)

Import ErrorCorrectionLevel DataMode QRGenerator.

(** The mask [generate] applies: the forced one, or the selected one. *)
Definition chosenMask (modules : Z) (m : QRMatrix) (maskPattern : option Z) : Z :=
  match maskPattern with
  | Some p => p
  | None => selectBestMaskPattern modules m
  end.

(** The packed payload of [encodeData], by mode. *)
Definition packedPayload (data : jsstring) : list Z :=
  match detectDataMode data with
  | NUMERIC => encodeNumeric data
  | ALPHANUMERIC => encodeAlphanumeric data
  | BYTE => encodeByte data
  | KANJI => []
  end.

(** The function patterns before data placement. *)
Definition functionPatterns (version : Z) : QRMatrix :=
  let modules := getModuleCount version in
  addDarkModule version modules
    (addTimingPatterns modules
       (addAlignmentPatterns version modules
          (addSeparators modules
             (addFinderPatterns modules (initializeMatrix modules))))).

(** Two placement states with the same [dataIndex], whose [n x n] matrices
    have the same module wherever [P] holds. *)
Definition alike (n : Z) (P : Z -> Z -> Prop) (st1 st2 : QRMatrix * Z) : Prop :=
  snd st1 = snd st2 /\ square n (fst st1) /\ square n (fst st2) /\
  forall x y, P x y -> mget (fst st1) x y = mget (fst st2) x y.

(** Row visited at turn [count] of the middle loop of [placeDataModules]. *)
Definition rowAt (n direction count : Z) : Z :=
  if direction =? -1 then n - 1 - count else count.

(** The values of [col] at the head of the column loop of
    [placeDataModules] when the side is odd: even down to 6, then 3, 1, -1. *)
Definition loopHead (col : Z) : Prop :=
  (Z.even col = true /\ 6 <= col) \/ col = 3 \/ col = 1 \/ col = -1.

(** Modules [(x, y)] of the finished matrix, when there is one. *)
Definition finishedModules (o : outcome generated) (cells : list (Z * Z))
  : option (list bool) :=
  match o with
  | Returns g => Some (map (fun cell => mget (matrix g) (fst cell) (snd cell)) cells)
  | Throws _ => None
  end.

(** A bit of the stream: 0 or 1. *)
Definition isBit (b : Z) : Prop := b = 0 \/ b = 1.

(** The number that a list of bits writes, most significant bit first. *)
Definition bitsValue (bits : list Z) : Z := foldl (fun acc b => 2 * acc + b) 0 bits.

(** Value of a character in the table of the alphanumeric mode: the digits,
    the capital letters from 10, then space and [$ % * + - . / :]. *)
Definition alphanumericValue (c : Z) : Z :=
  if (48 <=? c) && (c <=? 57) then c - 48
  else if (65 <=? c) && (c <=? 90) then c - 55
  else if c =? 32 then 36
  else if c =? 36 then 37
  else if c =? 37 then 38
  else if c =? 42 then 39
  else if c =? 43 then 40
  else if c =? 45 then 41
  else if c =? 46 then 42
  else if c =? 47 then 43
  else if c =? 58 then 44
  else -1.

(** Pairs of characters on 11 bits, a last single character on 6 bits. *)
Fixpoint packAlphanumeric (chars : jsstring) : list Z :=
  match chars with
  | c1 :: c2 :: rest =>
      Spec.binary 11 (45 * alphanumericValue c1 + alphanumericValue c2)
      ++ packAlphanumeric rest
  | [c1] => Spec.binary 6 (alphanumericValue c1)
  | [] => []
  end.

(** A code unit below 256, as in a Latin-1 string. *)
Definition latin1 (c : Z) : Prop := 0 <= c < 256.

(** The stream bit that [placeDataModules] writes for index [k]: dark when
    [data[k] === 1], light otherwise and beyond the end of the stream. *)
Definition streamBit (data : list Z) (k : Z) : bool :=
  bool_decide (at_ data k = Some 1).

(** Number of column pairs that [placeDataModules] has gone through when the
    head of its column loop holds [col], in a matrix of odd side [n]. *)
Definition pairsBefore (n col : Z) : Z :=
  if 6 <=? col then (n - 1 - col) / 2 else (n - 7) / 2 + (5 - col) / 2.

(** The place of module [(x, y)], [x <> 6], in the order in which
    [placeDataModules] visits a matrix of odd side [n]: column pairs from the
    right, skipping column 6, each pair travelled upwards and downwards in
    turn, right column first. *)
Definition cellIndex (n x y : Z) : Z :=
  let p := if 6 <? x then (n - 1 - x) / 2 else (n - 7) / 2 + (5 - x) / 2 in
  let c := if 6 <? x then (n - 1 - x) mod 2 else (5 - x) mod 2 in
  let count := if Z.even p then n - 1 - y else y in
  2 * n * p + 2 * count + c.

(** The module visited at place [k]. *)
Definition cellAt (n k : Z) : Z * Z :=
  let p := k / (2 * n) in
  let r := k mod (2 * n) in
  let count := r / 2 in
  let c := r mod 2 in
  let col := if p <? (n - 7) / 2 then n - 1 - 2 * p else 5 - 2 * (p - (n - 7) / 2) in
  (col - c, if Z.even p then n - 1 - count else count).

(** Every module inverted. *)
Definition inverted (m : QRMatrix) : QRMatrix := map (map negb) m.

(** The characters that [determineVersion] allows per version step. *)
Definition charactersPerVersion (level : ErrorCorrectionLevel.t) : Z :=
  match level with L => 10 | M => 8 | Q => 6 | H => 4 end.

(** Whether the options pass [validateCapacity] for a payload: the forced
    version accommodates it, or some version of 1..40 does. *)
Definition accommodates {Rest : Type} (payload : jsstring)
    (options : Options.QRCodeOptions Rest) : Prop :=
  let level := default Options.DEFAULT_errorCorrectionLevel
                 (Options.errorCorrectionLevel options) in
  let capacity v := ValidationUtils.getCapacityForVersion v level
                      (ValidationUtils.detectDataMode payload) in
  match Options.version options with
  | Some v => len payload <= capacity v
  | None => exists v, 1 <= v <= 40 /\ len payload <= capacity v
  end.

(** The levels and the modes. *)
Definition levels : list ErrorCorrectionLevel.t := [L; M; Q; H].
Definition modes : list DataMode.t := [NUMERIC; ALPHANUMERIC; BYTE; KANJI].

(** The calls of the progress callback over a whole batch. *)
Definition progressCalls (dataArray : list jsstring) : list QRCode.ProgressCall :=
  let total := Z.of_nat (length dataArray) in
  imap (fun i data => (Z.of_nat i, total, data)) dataArray
  ++ [(total, total, lit "Complete")].

(** The lines of the ASCII rendering: blank lines above and below, and one
    line per row of the matrix between blank sides. *)
Definition asciiLines (matrix : QRMatrix) (darkChar lightChar : jsstring) (margin : Z)
  : list jsstring :=
  let cells (k : Z) := concat (replicate (Z.to_nat k) lightChar) in
  let blank := cells (Z.of_nat (length matrix) + margin * 2) in
  replicate (Z.to_nat margin) blank
  ++ map (fun row =>
       cells margin
       ++ concat (map (fun module : bool => if module then darkChar else lightChar) row)
       ++ cells margin) matrix
  ++ replicate (Z.to_nat margin) blank.

(** The facade with no cosmetic option and a renderer that returns the
    matrix. *)
Definition plainOptions (level : option ErrorCorrectionLevel.t)
    (version maskPattern : option Z) : Options.QRCodeOptions unit :=
  Options.mkOptions level version maskPattern tt.

Definition plainValidate (_ : unit) : ValidationUtils.ValidationResult :=
  ValidationUtils.ok.

Definition plainMerge (_ : unit) : unit := tt.

(** Membership in a literal list of code units. *)
Ltac in_literal :=
  apply list_elem_of_In; vm_compute; repeat (first [left; reflexivity | right]).

(* ================================================================== *)
(** ** Loops and matrix cells *)
(* ================================================================== *)

Section Loops.

Context {St : Type}.

(** An invariant of the body is an invariant of the loop. *)
Lemma forZ_ind (P : St -> Prop) (lo hi : Z) (body : Z -> St -> St) (s : St) :
  P s ->
  (forall i s, lo <= i < hi -> P s -> P (body i s)) ->
  P (forZ lo hi body s).
Proof.
  intros Hs Hbody. unfold forZ.
  assert (Hin : Forall (fun i => lo <= i < hi) (seqZ lo (hi - lo))).
  { apply Forall_seqZ. intros; lia. }
  revert s Hs. induction Hin as [|i l Hi _ IH]; intros s Hs; simpl; [done|].
  apply IH. by apply Hbody.
Qed.

Lemma forZ_empty (lo hi : Z) (body : Z -> St -> St) (s : St) :
  hi <= lo -> forZ lo hi body s = s.
Proof. intros. unfold forZ. rewrite seqZ_nil by lia. done. Qed.

(** The last turn of a loop. *)
Lemma forZ_snoc (lo hi : Z) (body : Z -> St -> St) (s : St) :
  lo <= hi -> forZ lo (hi + 1) body s = body hi (forZ lo hi body s).
Proof.
  intros. unfold forZ.
  replace (hi + 1 - lo) with ((hi - lo) + 1) by lia.
  rewrite seqZ_app by lia. rewrite foldl_app.
  replace (lo + (hi - lo)) with hi by lia.
  rewrite (seqZ_cons hi 1) by lia. rewrite (seqZ_nil (Z.succ hi)) by lia. done.
Qed.

End Loops.

Lemma mset_square (n : Z) (m : QRMatrix) (x y : Z) (v : bool) :
  square n m -> square n (mset m x y v).
Proof.
  intros [Hlen Hrows]. unfold mset. destruct (_ || _); [done|].
  split.
  - by rewrite length_alter.
  - apply Forall_alter; [done|]. intros row _ Hrow. by rewrite length_insert.
Qed.

Lemma mget_mset_other (m : QRMatrix) (x y x' y' : Z) (v : bool) :
  (x, y) <> (x', y') -> mget (mset m x' y' v) x y = mget m x y.
Proof.
  intros Hne. unfold mget, mset.
  destruct (x <? 0) eqn:Hx; [done|]. destruct (y <? 0) eqn:Hy; [done|]. simpl.
  destruct (x' <? 0) eqn:Hx'; [done|]. destruct (y' <? 0) eqn:Hy'; [done|]. simpl.
  apply Z.ltb_ge in Hx, Hy, Hx', Hy'.
  destruct (decide (y = y')) as [->|Hyy].
  - rewrite list_lookup_alter_eq. destruct (m !! Z.to_nat y') as [row|]; [|done].
    simpl. rewrite list_lookup_insert_ne; [done|].
    intros Heq. apply Hne. f_equal. lia.
  - rewrite list_lookup_alter_ne; [done|]. lia.
Qed.

(** Every step of the builder writes cells through [mset]. *)
Ltac preserve_square :=
  repeat first
    [ assumption
    | apply mset_square
    | apply (forZ_ind (square _)); [|intros ? ? ? ?]
    | match goal with
      | |- square _ (if ?c then _ else _) => destruct c
      end ].

(* ================================================================== *)
(** ** Mode selection *)
(* ================================================================== *)

Lemma test_plus_spec (class : Z -> bool) (data : jsstring) :
  test_plus class data = true <-> data <> [] /\ Forall (fun c => class c = true) data.
Proof.
  unfold test_plus. rewrite andb_true_iff, negb_true_iff, bool_decide_eq_false.
  rewrite forallb_forall, Forall_forall.
  setoid_rewrite <- list_elem_of_In. done.
Qed.

Lemma isDigit_spec (c : Z) : isDigit c = true <-> Spec.decimalDigit c.
Proof. unfold isDigit, Spec.decimalDigit. lia. Qed.

Lemma isAlphanumericChar_spec (c : Z) :
  isAlphanumericChar c = true <-> Spec.inAlphanumericSet c.
Proof.
  unfold Spec.inAlphanumericSet. split.
  - unfold isAlphanumericChar. rewrite !orb_true_iff, !andb_true_iff.
    intros [[Hdigit | Hupper] | Hsymbol].
    + assert (Hc : exists k : nat, c = 48 + Z.of_nat k /\ (k < 10)%nat).
      { exists (Z.to_nat (c - 48)). lia. }
      destruct Hc as (k & -> & Hk).
      do 10 (destruct k as [|k]; [in_literal|]). lia.
    + assert (Hc : exists k : nat, c = 65 + Z.of_nat k /\ (k < 26)%nat).
      { exists (Z.to_nat (c - 65)). lia. }
      destruct Hc as (k & -> & Hk).
      do 26 (destruct k as [|k]; [in_literal|]). lia.
    + apply existsb_exists in Hsymbol as (d & Hd & Heq).
      apply Z.eqb_eq in Heq. subst d.
      vm_compute in Hd.
      repeat (destruct Hd as [<- | Hd]; [in_literal|]). done.
  - intros Hin. apply list_elem_of_In in Hin. vm_compute in Hin.
    repeat (destruct Hin as [<- | Hin]; [reflexivity|]). done.
Qed.

Lemma detectDataMode_numeric (data : jsstring) :
  detectDataMode data = NUMERIC <-> data <> [] /\ Forall Spec.decimalDigit data.
Proof.
  unfold detectDataMode.
  rewrite <- (Forall_iff _ data _ isDigit_spec), <- test_plus_spec.
  destruct (test_plus isDigit data); [done|].
  destruct (test_plus isAlphanumericChar data); split; intros; done.
Qed.

Lemma detectDataMode_alphanumeric (data : jsstring) :
  detectDataMode data = ALPHANUMERIC <->
  data <> [] /\ Forall Spec.inAlphanumericSet data /\ ~ Forall Spec.decimalDigit data.
Proof.
  unfold detectDataMode.
  rewrite <- (Forall_iff _ data _ isDigit_spec).
  rewrite <- (Forall_iff _ data _ isAlphanumericChar_spec).
  destruct (test_plus isDigit data) eqn:Hd.
  - apply test_plus_spec in Hd. split; [done|]. intros (_ & _ & Hn). tauto.
  - destruct (test_plus isAlphanumericChar data) eqn:Ha.
    + apply test_plus_spec in Ha. split; [|done]. intros _.
      split; [tauto|]. split; [tauto|]. intros Hall.
      assert (test_plus isDigit data = true) by (apply test_plus_spec; tauto).
      congruence.
    + split; [done|]. intros (Hne & Hall & _).
      assert (test_plus isAlphanumericChar data = true) by (by apply test_plus_spec).
      congruence.
Qed.

Lemma digit_in_alphanumericSet (c : Z) :
  Spec.decimalDigit c -> Spec.inAlphanumericSet c.
Proof.
  intros Hc. apply isAlphanumericChar_spec. unfold isAlphanumericChar.
  unfold Spec.decimalDigit in Hc.
  replace ((48 <=? c) && (c <=? 57)) with true by lia. done.
Qed.

Lemma detectDataMode_byte (data : jsstring) :
  detectDataMode data = BYTE <-> data = [] \/ ~ Forall Spec.inAlphanumericSet data.
Proof.
  unfold detectDataMode.
  rewrite <- (Forall_iff _ data _ isAlphanumericChar_spec).
  destruct (test_plus isDigit data) eqn:Hd.
  - apply test_plus_spec in Hd as [Hne Hall]. split; [done|].
    intros [? | Hn]; [done|]. exfalso. apply Hn.
    eapply Forall_impl; [exact Hall|]. intros c Hc. simpl in Hc.
    apply isAlphanumericChar_spec, digit_in_alphanumericSet, isDigit_spec, Hc.
  - destruct (test_plus isAlphanumericChar data) eqn:Ha.
    + apply test_plus_spec in Ha. split; [done|]. intros [? | ?]; tauto.
    + split; [|done]. intros _.
      destruct data as [|c data]; [by left|]. right. intros Hall.
      assert (test_plus isAlphanumericChar (c :: data) = true)
        by (by apply test_plus_spec).
      congruence.
Qed.

(** The mode is never [KANJI]. *)
Lemma detectDataMode_not_kanji (data : jsstring) : detectDataMode data <> KANJI.
Proof.
  unfold detectDataMode.
  destruct (test_plus isDigit data); [done|].
  destruct (test_plus isAlphanumericChar data); done.
Qed.

Lemma alphanumericSet_size :
  length Spec.alphanumericSet = 45%nat /\ NoDup Spec.alphanumericSet.
Proof.
  split; [reflexivity|].
  apply (bool_decide_unpack (NoDup Spec.alphanumericSet)). vm_compute. exact I.
Qed.

(** C4, as the claim words it, at the payload ["1"]: every character is in
    the 45-character set, yet the mode is numeric, so "alphanumeric iff
    every character is in the set" fails. *)
Lemma digits_are_not_alphanumeric_mode :
  detectDataMode (lit "1") = NUMERIC /\
  ~ (detectDataMode (lit "1") = ALPHANUMERIC <->
     Forall Spec.inAlphanumericSet (lit "1")).
Proof.
  split; [reflexivity|]. intros [_ Hback].
  assert (Hset : Forall Spec.inAlphanumericSet (lit "1")).
  { constructor; [|constructor]. unfold Spec.inAlphanumericSet. in_literal. }
  specialize (Hback Hset). vm_compute in Hback. discriminate.
Qed.

(** C4 (amended): for every non-empty payload, mode selection returns
    numeric iff every character is a decimal digit; returns alphanumeric
    iff every character is in the 45-character set and not all of them are
    decimal digits; and returns byte iff some character is outside of
    the 45-character set. *)
Theorem detectDataMode_contract (data : jsstring) :
  data <> [] ->
  (detectDataMode data = NUMERIC <-> Forall Spec.decimalDigit data) /\
  (detectDataMode data = ALPHANUMERIC <->
     Forall Spec.inAlphanumericSet data /\ ~ Forall Spec.decimalDigit data) /\
  (detectDataMode data = BYTE <-> ~ Forall Spec.inAlphanumericSet data).
Proof.
  intros Hne. split; [|split].
  - rewrite detectDataMode_numeric. tauto.
  - rewrite detectDataMode_alphanumeric. tauto.
  - rewrite detectDataMode_byte. tauto.
Qed.

Lemma detectDataMode_contract_witness :
  lit "HELLO WORLD" <> [] /\
  ((detectDataMode (lit "HELLO WORLD") = NUMERIC <->
      Forall Spec.decimalDigit (lit "HELLO WORLD")) /\
   (detectDataMode (lit "HELLO WORLD") = ALPHANUMERIC <->
      Forall Spec.inAlphanumericSet (lit "HELLO WORLD") /\
      ~ Forall Spec.decimalDigit (lit "HELLO WORLD")) /\
   (detectDataMode (lit "HELLO WORLD") = BYTE <->
      ~ Forall Spec.inAlphanumericSet (lit "HELLO WORLD"))).
Proof.
  assert (Hne : lit "HELLO WORLD" <> []) by (vm_compute; discriminate).
  split; [exact Hne | exact (detectDataMode_contract (lit "HELLO WORLD") Hne)].
Defined.

(* ================================================================== *)
(** ** Empty payloads *)
(* ================================================================== *)

Lemma determineVersion_loop_throws (dataLength : Z) (level : ErrorCorrectionLevel.t)
    (mode : DataMode.t) (versions : list Z) (msg : string) :
  determineVersion_loop dataLength level mode versions = Throws msg ->
  msg = "Data too long for QR code"%string.
Proof.
  induction versions as [|v versions IH]; simpl.
  - congruence.
  - destruct (dataLength <=? _); [discriminate | exact IH].
Qed.

Lemma determineVersion_empty (level : ErrorCorrectionLevel.t) :
  determineVersion [] level = Returns 1.
Proof. destruct level; reflexivity. Qed.

(** C8: the generator throws its empty-payload error exactly on the payload
    of zero length, whatever the level, the forced version and the forced
    mask; a throw returns no matrix.  The facade's [validateData] rejects
    exactly the empty string as well. *)
Theorem empty_payload_rejected (data : jsstring) (level : ErrorCorrectionLevel.t)
    (version maskPattern : option Z) :
  (generate data level version maskPattern = Throws "Input data cannot be empty"
   <-> data = []) /\
  (ValidationUtils.validateData data
   = ValidationUtils.invalid ERROR_MESSAGES.INVALID_DATA <-> data = []) /\
  (ValidationUtils.valid (ValidationUtils.validateData data) = true <-> data <> []).
Proof.
  split; [|split].
  - unfold generate. split.
    + intros Hthrow. destruct (decide (data = [])) as [|Hne]; [done|]. exfalso.
      unfold mbind, outcome_bind in Hthrow.
      destruct (match truthy version with
                | Some v => Returns v
                | None => determineVersion data level
                end) as [v|msg] eqn:Hv.
      * unfold validateInput in Hthrow.
        rewrite bool_decide_eq_false_2 in Hthrow by done.
        destruct (_ || _); discriminate.
      * destruct (truthy version); [discriminate|].
        apply determineVersion_loop_throws in Hv. congruence.
    + intros ->. destruct (truthy version) as [v|].
      * reflexivity.
      * rewrite determineVersion_empty. reflexivity.
  - unfold ValidationUtils.validateData, len.
    destruct data; simpl; split; intros; done.
  - unfold ValidationUtils.validateData, len.
    destruct data; simpl; split; intros; done.
Qed.

(* ================================================================== *)
(** ** Mask application leaves function modules alone *)
(* ================================================================== *)

Lemma isDataModule_false (modules x y : Z) :
  isDataModule modules x y = false <->
  y = 6 \/ x = 6 \/ isFinderPattern modules x y = true.
Proof.
  unfold isDataModule. destruct (isFinderPattern modules x y); simpl.
  - split; auto.
  - rewrite andb_false_iff, !negb_false_iff, !Z.eqb_eq.
    split; [intros [?|?]; auto | intros [?|[?|?]]; auto; discriminate].
Qed.

Lemma applyMaskToMatrix_frame (modules : Z) (m : QRMatrix) (pattern x y : Z) :
  isDataModule modules x y = false ->
  mget (applyMaskToMatrix modules m pattern) x y = mget m x y.
Proof.
  intros Hfunction. unfold applyMaskToMatrix.
  apply (forZ_ind (fun m' => mget m' x y = mget m x y)); [done|].
  intros y' m1 _ Hm1.
  apply (forZ_ind (fun m' => mget m' x y = mget m x y)); [done|].
  intros x' m2 _ Hm2.
  destruct (isDataModule modules x' y') eqn:Hdata; simpl; [|done].
  destruct (shouldApplyMask x' y' pattern); [|done].
  rewrite mget_mset_other; [done|].
  intros [= -> ->]. congruence.
Qed.

(** C10: whatever the mask index, a module in row 6, in column 6 or inside
    one of the three corner regions of [isFinderPattern] is not a data
    module for the positional check, and mask application leaves it as it
    was; hence only data modules are inverted. *)
Theorem applyMask_leaves_function_modules
    (modules : Z) (m : QRMatrix) (pattern x y : Z) :
  y = 6 \/ x = 6 \/ isFinderPattern modules x y = true ->
  isDataModule modules x y = false /\
  mget (applyMaskToMatrix modules m pattern) x y = mget m x y /\
  mget (applyMask modules m pattern) x y = mget m x y.
Proof.
  intros Hwhere. apply isDataModule_false in Hwhere.
  split; [done|]. unfold applyMask. split; by apply applyMaskToMatrix_frame.
Qed.

Lemma applyMask_leaves_function_modules_witness :
  (10 = 6 \/ 6 = 6 \/ isFinderPattern 21 6 10 = true) /\
  mget (applyMaskToMatrix 21 (buildMatrix (lit "1") 1) 0) 6 10
  = mget (buildMatrix (lit "1") 1) 6 10.
Proof.
  split.
  - right; left; reflexivity.
  - exact (proj1 (proj2 (applyMask_leaves_function_modules
                           21 (buildMatrix (lit "1") 1) 0 6 10
                           (or_intror (or_introl eq_refl))))).
Defined.

(** Only data modules are inverted. *)
Corollary applyMask_inverts_data_modules_only
    (modules : Z) (m : QRMatrix) (pattern x y : Z) :
  mget (applyMaskToMatrix modules m pattern) x y <> mget m x y ->
  isDataModule modules x y = true.
Proof.
  intros Hchanged. destruct (isDataModule modules x y) eqn:Hdata; [done|].
  exfalso. apply Hchanged. by apply applyMaskToMatrix_frame.
Qed.

(* ================================================================== *)
(** ** The size of the matrix *)
(* ================================================================== *)

Lemma initializeMatrix_square (modules : Z) :
  0 <= modules -> square modules (initializeMatrix modules).
Proof.
  intros Hm. unfold initializeMatrix, square. split.
  - rewrite length_replicate. lia.
  - apply Forall_replicate. rewrite length_replicate. lia.
Qed.

Lemma addFinderPatterns_square (n modules : Z) (m : QRMatrix) :
  square n m -> square n (addFinderPatterns modules m).
Proof.
  intros Hm. unfold addFinderPatterns. simpl.
  unfold addFinderPattern. preserve_square.
Qed.

Lemma addSeparators_square (n modules : Z) (m : QRMatrix) :
  square n m -> square n (addSeparators modules m).
Proof.
  intros Hm. unfold addSeparators, addSeparator. preserve_square.
Qed.

Lemma addAlignmentPatterns_square (n version modules : Z) (m : QRMatrix) :
  square n m -> square n (addAlignmentPatterns version modules m).
Proof.
  intros Hm. unfold addAlignmentPatterns, getAlignmentPatternPositions.
  destruct (version <? 2); [done|].
  destruct (version =? 2); [|destruct (version >=? 3)]; simpl;
    unfold addAlignmentPattern; preserve_square.
Qed.

Lemma addTimingPatterns_square (n modules : Z) (m : QRMatrix) :
  square n m -> square n (addTimingPatterns modules m).
Proof. intros Hm. unfold addTimingPatterns. preserve_square. Qed.

Lemma addDarkModule_square (n version modules : Z) (m : QRMatrix) :
  square n m -> square n (addDarkModule version modules m).
Proof. intros Hm. unfold addDarkModule. preserve_square. Qed.

Lemma placeColumnPair_square (n modules : Z) (data : list Z) (col direction : Z)
    (st : QRMatrix * Z) :
  square n (fst st) -> square n (fst (placeColumnPair modules data col direction st)).
Proof.
  intros Hst. unfold placeColumnPair.
  apply (forZ_ind (fun st => square n (fst st))); [done|]. intros count st1 _ Hst1.
  apply (forZ_ind (fun st => square n (fst st))); [done|]. intros c [m2 i2] _ Hst2.
  unfold placeModule. simpl in *. destruct (isInBounds _ _ _ && _); [|done].
  destruct (i2 <? len data); simpl; by apply mset_square.
Qed.

Lemma placeDataModules_square (n modules : Z) (m : QRMatrix) (data : list Z) :
  square n m -> square n (placeDataModules modules m data).
Proof.
  intros Hm. unfold placeDataModules.
  generalize (modules - 1) (-1) (m, 0) (Hm : square n (fst (m, 0))).
  induction (Z.to_nat modules) as [|fuel IH]; intros col direction st Hst; simpl.
  - done.
  - destruct (col >? 0); [|done]. apply IH. by apply placeColumnPair_square.
Qed.

Lemma applyMaskToMatrix_square (n modules : Z) (m : QRMatrix) (pattern : Z) :
  square n m -> square n (applyMaskToMatrix modules m pattern).
Proof. intros Hm. unfold applyMaskToMatrix. preserve_square. Qed.

Create HintDb qr_square.
#[local] Hint Resolve mset_square initializeMatrix_square addFinderPatterns_square
  addSeparators_square addAlignmentPatterns_square addTimingPatterns_square
  addDarkModule_square placeDataModules_square applyMaskToMatrix_square : qr_square.

Lemma buildMatrix_square (data : jsstring) (version : Z) :
  0 <= getModuleCount version ->
  square (getModuleCount version) (buildMatrix data version).
Proof. intros Hn. unfold buildMatrix. auto 10 with qr_square. Qed.

(* ================================================================== *)
(** ** Version selection *)
(* ================================================================== *)

Section VersionSearch.

Variables (dataLength : Z) (level : ErrorCorrectionLevel.t) (mode : DataMode.t).

Let fits (v : Z) : Prop := dataLength <= getCapacity v level mode.

Lemma determineVersion_loop_returns (n : nat) (lo v : Z) :
  determineVersion_loop dataLength level mode (seqZ lo (Z.of_nat n)) = Returns v ->
  lo <= v < lo + Z.of_nat n /\ fits v /\ forall v', lo <= v' < v -> ~ fits v'.
Proof.
  revert lo. induction n as [|n IH]; intros lo.
  - rewrite seqZ_nil by lia. simpl. discriminate.
  - rewrite seqZ_cons by lia. simpl.
    replace (Z.pred (Z.of_nat (S n))) with (Z.of_nat n) by lia.
    destruct (dataLength <=? getCapacity lo level mode) eqn:Hlo.
    + intros [= <-]. apply Z.leb_le in Hlo. unfold fits. split; [lia|]. split; [done|lia].
    + intros Hrest. apply IH in Hrest as (Hrange & Hfits & Hleast).
      apply Z.leb_gt in Hlo. split; [lia|]. split; [done|].
      intros v' Hv'. destruct (decide (v' = lo)) as [->|]; [unfold fits; lia|].
      apply Hleast. lia.
Qed.

Lemma determineVersion_loop_none (n : nat) (lo : Z) :
  (forall v, lo <= v < lo + Z.of_nat n -> ~ fits v) ->
  determineVersion_loop dataLength level mode (seqZ lo (Z.of_nat n))
  = Throws "Data too long for QR code".
Proof.
  revert lo. induction n as [|n IH]; intros lo Hnone.
  - rewrite seqZ_nil by lia. reflexivity.
  - rewrite seqZ_cons by lia. simpl.
    replace (Z.pred (Z.of_nat (S n))) with (Z.of_nat n) by lia.
    destruct (dataLength <=? getCapacity lo level mode) eqn:Hlo.
    + apply Z.leb_le in Hlo. exfalso. apply (Hnone lo); [lia | exact Hlo].
    + apply IH. intros v Hv. apply Hnone. lia.
Qed.

Lemma determineVersion_loop_first (n : nat) (lo v : Z) :
  lo <= v < lo + Z.of_nat n ->
  fits v ->
  (forall v', lo <= v' < v -> ~ fits v') ->
  determineVersion_loop dataLength level mode (seqZ lo (Z.of_nat n)) = Returns v.
Proof.
  intros Hrange Hfits Hleast.
  destruct (determineVersion_loop dataLength level mode (seqZ lo (Z.of_nat n)))
    as [w|msg] eqn:Hloop.
  - apply determineVersion_loop_returns in Hloop as (Hw & Hwfits & Hwleast).
    f_equal. destruct (Z.lt_trichotomy v w) as [Hlt | [Heq | Hgt]]; [|done|].
    + exfalso. apply (Hwleast v); [lia | done].
    + exfalso. apply (Hleast w); [lia | done].
  - exfalso. clear Hleast. revert lo Hrange Hloop.
    induction n as [|n IH]; intros lo Hrange; [lia|].
    rewrite seqZ_cons by lia. simpl.
    replace (Z.pred (Z.of_nat (S n))) with (Z.of_nat n) by lia.
    destruct (dataLength <=? getCapacity lo level mode) eqn:Hlo; [discriminate|].
    apply Z.leb_gt in Hlo. apply IH.
    destruct (decide (v = lo)) as [->|]; [unfold fits in Hfits; lia | lia].
Qed.

End VersionSearch.

Lemma generate_resolved (data : jsstring) (level : ErrorCorrectionLevel.t)
    (forced maskPattern : option Z) (v : Z) :
  match truthy forced with
  | Some v' => Returns v'
  | None => determineVersion data level
  end = Returns v ->
  data <> [] ->
  1 <= v <= 40 ->
  generate data level forced maskPattern
  = Returns (mkGenerated
               (applyMask (getModuleCount v) (buildMatrix data v)
                  (chosenMask (getModuleCount v) (buildMatrix data v) maskPattern))
               v level
               (chosenMask (getModuleCount v) (buildMatrix data v) maskPattern)
               (getModuleCount v)).
Proof.
  intros Hv Hne Hrange. unfold generate. rewrite Hv.
  unfold mbind, outcome_bind, validateInput.
  rewrite bool_decide_eq_false_2 by done.
  unfold VALIDATION.MIN_VERSION, VALIDATION.MAX_VERSION.
  replace ((v <? 1) || (v >? 40)) with false by lia.
  unfold addFormatInfo, addVersionInfo, chosenMask.
  destruct (v >=? 7); [destruct (v <? 7)|]; reflexivity.
Qed.

(** With no forced version and a non-empty payload, [generate] returns a
    square matrix of side [17 + 4 * version] for the smallest version of
    1..40 for which [getCapacity] accommodates the payload length; it
    returns whenever some version does, and throws when none does. *)
Lemma generate_least_capacity
    (data : jsstring) (level : ErrorCorrectionLevel.t) (maskPattern : option Z) :
  data <> [] ->
  let capacity v := getCapacity v level (detectDataMode data) in
  (forall g, generate data level None maskPattern = Returns g ->
     modules g = 17 + 4 * version g /\
     square (17 + 4 * version g) (matrix g) /\
     1 <= version g <= 40 /\
     len data <= capacity (version g) /\
     (forall v', 1 <= v' < version g -> capacity v' < len data)) /\
  (forall v, 1 <= v <= 40 -> len data <= capacity v ->
     exists g, generate data level None maskPattern = Returns g /\ version g <= v) /\
  ((forall v, 1 <= v <= 40 -> capacity v < len data) ->
     generate data level None maskPattern = Throws "Data too long for QR code").
Proof.
  intros Hne capacity.
  assert (Hreturns : forall v, determineVersion data level = Returns v ->
            generate data level None maskPattern
            = Returns (mkGenerated
               (applyMask (getModuleCount v) (buildMatrix data v)
                  (chosenMask (getModuleCount v) (buildMatrix data v) maskPattern))
               v level
               (chosenMask (getModuleCount v) (buildMatrix data v) maskPattern)
               (getModuleCount v)) /\
            1 <= v <= 40 /\ len data <= capacity v /\
            (forall v', 1 <= v' < v -> capacity v' < len data)).
  { intros v Hv. pose proof Hv as Hloop. unfold determineVersion in Hloop.
    apply (determineVersion_loop_returns _ _ _ 40 1 v) in Hloop
      as (Hrange & Hfits & Hleast).
    split; [apply generate_resolved; [exact Hv | done | lia]|].
    split; [lia|]. split; [exact Hfits|].
    intros v' Hv'. specialize (Hleast v' Hv'). unfold capacity. lia. }
  split; [|split].
  - intros g Hg.
    destruct (determineVersion data level) as [v|msg] eqn:Hv.
    + destruct (Hreturns v eq_refl) as (Hgen & Hrange & Hfits & Hleast).
      rewrite Hgen in Hg. injection Hg as <-. simpl.
      split; [reflexivity|]. split; [|done].
      unfold applyMask. apply applyMaskToMatrix_square.
      apply (buildMatrix_square data v). unfold getModuleCount. lia.
    + unfold generate in Hg. simpl in Hg. rewrite Hv in Hg. discriminate.
  - intros v Hrange Hfits.
    destruct (determineVersion data level) as [w|msg] eqn:Hw.
    + destruct (Hreturns w eq_refl) as (Hgen & Hwrange & Hwfits & Hleast).
      eexists. split; [exact Hgen|]. simpl.
      destruct (Z.le_gt_cases w v) as [|Hgt]; [done|].
      specialize (Hleast v ltac:(lia)). lia.
    + exfalso. unfold determineVersion in Hw.
      destruct (Z.le_gt_cases (len data) (capacity 1)) as [H1 | H1].
      * rewrite (determineVersion_loop_first _ _ _ 40 1 1) in Hw;
          [discriminate | lia | exact H1 | intros; lia].
      * assert (Hex : exists k : nat, v = 1 + Z.of_nat k) by (exists (Z.to_nat (v - 1)); lia).
        destruct Hex as [k ->].
        assert (Hsearch : forall j : nat, (j <= k)%nat ->
                  (forall v', 1 <= v' <= Z.of_nat j -> capacity v' < len data) ->
                  False).
        { intros j. remember (k - j)%nat as d eqn:Hd. revert j Hd.
          induction d as [|d IH]; intros j Hd Hj Hbelow.
          - destruct (decide (j = k)) as [->|]; [|lia].
            rewrite (determineVersion_loop_first _ _ _ 40 1 (1 + Z.of_nat k)) in Hw;
              [discriminate | lia | exact Hfits |].
            intros v' Hv'. specialize (Hbelow v' ltac:(lia)). unfold capacity in Hbelow. lia.
          - destruct (Z.le_gt_cases (len data) (capacity (1 + Z.of_nat j))) as [Hj1 | Hj1].
            + rewrite (determineVersion_loop_first _ _ _ 40 1 (1 + Z.of_nat j)) in Hw;
                [discriminate | lia | exact Hj1 |].
              intros v' Hv'. specialize (Hbelow v' ltac:(lia)).
              unfold capacity in Hbelow. lia.
            + apply (IH (S j)); [lia | lia |].
              intros v' Hv'. destruct (decide (v' = 1 + Z.of_nat j)) as [->|]; [done|].
              apply Hbelow. lia. }
        apply (Hsearch 0%nat); [lia|]. intros v' Hv'. lia.
  - intros Hnone. unfold generate. simpl. unfold determineVersion.
    rewrite (determineVersion_loop_none _ _ _ 40 1); [reflexivity|].
    intros v Hv. specialize (Hnone v ltac:(lia)). unfold capacity in Hnone. lia.
Qed.

Lemma generate_inv (data : jsstring) (level : ErrorCorrectionLevel.t)
    (forced maskPattern : option Z) (g : generated) :
  generate data level forced maskPattern = Returns g ->
  data <> [] /\ 1 <= version g <= 40 /\
  g = mkGenerated
        (applyMask (getModuleCount (version g)) (buildMatrix data (version g))
           (chosenMask (getModuleCount (version g)) (buildMatrix data (version g))
              maskPattern))
        (version g) level
        (chosenMask (getModuleCount (version g)) (buildMatrix data (version g))
           maskPattern)
        (getModuleCount (version g)).
Proof.
  intros Hg. pose proof Hg as Hg'. unfold generate in Hg'.
  destruct (match truthy forced with
            | Some v => Returns v
            | None => determineVersion data level
            end) as [v|msg] eqn:Hv; [|discriminate].
  unfold mbind, outcome_bind, validateInput in Hg'.
  destruct (bool_decide (data = [])) eqn:Hdata; [discriminate|].
  apply bool_decide_eq_false in Hdata.
  destruct ((v <? VALIDATION.MIN_VERSION) || (v >? VALIDATION.MAX_VERSION)) eqn:Hrange;
    [discriminate|].
  unfold VALIDATION.MIN_VERSION, VALIDATION.MAX_VERSION in Hrange.
  assert (Hv' : 1 <= v <= 40) by lia.
  rewrite (generate_resolved data level forced maskPattern v Hv Hdata Hv') in Hg.
  injection Hg as <-. simpl. done.
Qed.

(* ================================================================== *)
(** ** Mask selection *)
(* ================================================================== *)

Section MaskSelection.

Variables (modules : Z) (m : QRMatrix).

Let penalty (p : Z) : Z :=
  calculateMaskPenalty modules (applyMaskToMatrix modules m p).

(** The state of the loop of [selectBestMaskPattern] after the candidates
    [0..n]: the best one so far with its penalty, which no candidate
    undercuts and no earlier candidate equals. *)
Lemma selectBestMaskPattern_loop (n : nat) (b0 : Z) :
  let st := forZ 0 (Z.of_nat (S n)) (selectStep modules m) (b0, None) in
  snd st = Some (penalty (fst st)) /\
  0 <= fst st <= Z.of_nat n /\
  forall p, 0 <= p <= Z.of_nat n ->
    penalty (fst st) <= penalty p /\ (p < fst st -> penalty (fst st) < penalty p).
Proof.
  induction n as [|n IH].
  - change (Z.of_nat 1) with (0 + 1). rewrite forZ_snoc by lia.
    rewrite forZ_empty by lia. unfold selectStep. simpl.
    split; [reflexivity|]. split; [lia|].
    intros p Hp. assert (p = 0) as -> by lia. lia.
  - replace (Z.of_nat (S (S n))) with (Z.of_nat (S n) + 1) by lia.
    rewrite forZ_snoc by lia.
    destruct (forZ 0 (Z.of_nat (S n)) (selectStep modules m) (b0, None))
      as [best lowest] eqn:Hloop.
    simpl in IH. destruct IH as (-> & Hbest & Hleast).
    unfold selectStep. simpl. fold (penalty (Z.of_nat (S n))).
    destruct (penalty (Z.of_nat (S n)) <? penalty best) eqn:Hlt; simpl.
    + apply Z.ltb_lt in Hlt. split; [reflexivity|]. split; [lia|].
      intros p Hp. destruct (decide (p = Z.of_nat (S n))) as [->|Hne]; [lia|].
      destruct (Hleast p) as [Hle _]; lia.
    + apply Z.ltb_ge in Hlt. split; [reflexivity|]. split; [lia|].
      intros p Hp. destruct (decide (p = Z.of_nat (S n))) as [->|Hne]; [lia|].
      apply Hleast. lia.
Qed.

End MaskSelection.

(** C6, as the claim words it, at the payload ["kqggcllnfcifick"], level L,
    nothing forced (version 2, 625 modules): the code selects mask 3, whose
    trial matrix has the lowest penalty under the two rules it computes (738
    against 742 for mask 0), but not under the four rules.  Neither trial
    matrix holds a 1:1:3:1:1 sequence, with a margin or without, so rule 3
    adds nothing to either; the dark modules are 181 for mask 3 and 233 for
    mask 0, 21% and 12% away from one half, so rule 4 adds 40 and 20: 778
    against 762 for mask 0. *)
Lemma four_rules_prefer_another_mask :
  exists g, generate (lit "kqggcllnfcifick") L None None = Returns g /\
    maskPattern g = 3 /\
    modules g * modules g = 625 /\
    let trial p := applyMaskToMatrix (modules g)
                     (buildMatrix (lit "kqggcllnfcifick") (version g)) p in
    calculateMaskPenalty (modules g) (trial 3) = 738 /\
    calculateMaskPenalty (modules g) (trial 0) = 742 /\
    Spec.finderRuns (modules g) (trial 3) = 0 /\
    Spec.finderRuns (modules g) (trial 0) = 0 /\
    Spec.penaltyRule3 (modules g) (trial 3) = 0 /\
    Spec.penaltyRule3 (modules g) (trial 0) = 0 /\
    Spec.darkModules (modules g) (trial 3) = 181 /\
    Spec.darkModules (modules g) (trial 0) = 233 /\
    Spec.penaltyRule4 (modules g) (trial 3) = 40 /\
    Spec.penaltyRule4 (modules g) (trial 0) = 20 /\
    Spec.fourRulePenalty (modules g) (trial 3) = 778 /\
    Spec.fourRulePenalty (modules g) (trial 0) = 762 /\
    ~ (forall p, 0 <= p <= 7 ->
         Spec.fourRulePenalty (modules g) (trial (maskPattern g))
         <= Spec.fourRulePenalty (modules g) (trial p)).
Proof.
  eexists. split; [vm_compute; reflexivity|]. split; [reflexivity|].
  split; [reflexivity|].
  cbv zeta. repeat (split; [vm_compute; reflexivity|]).
  intros Hall. specialize (Hall 0 ltac:(lia)).
  vm_compute in Hall. apply Hall. reflexivity.
Qed.

(** C6 (amended): when no mask is forced, the selected mask index is the
    one whose masked trial matrix has the lowest penalty under the two rules
    that [calculateMaskPenalty] computes (runs of five or more modules of
    one colour, uniform 2x2 blocks); among the candidates 0..7 no other
    reaches a lower penalty and no lower index reaches the same, and the
    returned matrix is that trial matrix. *)
Theorem selected_mask_has_lowest_penalty
    (data : jsstring) (level : ErrorCorrectionLevel.t) (forced : option Z)
    (g : generated) :
  generate data level forced None = Returns g ->
  let trial p := applyMaskToMatrix (modules g) (buildMatrix data (version g)) p in
  let penalty p := calculateAdjacentPenalty (modules g) (trial p)
                   + calculateBlockPenalty (modules g) (trial p) in
  maskPattern g = selectBestMaskPattern (modules g) (buildMatrix data (version g)) /\
  matrix g = trial (maskPattern g) /\
  0 <= maskPattern g <= 7 /\
  forall p, 0 <= p <= 7 ->
    penalty (maskPattern g) <= penalty p /\
    (p < maskPattern g -> penalty (maskPattern g) < penalty p).
Proof.
  intros Hg trial penalty.
  apply generate_inv in Hg as (_ & _ & Hg).
  pose proof (selectBestMaskPattern_loop (getModuleCount (version g))
                (buildMatrix data (version g)) 7 0) as Hloop.
  cbv zeta in Hloop. destruct Hloop as (_ & Hrange & Hleast).
  change (Z.of_nat 8) with 8 in *. change (Z.of_nat 7) with 7 in *.
  fold (selectBestMaskPattern (getModuleCount (version g))
          (buildMatrix data (version g))) in Hrange, Hleast.
  assert (Hmodules : modules g = getModuleCount (version g)) by (rewrite Hg; reflexivity).
  assert (Hmask : maskPattern g
                  = selectBestMaskPattern (getModuleCount (version g))
                      (buildMatrix data (version g))) by (rewrite Hg; reflexivity).
  assert (Hmatrix : matrix g
                    = applyMaskToMatrix (getModuleCount (version g))
                        (buildMatrix data (version g)) (maskPattern g)).
  { rewrite Hmask. rewrite Hg at 1. reflexivity. }
  subst trial penalty. cbv beta. rewrite Hmodules.
  split; [exact Hmask|]. split; [exact Hmatrix|]. rewrite Hmask.
  split; [exact Hrange|].
  intros p Hp. specialize (Hleast p Hp).
  unfold calculateMaskPenalty in Hleast. simpl in Hleast. exact Hleast.
Qed.

Lemma selected_mask_has_lowest_penalty_witness :
  exists g, generate (lit "AKR") Q None None = Returns g /\
            0 <= maskPattern g <= 7.
Proof.
  destruct (generate (lit "AKR") Q None None) as [g|msg] eqn:Hg.
  - exists g. split; [reflexivity|].
    exact (proj1 (proj2 (proj2
             (selected_mask_has_lowest_penalty (lit "AKR") Q None g Hg)))).
  - vm_compute in Hg. discriminate.
Defined.

(* ================================================================== *)
(** ** Bits *)
(* ================================================================== *)

Lemma toBits_length (num bitCount : Z) :
  length (toBits num bitCount) = Z.to_nat bitCount.
Proof. unfold toBits. by rewrite length_map, length_reverse, length_seqZ. Qed.

Lemma toInt32_small (z : Z) : 0 <= z < 2 ^ 31 -> toInt32 z = z.
Proof. intros Hz. unfold toInt32. rewrite Z.mod_small; lia. Qed.

(** One bit of a non-negative 31-bit number, as [toBits] extracts it. *)
Lemma toBits_bit (num i : Z) :
  0 <= num < 2 ^ 31 -> 0 <= i < 32 ->
  band (sar num i) 1 = (num / 2 ^ i) mod 2.
Proof.
  intros Hnum Hi. unfold band, sar.
  rewrite (toInt32_small num) by done.
  change 31 with (Z.ones 5). rewrite Z.land_ones by lia.
  rewrite (Z.mod_small i) by (change (2 ^ 5) with 32; lia).
  rewrite Z.shiftr_div_pow2 by lia.
  assert (Hq : 0 <= num / 2 ^ i < 2 ^ 31).
  { split; [apply Z.div_pos; lia|].
    apply Z.div_lt_upper_bound; [lia|].
    assert (1 <= 2 ^ i) by lia. nia. }
  rewrite (toInt32_small (num / 2 ^ i)) by done.
  change (toInt32 1) with (Z.ones 1). rewrite Z.land_ones by lia. done.
Qed.

(** On such numbers [toBits] writes the binary numeral of the spec. *)
Lemma toBits_binary (num : Z) (width : nat) :
  0 <= num < 2 ^ 31 -> (width <= 32)%nat ->
  toBits num (Z.of_nat width) = Spec.binary width num.
Proof.
  intros Hnum. unfold toBits. induction width as [|w IH]; intros Hw.
  - reflexivity.
  - rewrite seqZ_S, reverse_snoc. simpl. f_equal.
    + rewrite Z.add_0_l. apply toBits_bit; [done | lia].
    + apply IH. lia.
Qed.

Lemma binary_length (width : nat) (value : Z) :
  length (Spec.binary width value) = width.
Proof. induction width; simpl; congruence. Qed.

(* ================================================================== *)
(** ** Numeric packing *)
(* ================================================================== *)

Lemma isWhiteSpace_digit (c : Z) : isDigit c = true -> isWhiteSpace c = false.
Proof.
  unfold isDigit, isWhiteSpace. intros Hc. simpl.
  repeat match goal with
         | |- context [c =? ?k] => replace (c =? k) with false by lia
         end.
  simpl. lia.
Qed.

(** [parseInt] on a group of one to three digits. *)
Lemma parseInt_digits (group : jsstring) :
  group <> [] -> (length group <= 3)%nat -> Forall Spec.decimalDigit group ->
  parseInt group = Some (foldl (fun acc c => 10 * acc + Spec.digit c) 0 group).
Proof.
  intros Hne Hlen Hdigits.
  assert (Hd : Forall (fun c => isDigit c = true) group).
  { eapply Forall_impl; [exact Hdigits|]. intros c Hc. by apply isDigit_spec. }
  destruct group as [|d1 group]; [done|].
  apply Forall_cons in Hd as [Hd1 Hd].
  pose proof (isWhiteSpace_digit d1 Hd1) as Hw1.
  assert (H45 : (d1 =? 45) = false) by (unfold isDigit in Hd1; lia).
  assert (H43 : (d1 =? 43) = false) by (unfold isDigit in Hd1; lia).
  unfold parseInt. simpl. rewrite Hw1, H45, H43. simpl. rewrite Hd1.
  f_equal. unfold Spec.digit.
  destruct group as [|d2 group]; [simpl; lia|].
  apply Forall_cons in Hd as [Hd2 Hd]. simpl. rewrite Hd2.
  destruct group as [|d3 group]; [simpl; lia|].
  apply Forall_cons in Hd as [Hd3 Hd]. simpl. rewrite Hd3.
  destruct group as [|d4 group]; [simpl; lia|].
  simpl in Hlen. lia.
Qed.

Lemma digit_range (c : Z) : Spec.decimalDigit c -> 0 <= Spec.digit c <= 9.
Proof. unfold Spec.decimalDigit, Spec.digit. lia. Qed.

(** The loop of [encodeNumeric] from index [i] packs the digits from [i]
    on as the spec says, given fuel for every remaining character. *)
Lemma encodeNumeric_loop_spec (fuel : nat) (data : jsstring) (i : Z) (bits : list Z) :
  0 <= i ->
  Forall Spec.decimalDigit (drop (Z.to_nat i) data) ->
  (length (drop (Z.to_nat i) data) <= fuel)%nat ->
  encodeNumeric_loop fuel data i bits
  = bits ++ Spec.packNumeric (drop (Z.to_nat i) data).
Proof.
  revert i bits. induction fuel as [|fuel IH]; intros i bits Hi Hdigits Hfuel.
  - destruct (drop (Z.to_nat i) data); simpl in *; [by rewrite app_nil_r | lia].
  - simpl.
    assert (Hnext : drop (Z.to_nat (i + 3)) data = drop 3 (drop (Z.to_nat i) data)).
    { rewrite drop_drop. f_equal. lia. }
    assert (Hlen : Z.of_nat (length (drop (Z.to_nat i) data)) = Z.max 0 (len data - i)).
    { rewrite length_drop. unfold len. lia. }
    unfold substr. change (Z.to_nat 3) with 3%nat.
    destruct (drop (Z.to_nat i) data) as [|d1 rest] eqn:Hsuffix.
    { simpl in Hlen. replace (i <? len data) with false by lia. by rewrite app_nil_r. }
    simpl length in Hlen. replace (i <? len data) with true by lia.
    assert (Hgroup : forall group : jsstring,
              group <> [] -> (length group <= 3)%nat -> Forall Spec.decimalDigit group ->
              forall width : Z, 0 <= width <= 32 ->
              toBitsNum (parseInt group) width
              = Spec.binary (Z.to_nat width)
                  (foldl (fun acc c => 10 * acc + Spec.digit c) 0 group)).
    { intros group Hne Hshort Hd width Hwidth.
      rewrite parseInt_digits by done. unfold toBitsNum, default.
      rewrite <- (Z2Nat.id width) at 1 by lia. apply toBits_binary; [|lia].
      destruct group as [|c1 [|c2 [|c3 [|c4 group]]]]; [done| | | |simpl in Hshort; lia].
      - apply Forall_cons in Hd as [H1 _]. apply digit_range in H1. simpl. lia.
      - apply Forall_cons in Hd as [H1 Hd]. apply Forall_cons in Hd as [H2 _].
        apply digit_range in H1, H2. simpl. lia.
      - apply Forall_cons in Hd as [H1 Hd]. apply Forall_cons in Hd as [H2 Hd].
        apply Forall_cons in Hd as [H3 _].
        apply digit_range in H1, H2, H3. simpl. lia. }
    destruct rest as [|d2 [|d3 rest]].
    + (* one digit left *)
      simpl take. unfold len at 1 2. simpl length. simpl Z.eqb.
      rewrite (IH (i + 3)); [|lia| |]; rewrite ?Hnext; simpl; [|constructor|lia].
      rewrite app_nil_r. f_equal.
      rewrite (Hgroup [d1] ltac:(done) ltac:(simpl; lia) Hdigits 4 ltac:(lia)).
      simpl foldl. replace (10 * 0 + Spec.digit d1) with (Spec.digit d1) by lia.
      reflexivity.
    + (* two digits left *)
      simpl take. unfold len at 1 2. simpl length. simpl Z.eqb.
      rewrite (IH (i + 3)); [|lia| |]; rewrite ?Hnext; simpl; [|constructor|lia].
      rewrite app_nil_r. f_equal.
      rewrite (Hgroup [d1; d2] ltac:(done) ltac:(simpl; lia) Hdigits 7 ltac:(lia)).
      simpl foldl.
      replace (10 * (10 * 0 + Spec.digit d1) + Spec.digit d2)
        with (10 * Spec.digit d1 + Spec.digit d2) by lia.
      reflexivity.
    + (* a full group of three *)
      simpl take. unfold len at 1. simpl length. simpl Z.eqb.
      apply Forall_cons in Hdigits as [H1 Hdigits].
      apply Forall_cons in Hdigits as [H2 Hdigits].
      apply Forall_cons in Hdigits as [H3 Hdigits].
      rewrite (IH (i + 3));
        [ | lia | rewrite Hnext; exact Hdigits
          | rewrite Hnext; change (drop 3 (d1 :: d2 :: d3 :: rest)) with rest;
            simpl in Hfuel; lia ].
      rewrite Hnext. change (drop 3 (d1 :: d2 :: d3 :: rest)) with rest.
      rewrite <- app_assoc. f_equal.
      change (Spec.packNumeric (d1 :: d2 :: d3 :: rest))
        with (Spec.binary 10 (100 * Spec.digit d1 + 10 * Spec.digit d2 + Spec.digit d3)
              ++ Spec.packNumeric rest).
      f_equal.
      assert (Hthree : Forall Spec.decimalDigit [d1; d2; d3])
        by (repeat (apply Forall_cons_2; [assumption|]); apply Forall_nil_2).
      rewrite take_0.
      rewrite (Hgroup [d1; d2; d3] ltac:(done) ltac:(simpl; lia) Hthree 10 ltac:(lia)).
      simpl foldl.
      replace (10 * (10 * (10 * 0 + Spec.digit d1) + Spec.digit d2) + Spec.digit d3)
        with (100 * Spec.digit d1 + 10 * Spec.digit d2 + Spec.digit d3) by lia.
      reflexivity.
Qed.

Lemma encodeNumeric_packs (data : jsstring) :
  Forall Spec.decimalDigit data -> encodeNumeric data = Spec.packNumeric data.
Proof.
  intros Hdigits. unfold encodeNumeric.
  rewrite encodeNumeric_loop_spec; simpl; done.
Qed.

Lemma packNumeric_length_bound (n : nat) (digits : jsstring) :
  (length digits <= n)%nat ->
  Z.of_nat (length (Spec.packNumeric digits)) = Spec.packedBits NUMERIC (len digits).
Proof.
  revert digits. induction n as [|n IH]; intros digits Hn.
  - destruct digits; [reflexivity | simpl in Hn; lia].
  - destruct digits as [|d1 [|d2 [|d3 rest]]]; [reflexivity..|].
    change (Spec.packNumeric (d1 :: d2 :: d3 :: rest))
      with (Spec.binary 10 (100 * Spec.digit d1 + 10 * Spec.digit d2 + Spec.digit d3)
            ++ Spec.packNumeric rest).
    rewrite length_app, binary_length, Nat2Z.inj_add.
    assert (Hrest8 : (length rest <= n)%nat) by (simpl in Hn; lia).
    pose proof (IH rest Hrest8) as Hrest.
    rewrite Hrest. unfold Spec.packedBits, len. simpl length.
    replace (Z.of_nat (S (S (S (length rest))))) with (Z.of_nat (length rest) + 1 * 3) by lia.
    rewrite Z.div_add, Z.mod_add by lia. lia.
Qed.

Lemma packNumeric_length (digits : jsstring) :
  Z.of_nat (length (Spec.packNumeric digits)) = Spec.packedBits NUMERIC (len digits).
Proof. by apply (packNumeric_length_bound (length digits)). Qed.

(** C7: on a digit string, [encodeNumeric] is the packing of the spec:
    each group of three digits is written as the 10-bit numeral of its
    value, a remainder of two digits on 7 bits, a remainder of one digit on
    4 bits; the number of bits follows, and ["12345"] packs to the 17 bits
    of 123 (10 bits) and 45 (7 bits). *)
Theorem encodeNumeric_packing (data : jsstring) :
  Forall Spec.decimalDigit data ->
  encodeNumeric data = Spec.packNumeric data /\
  Z.of_nat (length (encodeNumeric data))
  = 10 * (len data / 3)
    + (if len data mod 3 =? 1 then 4 else if len data mod 3 =? 2 then 7 else 0) /\
  encodeNumeric (lit "12345") = Spec.binary 10 123 ++ Spec.binary 7 45 /\
  length (encodeNumeric (lit "12345")) = 17%nat.
Proof.
  intros Hdigits. split; [by apply encodeNumeric_packs|]. split.
  - rewrite encodeNumeric_packs by done. apply packNumeric_length.
  - split; reflexivity.
Qed.

Lemma encodeNumeric_packing_witness :
  Forall Spec.decimalDigit (lit "2024") /\
  encodeNumeric (lit "2024") = Spec.packNumeric (lit "2024").
Proof.
  assert (Hdigits : Forall Spec.decimalDigit (lit "2024")).
  { change (lit "2024") with [50; 48; 50; 52].
    repeat (apply Forall_cons_2; [unfold Spec.decimalDigit; lia|]).
    apply Forall_nil_2. }
  split; [exact Hdigits|].
  exact (proj1 (encodeNumeric_packing (lit "2024") Hdigits)).
Defined.

(* ================================================================== *)
(** ** The bitstream encoder *)
(* ================================================================== *)

Lemma encodeAlphanumeric_loop_length (fuel : nat) (data : jsstring) (i : Z)
    (bits : list Z) :
  0 <= i ->
  (Z.to_nat (len data - i) <= fuel)%nat ->
  Z.of_nat (length (encodeAlphanumeric_loop fuel data i bits))
  = Z.of_nat (length bits) + Spec.packedBits ALPHANUMERIC (Z.max 0 (len data - i)).
Proof.
  revert i bits. induction fuel as [|fuel IH]; intros i bits Hi Hfuel.
  - replace (Z.max 0 (len data - i)) with 0 by lia.
    change (Spec.packedBits ALPHANUMERIC 0) with 0. simpl. lia.
  - cbn [encodeAlphanumeric_loop]. destruct (i <? len data) eqn:Hmore.
    + rewrite IH by lia.
      destruct (i + 1 <? len data) eqn:Hpair;
        rewrite length_app, toBits_length, Nat2Z.inj_add; simpl Z.to_nat.
      * replace (Z.max 0 (len data - i)) with (Z.max 0 (len data - (i + 2)) + 1 * 2) by lia.
        unfold Spec.packedBits. rewrite Z.div_add, Z.mod_add by lia. lia.
      * replace (Z.max 0 (len data - i)) with 1 by lia.
        replace (Z.max 0 (len data - (i + 2))) with 0 by lia.
        change (Spec.packedBits ALPHANUMERIC 0) with 0.
        change (Spec.packedBits ALPHANUMERIC 1) with 6. lia.
    + replace (Z.max 0 (len data - i)) with 0 by lia.
      change (Spec.packedBits ALPHANUMERIC 0) with 0. lia.
Qed.

Lemma encodeAlphanumeric_length (data : jsstring) :
  Z.of_nat (length (encodeAlphanumeric data))
  = Spec.packedBits ALPHANUMERIC (len data).
Proof.
  unfold encodeAlphanumeric.
  rewrite encodeAlphanumeric_loop_length by (unfold len; lia).
  simpl length. replace (Z.max 0 (len data - 0)) with (len data) by (unfold len; lia).
  lia.
Qed.

Lemma encodeByte_length (data : jsstring) :
  Z.of_nat (length (encodeByte data)) = Spec.packedBits BYTE (len data).
Proof.
  unfold encodeByte, len. simpl Spec.packedBits.
  induction (length data) as [|k IH].
  - reflexivity.
  - replace (Z.of_nat (S k)) with (Z.of_nat k + 1) by lia.
    rewrite forZ_snoc by lia.
    rewrite length_app, toBits_length, Nat2Z.inj_add, IH. simpl Z.to_nat. lia.
Qed.

Lemma encodeNumeric_length (data : jsstring) :
  detectDataMode data = NUMERIC ->
  Z.of_nat (length (encodeNumeric data)) = Spec.packedBits NUMERIC (len data).
Proof.
  intros Hmode. apply detectDataMode_numeric in Hmode as [_ Hdigits].
  rewrite encodeNumeric_packs by done. apply packNumeric_length.
Qed.

(** C5, as the claim words it, at the payload ["1"] (numeric, version 1 at
    level L, whose data capacity is 152 bits, 19 codewords): the encoder's
    output is the 4 + 10 + 4 = 18 header and payload bits and nothing else,
    neither 19 codewords nor 152 bits, with no terminator after the payload
    and no padding to a codeword boundary. *)
Lemma encodeData_is_not_padded :
  determineVersion (lit "1") L = Returns 1 /\
  VERSION_SPECS_capacity 1 L = Some 152 /\
  encodeData (lit "1")
  = [0; 0; 0; 1] ++ [0; 0; 0; 0; 0; 0; 0; 0; 0; 1] ++ encodeNumeric (lit "1") /\
  encodeNumeric (lit "1") = [0; 0; 0; 1] /\
  Z.of_nat (length (encodeData (lit "1"))) = 18 /\
  Z.of_nat (length (encodeData (lit "1"))) mod 8 <> 0 /\
  Z.of_nat (length (encodeData (lit "1"))) <> 152 / 8 /\
  Z.of_nat (length (encodeData (lit "1"))) <> 152.
Proof. repeat split; vm_compute; congruence. Qed.

Lemma encodeData_unfold (data : jsstring) :
  encodeData data
  = toBits (DataMode.value (detectDataMode data)) 4
    ++ toBits (len data) (getCharCountBits (detectDataMode data))
    ++ packedPayload data.
Proof.
  unfold encodeData, packedPayload.
  destruct (detectDataMode data); rewrite <- ?app_assoc, ?app_nil_r; reflexivity.
Qed.

Lemma packedPayload_length (data : jsstring) :
  Z.of_nat (length (packedPayload data))
  = Spec.packedBits (detectDataMode data) (len data).
Proof.
  unfold packedPayload. destruct (detectDataMode data) eqn:Hmode.
  - by apply encodeNumeric_length.
  - apply encodeAlphanumeric_length.
  - apply encodeByte_length.
  - by apply detectDataMode_not_kanji in Hmode.
Qed.

(** C5 (amended): for every payload the bitstream encoder outputs, as a
    list of bits, the 4-bit mode indicator, the character count on 10, 9 or
    8 bits (numeric, alphanumeric, byte) and the packed payload bits, and
    nothing after them: no terminator, no padding to a codeword boundary,
    no 0xEC/0x11 pad bytes.  Its length is 4 + count bits + payload bits. *)
Theorem encodeData_layout (data : jsstring) :
  let mode := detectDataMode data in
  encodeData data
  = toBits (DataMode.value mode) 4
    ++ toBits (len data) (getCharCountBits mode)
    ++ packedPayload data /\
  Z.of_nat (length (packedPayload data)) = Spec.packedBits mode (len data) /\
  Z.of_nat (length (encodeData data))
  = 4 + getCharCountBits mode + Spec.packedBits mode (len data).
Proof.
  intros mode. subst mode.
  split; [apply encodeData_unfold|]. split; [apply packedPayload_length|].
  rewrite encodeData_unfold, !length_app, !toBits_length, !Nat2Z.inj_add.
  rewrite packedPayload_length.
  destruct (detectDataMode data); simpl; lia.
Qed.

(* ================================================================== *)
(** ** What the error-correction stage returns *)
(* ================================================================== *)

(** C1, as the claim words it, at the payload ["1"]: the stage's output is
    not longer than its input. *)
Lemma addErrorCorrection_not_longer :
  length (addErrorCorrection (encodeData (lit "1"))) = 18%nat /\
  ~ (length (encodeData (lit "1"))
     < length (addErrorCorrection (encodeData (lit "1"))))%nat.
Proof. split; [reflexivity|]. vm_compute. lia. Qed.

(** C1 (amended): the error-correction stage returns a copy of its input,
    the bit sequence of the bitstream encoder: the same elements, of the
    same length 4 + count bits + payload bits, with no error-correction
    codeword added. *)
Theorem addErrorCorrection_copies (payload : jsstring) :
  let mode := detectDataMode payload in
  (forall data : list Z, addErrorCorrection data = data) /\
  addErrorCorrection (encodeData payload)
  = toBits (DataMode.value mode) 4
    ++ toBits (len payload) (getCharCountBits mode)
    ++ packedPayload payload /\
  Z.of_nat (length (addErrorCorrection (encodeData payload)))
  = Z.of_nat (length (encodeData payload)) /\
  Z.of_nat (length (addErrorCorrection (encodeData payload)))
  = 4 + getCharCountBits mode + Spec.packedBits mode (len payload).
Proof.
  intros mode. subst mode. split; [reflexivity|]. unfold addErrorCorrection.
  split; [apply encodeData_unfold|]. split; [reflexivity|].
  rewrite encodeData_unfold, !length_app, !toBits_length, !Nat2Z.inj_add.
  rewrite packedPayload_length.
  destruct (detectDataMode payload); simpl; lia.
Qed.

(* ================================================================== *)
(** ** A forced mask pattern through the facade *)
(* ================================================================== *)

Section ForcedMask.

Context {Rest RestInternal Format Rendered Size : Type}.
Variable validateRest : Rest -> ValidationUtils.ValidationResult.
Variable mergeRest : Rest -> RestInternal.
Variable renderMatrix :
  QRMatrix -> Format -> Options.QRCodeOptionsInternal RestInternal -> outcome Rendered.
Variable calculateOutputSize :
  Options.QRCodeOptionsInternal RestInternal -> Format -> Z -> Size.

Lemma validateInput_mask_in_range (payload : jsstring) (options : Options.QRCodeOptions Rest)
    (p : Z) :
  0 <= p <= 7 ->
  ValidationUtils.validateInput validateRest payload (Options.withMaskPattern options (Some p))
  = ValidationUtils.validateInput validateRest payload (Options.withMaskPattern options None).
Proof.
  intros Hp.
  unfold ValidationUtils.validateInput, ValidationUtils.validateOptions,
    ValidationUtils.validateCapacity, Options.withMaskPattern. simpl.
  unfold ValidationUtils.validateMaskPattern,
    VALIDATION.MIN_MASK_PATTERN, VALIDATION.MAX_MASK_PATTERN.
  replace ((p <? 0) || (p >? 7)) with false by lia. reflexivity.
Qed.

Lemma mergeOptions_mask (options : Options.QRCodeOptions Rest) (p : option Z) :
  QRCode.mergeOptions mergeRest (Options.withMaskPattern options p)
  = Options.mkInternal
      (Options.finalErrorCorrectionLevel (QRCode.mergeOptions mergeRest options))
      (Options.finalVersion (QRCode.mergeOptions mergeRest options))
      (truthy p)
      (Options.finalRest (QRCode.mergeOptions mergeRest options)).
Proof. reflexivity. Qed.

Lemma generateMatrix_mask (payload : jsstring) (options : Options.QRCodeOptions Rest)
    (p : Z) (g : generated) :
  1 <= p <= 7 ->
  QRCode.generateMatrix validateRest mergeRest payload
    (Options.withMaskPattern options (Some p)) = Returns g ->
  maskPattern g = p /\
  matrix g = applyMask (modules g) (buildMatrix payload (version g)) p.
Proof.
  intros Hp Hg. unfold QRCode.generateMatrix in Hg.
  destruct (negb _); [discriminate|].
  rewrite mergeOptions_mask in Hg. simpl in Hg.
  replace (p =? 0) with false in Hg by lia.
  apply generate_inv in Hg as (_ & _ & ->). simpl. done.
Qed.

(** C9: through the facade a forced mask pattern of 0 behaves as no mask
    pattern at all.  Validation accepts it, option merging maps it to
    [undefined], and the whole of [generate] (matrix, metadata, rendering)
    coincides with the call that passes none, so the mask is the one that
    penalty scoring selects.  Forced patterns 1 to 7 reach the generator
    and are applied as given. *)
Theorem forced_mask_zero_is_auto_selected
    (payload : jsstring) (fmt : Format) (options : Options.QRCodeOptions Rest) :
  Options.finalMaskPattern (QRCode.mergeOptions mergeRest (Options.withMaskPattern options (Some 0)))
  = None /\
  QRCode.generate validateRest mergeRest renderMatrix calculateOutputSize
    payload fmt (Options.withMaskPattern options (Some 0))
  = QRCode.generate validateRest mergeRest renderMatrix calculateOutputSize
      payload fmt (Options.withMaskPattern options None) /\
  (forall g,
     QRCode.generateMatrix validateRest mergeRest payload
       (Options.withMaskPattern options (Some 0)) = Returns g ->
     maskPattern g = selectBestMaskPattern (modules g) (buildMatrix payload (version g))) /\
  (forall p, 1 <= p <= 7 ->
     Options.finalMaskPattern (QRCode.mergeOptions mergeRest (Options.withMaskPattern options (Some p)))
     = Some p /\
     (forall g,
        QRCode.generateMatrix validateRest mergeRest payload
          (Options.withMaskPattern options (Some p)) = Returns g ->
        maskPattern g = p /\
        matrix g = applyMask (modules g) (buildMatrix payload (version g)) p) /\
     (forall r,
        QRCode.generate validateRest mergeRest renderMatrix calculateOutputSize
          payload fmt (Options.withMaskPattern options (Some p)) = Returns r ->
        QRCode.maskPattern r = p)).
Proof.
  split; [reflexivity|]. split; [|split].
  - unfold QRCode.generate, QRCode.generateMatrix.
    rewrite validateInput_mask_in_range by lia. reflexivity.
  - intros g Hg. unfold QRCode.generateMatrix in Hg.
    destruct (negb _); [discriminate|].
    rewrite mergeOptions_mask in Hg. simpl in Hg.
    apply generate_inv in Hg as (_ & _ & ->). reflexivity.
  - intros p Hp. split; [|split].
    + rewrite mergeOptions_mask. simpl. replace (p =? 0) with false by lia. reflexivity.
    + intros g Hg. by apply (generateMatrix_mask payload options p g).
    + intros r Hr. unfold QRCode.generate in Hr.
      destruct (QRCode.generateMatrix validateRest mergeRest payload
                  (Options.withMaskPattern options (Some p))) as [g|msg] eqn:Hg;
        [|discriminate].
      apply generateMatrix_mask in Hg as [Hmask _]; [|done].
      unfold mbind, outcome_bind in Hr.
      destruct (renderMatrix _ _ _); [|discriminate].
      injection Hr as <-. exact Hmask.
Qed.

End ForcedMask.

(** With every cosmetic option left out, a 22-character payload, version 1
    and level L: forcing mask 0 through the facade yields mask 6. *)
Example forced_mask_zero_yields_six :
  exists g,
    QRCode.generateMatrix (fun _ : unit => ValidationUtils.ok) (fun _ => tt)
      (lit "whneeignrutbrtqeniipwj")
      (Options.mkOptions (Some L) (Some 1) (Some 0) tt) = Returns g /\
    maskPattern g = 6.
Proof. eexists. split; [vm_compute; reflexivity | reflexivity]. Qed.

(* ================================================================== *)
(** ** The loops run to completion within their fuel *)
(* ================================================================== *)

(** [placeDataModules] hands [modules] turns to a loop that needs at most
    [col] of them: with that much fuel or more the result is the same, the
    loop having left through [col > 0] being false. *)
Lemma placeDataModules_loop_fuel (fuel fuel' : nat) (modules : Z) (data : list Z)
    (col direction : Z) (st : QRMatrix * Z) :
  (Z.to_nat col <= fuel)%nat -> (Z.to_nat col <= fuel')%nat ->
  placeDataModules_loop fuel modules data col direction st
  = placeDataModules_loop fuel' modules data col direction st.
Proof.
  revert fuel' col direction st.
  induction fuel as [|fuel IH]; intros fuel' col direction st Hfuel Hfuel'.
  - destruct fuel' as [|fuel']; [reflexivity|]. simpl.
    replace (col >? 0) with false by lia. reflexivity.
  - destruct fuel' as [|fuel']; simpl.
    + replace (col >? 0) with false by lia. reflexivity.
    + destruct (col >? 0) eqn:Hcol; [|reflexivity].
      apply IH; destruct (col =? 6) eqn:H6; lia.
Qed.

Lemma placeDataModules_fuel (fuel : nat) (modules : Z) (m : QRMatrix) (data : list Z) :
  (Z.to_nat modules <= fuel)%nat ->
  placeDataModules modules m data
  = fst (placeDataModules_loop fuel modules data (modules - 1) (-1) (m, 0)).
Proof.
  intros Hfuel. unfold placeDataModules. f_equal.
  apply placeDataModules_loop_fuel; lia.
Qed.

Lemma encodeNumeric_loop_fuel (fuel fuel' : nat) (data : jsstring) (i : Z)
    (bits : list Z) :
  (Z.to_nat (len data - i) <= fuel)%nat -> (Z.to_nat (len data - i) <= fuel')%nat ->
  encodeNumeric_loop fuel data i bits = encodeNumeric_loop fuel' data i bits.
Proof.
  revert fuel' i bits.
  induction fuel as [|fuel IH]; intros fuel' i bits Hfuel Hfuel'.
  - destruct fuel' as [|fuel']; [reflexivity|]. simpl.
    replace (i <? len data) with false by lia. reflexivity.
  - destruct fuel' as [|fuel']; simpl.
    + replace (i <? len data) with false by lia. reflexivity.
    + destruct (i <? len data) eqn:Hi; [|reflexivity]. apply IH; lia.
Qed.

Lemma encodeAlphanumeric_loop_fuel (fuel fuel' : nat) (data : jsstring) (i : Z)
    (bits : list Z) :
  (Z.to_nat (len data - i) <= fuel)%nat -> (Z.to_nat (len data - i) <= fuel')%nat ->
  encodeAlphanumeric_loop fuel data i bits = encodeAlphanumeric_loop fuel' data i bits.
Proof.
  revert fuel' i bits.
  induction fuel as [|fuel IH]; intros fuel' i bits Hfuel Hfuel'.
  - destruct fuel' as [|fuel']; [reflexivity|]. simpl.
    replace (i <? len data) with false by lia. reflexivity.
  - destruct fuel' as [|fuel']; simpl.
    + replace (i <? len data) with false by lia. reflexivity.
    + destruct (i <? len data) eqn:Hi; [|reflexivity]. apply IH; lia.
Qed.

(* ================================================================== *)
(** ** Capacities *)
(* ================================================================== *)

(** The rounded products of [getCapacity] are the exact ones on the 40
    versions: 10, 8, 6 and 4 characters per version step. *)
Lemma getCapacity_closed_form (version : Z) (level : ErrorCorrectionLevel.t)
    (mode : DataMode.t) :
  1 <= version <= 40 ->
  getCapacity version level mode
  = match level with
    | L => 10 * version
    | M => 8 * version
    | Q => 6 * version
    | H => 4 * version
    end.
Proof.
  intros Hv.
  assert (Hall : Forall (fun v => forall l,
                           getCapacity v l mode
                           = match l with
                             | L => 10 * v
                             | M => 8 * v
                             | Q => 6 * v
                             | H => 4 * v
                             end) (seqZ 1 40)).
  { unfold getCapacity. vm_compute seqZ.
    repeat (apply Forall_cons_2; [intros []; vm_compute; reflexivity|]).
    apply Forall_nil_2. }
  rewrite Forall_seqZ in Hall. apply Hall. lia.
Qed.

(** The largest payload [determineVersion] accepts has 400, 320, 240 or 160
    characters. *)
Lemma determineVersion_limit (data : jsstring) (level : ErrorCorrectionLevel.t) :
  (exists v, determineVersion data level = Returns v) <->
  len data <= match level with L => 400 | M => 320 | Q => 240 | H => 160 end.
Proof.
  unfold determineVersion. split.
  - intros [v Hv].
    apply (determineVersion_loop_returns _ _ _ 40 1 v) in Hv as (Hrange & Hfits & _).
    rewrite getCapacity_closed_form in Hfits by lia. destruct level; lia.
  - intros Hlen.
    destruct (determineVersion_loop (len data) level (detectDataMode data) (seqZ 1 40))
      as [v|msg] eqn:Hloop; [by exists v|]. exfalso.
    assert (H40 : len data <= getCapacity 40 level (detectDataMode data)).
    { rewrite getCapacity_closed_form by lia. destruct level; lia. }
    clear Hlen. revert Hloop.
    generalize (detectDataMode data) (len data) H40. intros mode n Hn.
    assert (Hgen : forall (k : nat) (lo : Z), lo + Z.of_nat k = 41 -> (1 <= k)%nat ->
              determineVersion_loop n level mode (seqZ lo (Z.of_nat k)) <> Throws msg).
    { induction k as [|k IH]; intros lo Hlo Hk; [lia|].
      rewrite seqZ_cons by lia. simpl.
      replace (Z.pred (Z.of_nat (S k))) with (Z.of_nat k) by lia.
      destruct (n <=? getCapacity lo level mode) eqn:Hfit; [discriminate|].
      destruct k as [|k].
      - assert (lo = 40) by lia. subst lo. lia.
      - apply IH; lia. }
    apply (Hgen 40%nat 1); lia.
Qed.

(** C3 (amended): with no forced version and a non-empty payload,
    [generate] returns a square matrix of side [17 + 4 * version] for the
    smallest version of 1..40 whose capacity, as the code computes it,
    accommodates the payload length: [floor (10 * version * multiplier)],
    which is 10, 8, 6 or 4 characters per version at levels L, M, Q, H,
    the same for every mode.  It returns whenever some version does, and
    throws when none does. *)
Theorem generate_selects_smallest_version
    (data : jsstring) (level : ErrorCorrectionLevel.t) (maskPattern : option Z) :
  data <> [] ->
  let capacity v := charactersPerVersion level * v in
  (forall v mode, 1 <= v <= 40 -> getCapacity v level mode = capacity v) /\
  (forall g, generate data level None maskPattern = Returns g ->
     modules g = 17 + 4 * version g /\
     square (17 + 4 * version g) (matrix g) /\
     1 <= version g <= 40 /\
     len data <= capacity (version g) /\
     (forall v', 1 <= v' < version g -> capacity v' < len data)) /\
  (forall v, 1 <= v <= 40 -> len data <= capacity v ->
     exists g, generate data level None maskPattern = Returns g /\ version g <= v) /\
  ((forall v, 1 <= v <= 40 -> capacity v < len data) ->
     generate data level None maskPattern = Throws "Data too long for QR code").
Proof.
  intros Hne capacity.
  assert (Hcap : forall v mode, 1 <= v <= 40 -> getCapacity v level mode = capacity v).
  { intros v mode Hv. rewrite getCapacity_closed_form by done.
    unfold capacity, charactersPerVersion. by destruct level. }
  destruct (generate_least_capacity data level maskPattern Hne)
    as (Hreturns & Hsome & Hnone).
  split; [exact Hcap|]. split; [|split].
  - intros g Hg. destruct (Hreturns g Hg) as (Hmodules & Hsquare & Hv & Hfits & Hleast).
    split; [done|]. split; [done|]. split; [done|]. split.
    + by rewrite <- (Hcap _ (detectDataMode data)).
    + intros v' Hv'. rewrite <- (Hcap _ (detectDataMode data)) by lia. by apply Hleast.
  - intros v Hv Hfits. apply (Hsome v Hv). by rewrite Hcap.
  - intros Hall. apply Hnone. intros v Hv. rewrite Hcap by done. by apply Hall.
Qed.

Lemma generate_selects_smallest_version_witness :
  lit "HELLO WORLD" <> [] /\
  exists g, generate (lit "HELLO WORLD") M None None = Returns g /\
    version g = 2 /\ modules g = 25.
Proof.
  assert (Hne : lit "HELLO WORLD" <> []) by (vm_compute; discriminate).
  split; [exact Hne|].
  destruct (generate_selects_smallest_version (lit "HELLO WORLD") M None Hne)
    as (_ & Hreturns & Hsome & _).
  destruct (Hsome 2 ltac:(lia) ltac:(vm_compute; discriminate)) as (g & Hg & Hle).
  exists g. split; [exact Hg|].
  destruct (Hreturns g Hg) as (Hmodules & _ & Hv & Hfits & _).
  assert (Hlen : len (lit "HELLO WORLD") = 11) by reflexivity.
  rewrite Hlen in Hfits. unfold charactersPerVersion in Hfits. lia.
Defined.

(** C3, as the claim words it, at the payload ["HELLO WORLD"], level M,
    nothing forced: the detected mode is alphanumeric and the capacity table
    gives version 1 at level M 20 alphanumeric characters, enough for the
    11 of the payload, yet [generate] resolves version 2 (25 modules
    a side), because [getCapacity] gives version 1 only 8 characters.  The
    resolved version is not the smallest one whose table capacity
    accommodates the payload. *)
Lemma table_capacity_admits_smaller_version :
  detectDataMode (lit "HELLO WORLD") = ALPHANUMERIC /\
  len (lit "HELLO WORLD") = 11 /\
  CAPACITY_TABLE ALPHANUMERIC 1 M = Some 20 /\
  getCapacity 1 M ALPHANUMERIC = 8 /\
  exists g, generate (lit "HELLO WORLD") M None None = Returns g /\
    version g = 2 /\ modules g = 25 /\
    ~ (forall v capacity, 1 <= v <= 40 ->
         CAPACITY_TABLE (detectDataMode (lit "HELLO WORLD")) v M = Some capacity ->
         len (lit "HELLO WORLD") <= capacity ->
         version g <= v).
Proof.
  do 4 (split; [vm_compute; reflexivity|]).
  eexists. split; [vm_compute; reflexivity|].
  split; [reflexivity|]. split; [reflexivity|].
  intros Hleast. specialize (Hleast 1 20 ltac:(lia) eq_refl ltac:(vm_compute; discriminate)).
  simpl in Hleast. lia.
Qed.

Lemma generate_version (data : jsstring) (level : ErrorCorrectionLevel.t)
    (forced maskPattern : option Z) (g : generated) :
  generate data level forced maskPattern = Returns g ->
  match truthy forced with
  | Some v => Returns v
  | None => determineVersion data level
  end = Returns (version g).
Proof.
  intros Hg. pose proof (generate_inv _ _ _ _ _ Hg) as (Hne & Hrange & _).
  destruct (match truthy forced with
            | Some v => Returns v
            | None => determineVersion data level
            end) as [v|msg] eqn:Hv.
  - assert (Hv' : 1 <= v <= 40).
    { unfold generate in Hg. rewrite Hv in Hg.
      unfold mbind, outcome_bind, validateInput in Hg.
      destruct (bool_decide (data = [])); [discriminate|].
      destruct ((v <? VALIDATION.MIN_VERSION) || (v >? VALIDATION.MAX_VERSION))
        eqn:Hbounds; [discriminate|].
      unfold VALIDATION.MIN_VERSION, VALIDATION.MAX_VERSION in Hbounds. lia. }
    rewrite (generate_resolved data level forced maskPattern v Hv Hne Hv') in Hg.
    injection Hg as <-. reflexivity.
  - unfold generate in Hg. rewrite Hv in Hg. discriminate.
Qed.

(* ================================================================== *)
(** ** Version selection through the facade *)
(* ================================================================== *)

Lemma validateCapacity_loop_valid (dataLength : Z) (level : ErrorCorrectionLevel.t)
    (mode : DataMode.t) (n : nat) (lo : Z) :
  let r := ValidationUtils.validateCapacity_loop dataLength level mode
             (seqZ lo (Z.of_nat n)) in
  ValidationUtils.valid r = true ->
  exists v, ValidationUtils.suggestedVersion r = Some v /\
    lo <= v < lo + Z.of_nat n /\
    dataLength <= ValidationUtils.getCapacityForVersion v level mode /\
    forall v', lo <= v' < v ->
      ValidationUtils.getCapacityForVersion v' level mode < dataLength.
Proof.
  revert lo. induction n as [|n IH]; intros lo; cbv zeta.
  - rewrite seqZ_nil by lia. simpl. discriminate.
  - rewrite seqZ_cons by lia. simpl.
    replace (Z.pred (Z.of_nat (S n))) with (Z.of_nat n) by lia.
    destruct (dataLength <=? ValidationUtils.getCapacityForVersion lo level mode)
      eqn:Hlo.
    + intros _. exists lo. simpl. apply Z.leb_le in Hlo.
      split; [reflexivity|]. split; [lia|]. split; [done|lia].
    + intros Hvalid. apply Z.leb_gt in Hlo.
      destruct (IH (Z.succ lo) Hvalid) as (v & Hv & Hrange & Hfits & Hleast).
      exists v. split; [done|]. split; [lia|]. split; [done|].
      intros v' Hv'. destruct (decide (v' = lo)) as [->|]; [done|].
      apply Hleast. lia.
Qed.

Section FacadeVersion.

Context {Rest RestInternal : Type}.
Variable validateRest : Rest -> ValidationUtils.ValidationResult.
Variable mergeRest : Rest -> RestInternal.

(** X19.  Through [QRCode.generate] the version comes from [validateCapacity],
    whose capacities are those of [getCapacityForVersion]: with no version
    in the options, the matrix is the square of side [17 + 4 * version] for
    the smallest version of 1..40 that accommodates the payload. *)
Lemma facade_selects_smallest_version
    (payload : jsstring) (options : Options.QRCodeOptions Rest) (g : generated) :
  Options.version options = None ->
  QRCode.generateMatrix validateRest mergeRest payload options = Returns g ->
  let level := default Options.DEFAULT_errorCorrectionLevel
                 (Options.errorCorrectionLevel options) in
  let capacity v := ValidationUtils.getCapacityForVersion v level
                      (ValidationUtils.detectDataMode payload) in
  modules g = 17 + 4 * version g /\
  square (17 + 4 * version g) (matrix g) /\
  1 <= version g <= 40 /\
  len payload <= capacity (version g) /\
  (forall v', 1 <= v' < version g -> capacity v' < len payload).
Proof.
  intros Hnone Hg level capacity.
  unfold QRCode.generateMatrix, ValidationUtils.validateInput,
    ValidationUtils.validateCapacity in Hg.
  rewrite Hnone in Hg. cbn [truthy] in Hg. fold level in Hg.
  set (r := ValidationUtils.validateCapacity_loop (len payload) level
              (ValidationUtils.detectDataMode payload) (seqZ 1 40)) in Hg.
  destruct (ValidationUtils.valid (ValidationUtils.validateData payload)) eqn:Hdata;
    [|simpl in Hg; rewrite Hdata in Hg; discriminate].
  destruct (ValidationUtils.valid
              (ValidationUtils.validateOptions validateRest options)) eqn:Hoptions;
    [|simpl in Hg; rewrite Hoptions in Hg; discriminate].
  destruct (ValidationUtils.valid r) eqn:Hcapacity;
    [|simpl in Hg; rewrite Hcapacity in Hg; discriminate].
  simpl in Hg.
  destruct (validateCapacity_loop_valid (len payload) level
              (ValidationUtils.detectDataMode payload) 40 1 Hcapacity)
    as (v & Hsuggested & Hrange & Hfits & Hleast).
  change (Z.of_nat 40) with 40 in Hsuggested. fold r in Hsuggested.
  rewrite Hsuggested in Hg. simpl in Hg.
  replace (v =? 0) with false in Hg by lia.
  pose proof (generate_version _ _ _ _ _ Hg) as Hversion. simpl in Hversion.
  replace (v =? 0) with false in Hversion by lia. injection Hversion as Hversion.
  apply generate_inv in Hg as (_ & Hv & Hrecord).
  split; [rewrite Hrecord; reflexivity|].
  split.
  { rewrite Hrecord at 2. simpl. unfold applyMask. apply applyMaskToMatrix_square.
    apply (buildMatrix_square payload (version g)). unfold getModuleCount. lia. }
  split; [done|]. rewrite <- Hversion. split; [exact Hfits|].
  intros v' Hv'. apply Hleast. lia.
Qed.

(** Through the facade the empty payload is refused by [validateData],
    before any option is looked at. *)
Lemma facade_rejects_empty_payload (options : Options.QRCodeOptions Rest) :
  QRCode.generateMatrix validateRest mergeRest [] options
  = Throws ERROR_MESSAGES.INVALID_DATA.
Proof. reflexivity. Qed.

End FacadeVersion.

(** The two capacity formulas differ: for ["HELLO WORLD"] at level M the
    generator on its own resolves version 2 (capacity 8 at version 1), the
    facade hands it version 1 (capacity 36 at version 1). *)
Example hello_world_versions :
  (exists g, generate (lit "HELLO WORLD") M None None = Returns g /\ version g = 2) /\
  (exists g,
     QRCode.generateMatrix (fun _ : unit => ValidationUtils.ok) (fun _ => tt)
       (lit "HELLO WORLD") (Options.mkOptions (Some M) None None tt) = Returns g /\
     version g = 1) /\
  getCapacity 1 M ALPHANUMERIC = 8 /\
  ValidationUtils.getCapacityForVersion 1 M ALPHANUMERIC = 36.
Proof.
  split; [|split]; [eexists; split; [vm_compute; reflexivity | reflexivity]..|].
  split; vm_compute; reflexivity.
Qed.

(* ================================================================== *)
(** ** Data placement writes over the function patterns *)
(* ================================================================== *)

Lemma mget_mset_same (n : Z) (m : QRMatrix) (x y : Z) (v : bool) :
  square n m -> isInBounds n x y = true -> mget (mset m x y v) x y = v.
Proof.
  intros [Hlen Hrows] Hin. unfold isInBounds in Hin.
  unfold mget, mset.
  replace ((x <? 0) || (y <? 0)) with false by lia.
  rewrite list_lookup_alter_eq.
  destruct (m !! Z.to_nat y) as [row|] eqn:Hrow.
  - simpl. rewrite list_lookup_insert_eq; [done|].
    rewrite Forall_forall in Hrows.
    assert (Z.of_nat (length row) = n)
      by (apply Hrows; eapply list_elem_of_lookup_2; exact Hrow).
    lia.
  - apply lookup_ge_None in Hrow. lia.
Qed.

(** Two runs of one loop, related turn by turn. *)
Lemma forZ_rel {A B : Type} (R : Z -> A -> B -> Prop) (lo hi : Z)
    (f : Z -> A -> A) (g : Z -> B -> B) (a : A) (b : B) :
  lo <= hi ->
  R lo a b ->
  (forall i a b, lo <= i < hi -> R i a b -> R (i + 1) (f i a) (g i b)) ->
  R hi (forZ lo hi f a) (forZ lo hi g b).
Proof.
  intros Hle Hstart Hstep.
  assert (Hk : exists k : nat, hi = lo + Z.of_nat k) by (exists (Z.to_nat (hi - lo)); lia).
  destruct Hk as [k ->]. clear Hle.
  induction k as [|k IH].
  - rewrite !forZ_empty by lia. by rewrite Z.add_0_r.
  - replace (lo + Z.of_nat (S k)) with (lo + Z.of_nat k + 1) by lia.
    rewrite !forZ_snoc by lia. apply Hstep; [lia|].
    apply IH. intros i a' b' Hi. apply Hstep. lia.
Qed.

Section Placement.

Variables (n : Z) (data : list Z).

Lemma alike_weaken (P Q : Z -> Z -> Prop) (st1 st2 : QRMatrix * Z) :
  (forall x y, Q x y -> P x y) -> alike n P st1 st2 -> alike n Q st1 st2.
Proof.
  intros HQP (Hi & H1 & H2 & Hagree).
  split; [exact Hi|]. split; [exact H1|]. split; [exact H2|].
  intros x y HQ. apply Hagree, HQP, HQ.
Qed.

Lemma placeModule_alike (P : Z -> Z -> Prop) (col direction count c : Z)
    (st1 st2 : QRMatrix * Z) :
  alike n P st1 st2 ->
  alike n (fun x y => P x y \/
           (isInBounds n x y = true /\ x = col - c /\ y = rowAt n direction count))
    (placeModule n data col direction count c st1)
    (placeModule n data col direction count c st2).
Proof.
  destruct st1 as [m1 i1], st2 as [m2 i2]. intros (Hi & H1 & H2 & Hagree).
  simpl in Hi, H1, H2, Hagree. subst i2. unfold placeModule.
  fold (rowAt n direction count).
  destruct (isInBounds n (col - c) (rowAt n direction count)) eqn:Hin; simpl.
  - assert (Hwrite : forall v j,
              alike n (fun x y => P x y \/
                       (isInBounds n x y = true /\ x = col - c
                        /\ y = rowAt n direction count))
                (mset m1 (col - c) (rowAt n direction count) v, j)
                (mset m2 (col - c) (rowAt n direction count) v, j)).
    { intros v j. split; [reflexivity|]. simpl.
      split; [by apply mset_square|]. split; [by apply mset_square|].
      intros x y Hxy.
      destruct (decide ((x, y) = (col - c, rowAt n direction count))) as [[= -> ->]|Hne].
      - by rewrite !(mget_mset_same n).
      - rewrite !mget_mset_other by done.
        destruct Hxy as [HP | (_ & -> & ->)]; [by apply Hagree | done]. }
    destruct (i1 <? len data); apply Hwrite.
  - split; [reflexivity|]. simpl. split; [done|]. split; [done|].
    intros x y [HP | (Hxy & -> & ->)]; [by apply Hagree | congruence].
Qed.

(** A column pair is written whatever it held before. *)
Lemma placeColumnPair_alike (P : Z -> Z -> Prop) (col direction : Z)
    (st1 st2 : QRMatrix * Z) :
  0 <= n ->
  alike n P st1 st2 ->
  alike n (fun x y => P x y \/
           (isInBounds n x y = true /\ (x = col \/ x = col - 1)))
    (placeColumnPair n data col direction st1)
    (placeColumnPair n data col direction st2).
Proof.
  intros Hn Hstart. unfold placeColumnPair.
  pose (visited := fun (k : Z) (x y : Z) =>
          P x y \/
          (isInBounds n x y = true /\ (x = col \/ x = col - 1) /\
           exists count, 0 <= count < k /\ y = rowAt n direction count)).
  apply (alike_weaken (visited n)).
  { intros x y [HP | (Hin & Hx)]; [by left|]. right.
    split; [done|]. split; [done|].
    unfold isInBounds in Hin. unfold rowAt.
    destruct (direction =? -1).
    - exists (n - 1 - y). lia.
    - exists y. lia. }
  apply (forZ_rel (fun k => alike n (visited k))); [done| |].
  { eapply alike_weaken; [|exact Hstart].
    intros x y [HP | (_ & _ & count & Hcount & _)]; [done | lia]. }
  intros count st1' st2' Hcount Hvisited.
  pose (inner := fun (c : Z) (x y : Z) =>
          visited count x y \/
          (isInBounds n x y = true /\ y = rowAt n direction count /\
           exists c', 0 <= c' < c /\ x = col - c')).
  apply (alike_weaken (inner 2)).
  { intros x y [HP | (Hin & Hx & count' & Hcount' & Hy)]; [left; by left|].
    destruct (decide (count' = count)) as [->|Hne].
    - right. split; [done|]. split; [done|].
      destruct Hx as [-> | ->]; [exists 0 | exists 1]; lia.
    - left. right. split; [done|]. split; [done|]. exists count'. lia. }
  apply (forZ_rel (fun c => alike n (inner c))); [lia| |].
  { eapply alike_weaken; [|exact Hvisited].
    intros x y [Hv | (_ & _ & c' & Hc' & _)]; [done | lia]. }
  intros c st1'' st2'' Hc Hinner.
  eapply alike_weaken; [|apply placeModule_alike; exact Hinner].
  intros x y [Hv | (Hin & Hy & c' & Hc' & Hx)].
  - left. left. exact Hv.
  - destruct (decide (c' = c)) as [->|Hne].
    + right. done.
    + left. right. split; [done|]. split; [done|]. exists c'. lia.
Qed.

Lemma placeDataModules_loop_alike (fuel : nat) (col direction : Z)
    (st1 st2 : QRMatrix * Z) :
  0 <= n -> loopHead col -> (Z.to_nat col <= fuel)%nat ->
  alike n (fun x y => isInBounds n x y = true /\ x <> 6 /\ col < x) st1 st2 ->
  alike n (fun x y => isInBounds n x y = true /\ x <> 6)
    (placeDataModules_loop fuel n data col direction st1)
    (placeDataModules_loop fuel n data col direction st2).
Proof.
  intros Hn. revert col direction st1 st2.
  induction fuel as [|fuel IH]; intros col direction st1 st2 Hhead Hfuel Hstart.
  - simpl. eapply alike_weaken; [|exact Hstart].
    intros x y (Hin & Hx). split; [done|]. split; [done|].
    unfold isInBounds in Hin.
    destruct Hhead as [[Heven H6] | [-> | [-> | ->]]]; lia.
  - simpl. destruct (col >? 0) eqn:Hcol.
    + assert (Hhead' : loopHead ((if col =? 6 then col - 1 else col) - 2)).
      { destruct Hhead as [[Heven H6] | [-> | [-> | ->]]].
        - destruct (col =? 6) eqn:Heq.
          + right. left. lia.
          + assert (col <> 7) by (intros ->; discriminate).
            left. split; [|lia].
            replace (col - 2) with (col + 2 * (-1)) by lia.
            by rewrite Z.even_add_mul_2.
        - right. right. left. reflexivity.
        - right. right. right. reflexivity.
        - discriminate. }
      apply IH; [exact Hhead' | destruct (col =? 6) eqn:Heq; lia |].
      eapply alike_weaken; [|apply placeColumnPair_alike; [exact Hn | exact Hstart]].
      intros x y (Hin & Hx & Hlow). simpl.
      destruct (Z.lt_ge_cases col x) as [Hgt | Hle]; [left; done|].
      right. split; [done|]. destruct (col =? 6) eqn:Heq; lia.
    + eapply alike_weaken; [|exact Hstart].
      intros x y (Hin & Hx). split; [done|]. split; [done|].
      unfold isInBounds in Hin.
      destruct Hhead as [[Heven H6] | [-> | [-> | ->]]]; lia.
Qed.

End Placement.

(** In a matrix of odd side, data placement fixes every module outside of
    column 6 from the data alone: what the earlier steps had put there is
    gone. *)
Lemma placeDataModules_overwrites (n : Z) (m1 m2 : QRMatrix) (data : list Z)
    (x y : Z) :
  Z.odd n = true -> 7 <= n -> square n m1 -> square n m2 ->
  isInBounds n x y = true -> x <> 6 ->
  mget (placeDataModules n m1 data) x y = mget (placeDataModules n m2 data) x y.
Proof.
  intros Hodd Hn H1 H2 Hin Hx. unfold placeDataModules.
  assert (Halike : alike n (fun x y => isInBounds n x y = true /\ x <> 6)
            (placeDataModules_loop (Z.to_nat n) n data (n - 1) (-1) (m1, 0))
            (placeDataModules_loop (Z.to_nat n) n data (n - 1) (-1) (m2, 0))).
  { apply placeDataModules_loop_alike; [lia| |lia|].
    - left. split; [|lia].
      replace (n - 1) with (n + -1) by lia. rewrite Z.even_add, <- Z.negb_odd, Hodd.
      reflexivity.
    - split; [reflexivity|]. split; [done|]. split; [done|].
      intros x' y' (Hin' & _ & Hlow). unfold isInBounds in Hin'. lia. }
  destruct Halike as (_ & _ & _ & Hagree). by apply Hagree.
Qed.

(** Column 6 is never written by data placement in a matrix of odd side. *)
Lemma placeColumnPair_frame (n : Z) (data : list Z) (col direction : Z)
    (st : QRMatrix * Z) (x y : Z) :
  x <> col -> x <> col - 1 ->
  mget (fst (placeColumnPair n data col direction st)) x y = mget (fst st) x y.
Proof.
  intros Hcol Hcol1. unfold placeColumnPair.
  apply (forZ_ind (fun st' => mget (fst st') x y = mget (fst st) x y)); [done|].
  intros count st1 _ Hst1.
  apply (forZ_ind (fun st' => mget (fst st') x y = mget (fst st) x y)); [done|].
  intros c [m2 i2] Hc Hst2. unfold placeModule. simpl in *.
  destruct (isInBounds _ _ _ && _); [|done].
  destruct (i2 <? len data); simpl; (rewrite mget_mset_other; [done|]);
    intros [= -> _]; lia.
Qed.

Lemma placeDataModules_loop_column_6 (fuel : nat) (n : Z) (data : list Z)
    (col direction : Z) (st : QRMatrix * Z) (y : Z) :
  loopHead col ->
  mget (fst (placeDataModules_loop fuel n data col direction st)) 6 y
  = mget (fst st) 6 y.
Proof.
  revert col direction st. induction fuel as [|fuel IH]; intros col direction st Hhead.
  - reflexivity.
  - simpl. destruct (col >? 0) eqn:Hcol; [|reflexivity].
    assert (Hseven : col <> 7).
    { destruct Hhead as [[Heven _] | [-> | [-> | ->]]]; try lia.
      intros ->. discriminate. }
    rewrite IH.
    + apply placeColumnPair_frame; destruct (col =? 6) eqn:Heq; lia.
    + destruct Hhead as [[Heven H6] | [-> | [-> | ->]]].
      * destruct (col =? 6) eqn:Heq.
        -- right. left. lia.
        -- left. split; [|lia].
           replace (col - 2) with (col + 2 * (-1)) by lia.
           by rewrite Z.even_add_mul_2.
      * right. right. left. reflexivity.
      * right. right. right. reflexivity.
      * discriminate.
Qed.

Lemma placeDataModules_keeps_column_6 (n : Z) (m : QRMatrix) (data : list Z) (y : Z) :
  Z.odd n = true -> 7 <= n ->
  mget (placeDataModules n m data) 6 y = mget m 6 y.
Proof.
  intros Hodd Hn. unfold placeDataModules.
  rewrite placeDataModules_loop_column_6; [reflexivity|].
  left. split; [|lia].
  replace (n - 1) with (n + -1) by lia. rewrite Z.even_add, <- Z.negb_odd, Hodd.
  reflexivity.
Qed.

(** A loop invariant that knows the index. *)
Lemma forZ_ind_index {St : Type} (P : Z -> St -> Prop) (lo hi : Z)
    (body : Z -> St -> St) (s : St) :
  lo <= hi ->
  P lo s ->
  (forall i s, lo <= i < hi -> P i s -> P (i + 1) (body i s)) ->
  P hi (forZ lo hi body s).
Proof.
  intros Hle Hstart Hstep.
  apply (forZ_rel (fun i a (_ : unit) => P i a) lo hi body (fun _ u => u) s tt);
    [done | done |].
  intros i a _ Hi Ha. by apply Hstep.
Qed.

(** What mask application does to each module of a square matrix: the
    module is inverted when it is a data module for the positional check and
    the mask formula holds there, and kept otherwise. *)
Lemma applyMaskToMatrix_cell (n : Z) (m : QRMatrix) (pattern x y : Z) :
  square n m -> isInBounds n x y = true ->
  mget (applyMaskToMatrix n m pattern) x y
  = if isDataModule n x y && shouldApplyMask x y pattern
    then negb (mget m x y) else mget m x y.
Proof.
  intros Hm Hin. pose proof Hin as Hxy. unfold isInBounds in Hxy.
  set (masked := if isDataModule n x y && shouldApplyMask x y pattern
                 then negb (mget m x y) else mget m x y).
  pose (done_before := fun (row col : Z) => y < row \/ (y = row /\ x < col)).
  pose (P := fun (row col : Z) (m' : QRMatrix) =>
          square n m' /\
          ((done_before row col -> mget m' x y = masked) /\
           (~ done_before row col -> mget m' x y = mget m x y))).
  assert (Hrows : P n 0 (applyMaskToMatrix n m pattern)).
  { unfold applyMaskToMatrix.
    apply (forZ_ind_index (fun row => P row 0)); [lia| |].
    - split; [done|]. unfold done_before. split; [lia|done].
    - intros row m1 Hrow Hm1.
      assert (Hcols : P row n
                (forZ 0 n (fun x' m' =>
                   if isDataModule n x' row && shouldApplyMask x' row pattern
                   then mset m' x' row (negb (mget m' x' row)) else m') m1)).
      { apply (forZ_ind_index (P row)); [lia | exact Hm1 |].
        intros col m2 Hcol (Hsq & Hdone & Htodo).
        assert (Hstep : square n
                  (if isDataModule n col row && shouldApplyMask col row pattern
                   then mset m2 col row (negb (mget m2 col row)) else m2)).
        { destruct (isDataModule n col row && shouldApplyMask col row pattern);
            [by apply mset_square | done]. }
        split; [exact Hstep|]. clear Hstep.
        destruct (decide ((x, y) = (col, row))) as [Heq|Hne].
        - injection Heq as Hx Hy.
          assert (Hcurrent : mget m2 x y = mget m x y)
            by (apply Htodo; unfold done_before; lia).
          split; [|unfold done_before; lia]. intros _. unfold masked.
          rewrite <- Hx, <- Hy.
          destruct (isDataModule n x y && shouldApplyMask x y pattern).
          + by rewrite (mget_mset_same n), Hcurrent.
          + exact Hcurrent.
        - assert (Hsame : mget (if isDataModule n col row
                                   && shouldApplyMask col row pattern
                                then mset m2 col row (negb (mget m2 col row))
                                else m2) x y = mget m2 x y).
          { destruct (isDataModule n col row && shouldApplyMask col row pattern);
              [by rewrite mget_mset_other | done]. }
          rewrite Hsame. unfold done_before in *. split.
          + intros Hbefore. apply Hdone.
            destruct Hbefore as [? | [Hy Hx]]; [by left|]. right.
            split; [done|].
            destruct (decide (x = col)) as [Hxc|]; [|lia].
            exfalso. apply Hne. by rewrite Hxc, Hy.
          + intros Hnot. apply Htodo. intros Hbefore. apply Hnot. lia. }
      destruct Hcols as (Hsq & Hdone & Htodo). split; [done|].
      unfold done_before in *. split.
      + intros Hbefore. apply Hdone. lia.
      + intros Hnot. apply Htodo. lia. }
  destruct Hrows as (_ & Hdone & _). apply Hdone. unfold done_before. lia.
Qed.

(** Masking two matrices keeps them equal where they were. *)
Lemma applyMaskToMatrix_alike (n : Z) (m1 m2 : QRMatrix) (pattern x y : Z) :
  0 <= n -> square n m1 -> square n m2 ->
  mget m1 x y = mget m2 x y ->
  mget (applyMaskToMatrix n m1 pattern) x y = mget (applyMaskToMatrix n m2 pattern) x y.
Proof.
  intros Hn H1 H2 Hxy. unfold applyMaskToMatrix.
  pose (R := fun (_ : Z) (a b : QRMatrix) =>
          square n a /\ square n b /\ mget a x y = mget b x y).
  assert (Hrows : R n
            (forZ 0 n (fun y' m => forZ 0 n (fun x' m =>
               if isDataModule n x' y' && shouldApplyMask x' y' pattern
               then mset m x' y' (negb (mget m x' y')) else m) m) m1)
            (forZ 0 n (fun y' m => forZ 0 n (fun x' m =>
               if isDataModule n x' y' && shouldApplyMask x' y' pattern
               then mset m x' y' (negb (mget m x' y')) else m) m) m2)).
  { apply (forZ_rel R); [done | done |].
    intros y' a b Hy' Hab.
    apply (forZ_rel (fun x' => R (y' + 1))); [done | exact Hab |].
    intros x' a' b' Hx' (Ha & Hb & Hab').
    destruct (isDataModule n x' y' && shouldApplyMask x' y' pattern); [|done].
    split; [by apply mset_square|]. split; [by apply mset_square|].
    destruct (decide ((x, y) = (x', y'))) as [[= -> ->]|Hne].
    - rewrite !(mget_mset_same n); [by rewrite Hab' | done | | done |];
        unfold isInBounds; lia.
    - by rewrite !mget_mset_other. }
  destruct Hrows as (_ & _ & Hresult). exact Hresult.
Qed.

Lemma getModuleCount_odd (version : Z) : Z.odd (getModuleCount version) = true.
Proof.
  unfold getModuleCount.
  replace (17 + 4 * version) with (1 + 2 * (8 + 2 * version)) by lia.
  by rewrite Z.odd_add_mul_2.
Qed.

Lemma functionPatterns_square (version : Z) :
  0 <= getModuleCount version ->
  square (getModuleCount version) (functionPatterns version).
Proof. intros Hn. unfold functionPatterns. auto 10 with qr_square. Qed.

(** In every finished matrix, each module outside of column 6 is what
    data placement and masking alone produce on a blank matrix: no finder
    pattern, separator, alignment pattern, horizontal timing pattern or dark
    module leaves a trace there.  Column 6 is what the function patterns had
    put. *)
Lemma finished_matrix_forgets_function_patterns
    (data : jsstring) (level : ErrorCorrectionLevel.t) (forced maskPattern : option Z)
    (g : generated) (x y : Z) :
  generate data level forced maskPattern = Returns g ->
  isInBounds (modules g) x y = true ->
  (x <> 6 ->
   mget (matrix g) x y
   = mget (applyMask (modules g)
             (placeDataModules (modules g) (initializeMatrix (modules g))
                (encodeData data))
             (QRGenerator.maskPattern g)) x y) /\
  (x = 6 -> mget (matrix g) x y = mget (functionPatterns (version g)) x y).
Proof.
  intros Hg Hin. apply generate_inv in Hg as (_ & Hv & Hg).
  set (n := getModuleCount (version g)) in *.
  assert (Hn : 7 <= n) by (unfold n, getModuleCount; lia).
  assert (Hodd : Z.odd n = true) by apply getModuleCount_odd.
  assert (Hmodules : modules g = n) by (rewrite Hg; reflexivity).
  assert (Hmatrix : matrix g
                    = applyMaskToMatrix n (buildMatrix data (version g))
                        (QRGenerator.maskPattern g)).
  { rewrite Hg at 1. simpl. unfold applyMask. f_equal. rewrite Hg at 2. reflexivity. }
  rewrite Hmodules in *. rewrite Hmatrix. unfold applyMask. split.
  - intros Hx. apply applyMaskToMatrix_alike; [lia| | |].
    + apply buildMatrix_square. fold n. lia.
    + apply placeDataModules_square, initializeMatrix_square. lia.
    + unfold buildMatrix, addErrorCorrection. fold n.
      apply placeDataModules_overwrites; try done.
      * apply (functionPatterns_square (version g)). fold n. lia.
      * apply initializeMatrix_square. lia.
  - intros ->. rewrite applyMaskToMatrix_frame
      by (apply isDataModule_false; right; left; reflexivity).
    unfold buildMatrix, addErrorCorrection. fold n.
    by rewrite placeDataModules_keeps_column_6.
Qed.

(** A loop that writes column [x0] from [lo] to [hi]. *)
Lemma forZ_mset_column (n : Z) (f : Z -> bool) (x0 lo : Z) (k : nat)
    (m : QRMatrix) (y : Z) :
  square n m -> 0 <= lo -> lo + Z.of_nat k <= n -> 0 <= x0 < n ->
  lo <= y < lo + Z.of_nat k ->
  mget (forZ lo (lo + Z.of_nat k) (fun y m => mset m x0 y (f y)) m) x0 y = f y.
Proof.
  intros Hm Hlo. induction k as [|k IH]; intros Hhi Hx Hy; [lia|].
  replace (lo + Z.of_nat (S k)) with (lo + Z.of_nat k + 1) by lia.
  rewrite forZ_snoc by lia.
  destruct (decide (y = lo + Z.of_nat k)) as [->|Hne].
  - apply (mget_mset_same n).
    + apply (forZ_ind (square n)); [done|]. intros. by apply mset_square.
    + unfold isInBounds. lia.
  - rewrite mget_mset_other by (intros Heq; inversion Heq; lia). apply IH; lia.
Qed.

(** X13.  What the finished matrix keeps of the function patterns: the vertical
    timing pattern, in column 6, is dark at even rows and light at odd ones,
    for every payload, version and mask. *)
Lemma vertical_timing_pattern_kept
    (data : jsstring) (level : ErrorCorrectionLevel.t) (forced maskPattern : option Z)
    (g : generated) (y : Z) :
  generate data level forced maskPattern = Returns g ->
  8 <= y < modules g - 8 ->
  mget (matrix g) 6 y = Z.even y.
Proof.
  intros Hg Hy.
  pose proof (generate_inv _ _ _ _ _ Hg) as (_ & Hv & Hrecord).
  assert (Hmodules : modules g = getModuleCount (version g))
    by (rewrite Hrecord; reflexivity).
  rewrite Hmodules in Hy. unfold getModuleCount in Hy.
  destruct (finished_matrix_forgets_function_patterns data level forced maskPattern
              g 6 y Hg) as [_ Hcolumn].
  { rewrite Hmodules. unfold isInBounds, getModuleCount. lia. }
  rewrite Hcolumn by reflexivity. clear Hcolumn Hg Hrecord Hmodules.
  unfold functionPatterns, addDarkModule.
  set (n := getModuleCount (version g)).
  assert (Hn : n = 17 + 4 * version g) by reflexivity.
  assert (Hdark : forall m, mget (if isInBounds n 8 (4 * version g + 9)
                                  then mset m 8 (4 * version g + 9) true else m) 6 y
                            = mget m 6 y).
  { intros m. destruct (isInBounds _ _ _); [|done].
    by rewrite mget_mset_other. }
  rewrite Hdark. unfold addTimingPatterns, isEmpty.
  replace (n - 8) with (8 + Z.of_nat (Z.to_nat (n - 16))) by lia.
  rewrite (forZ_mset_column n); try lia.
  - rewrite Z.rem_mod_nonneg by lia. rewrite Zeven_mod. reflexivity.
  - apply (forZ_ind (square n)); [|intros; by apply mset_square].
    apply addAlignmentPatterns_square, addSeparators_square,
      addFinderPatterns_square, initializeMatrix_square. lia.
Qed.

(* ================================================================== *)
(** ** Function patterns in the finished matrix *)
(* ================================================================== *)

(** C2 on the code: for the payload ["1"] at level L (version 1, no forced
    mask) the finished matrix has a light module at the corner (0, 0) of
    the top-left finder pattern, where the pattern is dark; a light module
    at (10, 6), a dark place of the horizontal timing pattern; and a light
    module at (8, 13), the place of the dark module.  [placeDataModules]
    asks [isEmpty], which answers [true] everywhere, and writes data and
    padding over the function patterns; masking then skips these cells.
    The vertical timing pattern, in the column that placement steps over,
    is still there. *)
Theorem function_patterns_are_overwritten :
  exists g, generate (lit "1") L None None = Returns g /\
    version g = 1 /\ modules g = 21 /\
    (mget (functionPatterns 1) 0 0 = true /\ mget (matrix g) 0 0 = false) /\
    (mget (functionPatterns 1) 10 6 = true /\ mget (matrix g) 10 6 = false) /\
    (mget (functionPatterns 1) 8 (4 * 1 + 9) = true /\
     mget (matrix g) 8 (4 * version g + 9) = false) /\
    (mget (functionPatterns 1) 6 10 = true /\ mget (matrix g) 6 10 = true) /\
    isDataModule 21 0 0 = false /\
    isDataModule 21 10 6 = false /\
    isDataModule 21 8 13 = false.
Proof.
  eexists. split; [vm_compute; reflexivity|].
  repeat split; vm_compute; reflexivity.
Qed.

(** The same modules for the forced versions 7 and 40 (the latter with
    the forced mask 0): the corner of the finder pattern, the horizontal
    timing pattern at column 10 and the dark module are light. *)
Example larger_versions_lose_function_patterns :
  finishedModules (generate (lit "1") L (Some 7) None)
    [ (0, 0); (10, 6); (8, 4 * 7 + 9) ] = Some [false; false; false] /\
  finishedModules (generate (lit "1") L (Some 40) (Some 0))
    [ (0, 0); (10, 6); (8, 4 * 40 + 9) ] = Some [false; false; false].
Proof. split; vm_compute; reflexivity. Qed.

(* ================================================================== *)
(** ** The order in which [placeDataModules] visits the matrix *)
(* ================================================================== *)

Lemma at_beyond (data : list Z) (k : Z) : len data <= k -> at_ data k = None.
Proof.
  intros Hk. unfold at_. destruct (k <? 0); [done|].
  apply lookup_ge_None. unfold len in Hk. lia.
Qed.

Section PlacementLayout.

Variables (n : Z) (data : list Z).
Hypothesis Hn : 0 <= n.

(** One column pair: [2 * n] modules are written, the others are kept. *)
Lemma placeColumnPair_layout (col direction t0 : Z) (st : QRMatrix * Z) :
  1 <= col < n -> 0 <= t0 ->
  square n (fst st) -> snd st = Z.min t0 (len data) ->
  let st' := placeColumnPair n data col direction st in
  square n (fst st') /\ snd st' = Z.min (t0 + 2 * n) (len data) /\
  forall x y, isInBounds n x y = true ->
    ((x = col \/ x = col - 1) ->
       forall count, 0 <= count < n -> y = rowAt n direction count ->
       mget (fst st') x y = streamBit data (t0 + 2 * count + (col - x))) /\
    (x <> col -> x <> col - 1 -> mget (fst st') x y = mget (fst st) x y).
Proof.
  intros Hcol Ht0 Hsq Hidx. cbv zeta.
  split; [by apply placeColumnPair_square|].
  assert (Hrow_inj : forall c1 c2, rowAt n direction c1 = rowAt n direction c2 -> c1 = c2).
  { intros c1 c2. unfold rowAt. destruct (direction =? -1); lia. }
  pose (written := fun (k : Z) (x y : Z) =>
          exists count c, 0 <= count < n /\ 0 <= c < 2 /\ 2 * count + c < k /\
            x = col - c /\ y = rowAt n direction count).
  pose (Inv := fun (k : Z) (st' : QRMatrix * Z) =>
          square n (fst st') /\ snd st' = Z.min (t0 + k) (len data) /\
          forall x y, isInBounds n x y = true ->
            (forall count c, 0 <= count < n -> 0 <= c < 2 -> 2 * count + c < k ->
               x = col - c -> y = rowAt n direction count ->
               mget (fst st') x y = streamBit data (t0 + 2 * count + c)) /\
            (~ written k x y -> mget (fst st') x y = mget (fst st) x y)).
  assert (Hloop : Inv (2 * n) (placeColumnPair n data col direction st)).
  { unfold placeColumnPair.
    apply (forZ_ind_index (fun count => Inv (2 * count))); [lia| |].
    - split; [done|]. split; [by rewrite Z.add_0_r|].
      intros x y Hin. split; [intros; lia | done].
    - intros count st1 Hcount Hst1.
      replace (2 * (count + 1)) with (2 * count + 2) by lia.
      apply (forZ_ind_index (fun c => Inv (2 * count + c))); [lia| by rewrite Z.add_0_r |].
      intros c [m2 i2] Hc (Hsq2 & Hidx2 & Hcells). simpl in Hsq2, Hidx2, Hcells.
      unfold placeModule. fold (rowAt n direction count).
      assert (Hin : isInBounds n (col - c) (rowAt n direction count) = true).
      { unfold isInBounds, rowAt. destruct (direction =? -1); lia. }
      rewrite Hin. unfold isEmpty. simpl andb.
      assert (Hbit : (if i2 <? len data
                      then (mset m2 (col - c) (rowAt n direction count)
                              (bool_decide (at_ data i2 = Some 1)), i2 + 1)
                      else (mset m2 (col - c) (rowAt n direction count) false, i2))
                     = (mset m2 (col - c) (rowAt n direction count)
                          (streamBit data (t0 + (2 * count + c))),
                        Z.min (t0 + (2 * count + c + 1)) (len data))).
      { unfold streamBit. destruct (i2 <? len data) eqn:Hlt.
        - apply Z.ltb_lt in Hlt.
          replace (t0 + (2 * count + c)) with i2 by lia. f_equal. lia.
        - apply Z.ltb_ge in Hlt. f_equal; [|lia]. f_equal.
          rewrite at_beyond by lia. reflexivity. }
      rewrite Hbit. clear Hbit.
      split; [by apply mset_square|]. split; [simpl; f_equal; lia|]. simpl.
      intros x y Hxy.
      destruct (decide ((x, y) = (col - c, rowAt n direction count))) as [Heq|Hne].
      + injection Heq as -> ->. rewrite (mget_mset_same n) by done. split.
        * intros count' c' Hcount' Hc' _ Hx Hy.
          apply Hrow_inj in Hy. f_equal. lia.
        * intros Hnot. exfalso. apply Hnot. exists count, c. repeat split; lia.
      + rewrite mget_mset_other by done.
        destruct (Hcells x y Hxy) as [Hdone Htodo]. split.
        * intros count' c' Hcount' Hc' Hlt Hx Hy. apply Hdone; try done.
          destruct (decide (2 * count' + c' = 2 * count + c)) as [Hsame|]; [|lia].
          exfalso. apply Hne. assert (count' = count) by lia. assert (c' = c) by lia.
          by subst.
        * intros Hnot. apply Htodo. intros (count' & c' & H1 & H2 & H3 & H4 & H5).
          apply Hnot. exists count', c'. repeat split; try done; lia. }
  destruct Hloop as (_ & Hidx' & Hcells). split; [done|].
  intros x y Hxy. destruct (Hcells x y Hxy) as [Hdone Htodo]. split.
  - intros Hx count Hcount Hy.
    replace (col - x) with (col - x + 0) by lia.
    assert (Hc : 0 <= col - x < 2) by lia.
    rewrite Z.add_0_r. apply Hdone; try done; try lia.
  - intros Hx1 Hx2. apply Htodo. intros (count & c & _ & Hc & _ & Hx & _). lia.
Qed.

End PlacementLayout.

Lemma odd_half (n : Z) : Z.odd n = true -> exists a, n = 2 * a + 1.
Proof. intros H. apply Z.odd_spec in H. exact H. Qed.

Lemma even_half (n : Z) : Z.even n = true -> exists a, n = 2 * a.
Proof. intros H. apply Z.even_spec in H. exact H. Qed.

(** The modules of the pair that the column loop reaches with [col] have
    the places that follow those of the earlier pairs. *)
Lemma cellIndex_pair (n col x y : Z) :
  Z.odd n = true -> 7 <= n -> loopHead col -> 0 < col < n ->
  let col' := if col =? 6 then col - 1 else col in
  x = col' \/ x = col' - 1 ->
  cellIndex n x y
  = 2 * n * pairsBefore n col
    + 2 * (if Z.even (pairsBefore n col) then n - 1 - y else y) + (col' - x).
Proof.
  intros Hodd Hn Hhead Hcol col' Hx.
  destruct (odd_half n Hodd) as [a ->].
  assert (Hp : (if 6 <? x then (2 * a + 1 - 1 - x) / 2
                else (2 * a + 1 - 7) / 2 + (5 - x) / 2) = pairsBefore (2 * a + 1) col
               /\ (if 6 <? x then (2 * a + 1 - 1 - x) mod 2 else (5 - x) mod 2)
                  = col' - x).
  { unfold pairsBefore. subst col'. revert Hx.
    destruct Hhead as [[Heven H6] | [-> | [-> | ->]]]; [| | |lia].
    - destruct (even_half col Heven) as [b ->].
      destruct (2 * b =? 6) eqn:Hsix; intros Hx.
      + assert (b = 3) by lia. subst b.
        replace (6 <=? 2 * 3) with true by lia.
        assert (Hlow : (6 <? x) = false) by lia. rewrite Hlow.
        split; Z.div_mod_to_equations; lia.
      + assert (4 <= b) by lia.
        replace (6 <=? 2 * b) with true by lia.
        assert (Hhigh : (6 <? x) = true) by lia. rewrite Hhigh.
        split; Z.div_mod_to_equations; lia.
    - change (3 =? 6) with false. cbv iota. intros Hx.
      change (6 <=? 3) with false. cbv iota.
      assert (Hlow : (6 <? x) = false) by lia. rewrite Hlow.
      split; Z.div_mod_to_equations; lia.
    - change (1 =? 6) with false. cbv iota. intros Hx.
      change (6 <=? 1) with false. cbv iota.
      assert (Hlow : (6 <? x) = false) by lia. rewrite Hlow.
      split; Z.div_mod_to_equations; lia. }
  destruct Hp as [Hp Hc]. unfold cellIndex. cbv zeta. rewrite Hp, Hc. reflexivity.
Qed.

Lemma pairsBefore_next (n col : Z) :
  Z.odd n = true -> 7 <= n -> loopHead col -> 0 < col < n ->
  pairsBefore n ((if col =? 6 then col - 1 else col) - 2) = pairsBefore n col + 1.
Proof.
  intros Hodd Hn Hhead Hcol. destruct (odd_half n Hodd) as [a ->].
  unfold pairsBefore.
  destruct Hhead as [[Heven H6] | [-> | [-> | ->]]]; [| | |lia].
  - destruct (even_half col Heven) as [b ->].
    destruct (2 * b =? 6) eqn:Hsix.
    + assert (b = 3) by lia. subst b.
      replace (6 <=? 2 * 3 - 1 - 2) with false by lia.
      replace (6 <=? 2 * 3) with true by lia.
      Z.div_mod_to_equations; lia.
    + assert (4 <= b) by lia.
      replace (6 <=? 2 * b) with true by lia.
      replace (6 <=? 2 * b - 2) with true by lia.
      Z.div_mod_to_equations; lia.
  - simpl. Z.div_mod_to_equations; lia.
  - simpl. Z.div_mod_to_equations; lia.
Qed.

Lemma loopHead_next (col : Z) :
  loopHead col -> 0 < col -> loopHead ((if col =? 6 then col - 1 else col) - 2).
Proof.
  intros Hhead Hcol.
  destruct Hhead as [[Heven H6] | [-> | [-> | ->]]].
  - destruct (col =? 6) eqn:Heq.
    + right. left. lia.
    + assert (col <> 7) by (intros ->; discriminate).
      left. split; [|lia].
      replace (col - 2) with (col + 2 * (-1)) by lia.
      by rewrite Z.even_add_mul_2.
  - right. right. left. reflexivity.
  - right. right. right. reflexivity.
  - lia.
Qed.

Section PlacementOrder.

Variables (n : Z) (data : list Z).
Hypothesis Hodd : Z.odd n = true.
Hypothesis Hn : 7 <= n.

Lemma placeDataModules_loop_layout (fuel : nat) (col direction : Z)
    (st : QRMatrix * Z) :
  loopHead col -> col < n -> (Z.to_nat col <= fuel)%nat ->
  direction = (if Z.even (pairsBefore n col) then -1 else 1) ->
  0 <= pairsBefore n col ->
  square n (fst st) -> snd st = Z.min (2 * n * pairsBefore n col) (len data) ->
  (forall x y, isInBounds n x y = true -> x <> 6 -> col < x ->
     mget (fst st) x y = streamBit data (cellIndex n x y)) ->
  forall x y, isInBounds n x y = true -> x <> 6 ->
    mget (fst (placeDataModules_loop fuel n data col direction st)) x y
    = streamBit data (cellIndex n x y).
Proof.
  revert col direction st.
  induction fuel as [|fuel IH];
    intros col direction st Hhead Hcol Hfuel Hdir Hp Hsq Hidx Hcells x y Hin Hx.
  - simpl. apply Hcells; [done | done |]. unfold isInBounds in Hin.
    destruct Hhead as [[Heven H6] | [-> | [-> | ->]]]; lia.
  - simpl. destruct (col >? 0) eqn:Hpos.
    + assert (Hcol0 : 0 < col < n) by lia.
      set (col' := if col =? 6 then col - 1 else col).
      assert (Hcol' : 1 <= col' < n /\ col - 1 <= col' <= col).
      { subst col'. destruct (col =? 6) eqn:Heq; lia. }
      destruct (placeColumnPair_layout n data ltac:(lia) col' direction
                  (2 * n * pairsBefore n col) st ltac:(lia) ltac:(nia) Hsq Hidx)
        as (Hsq' & Hidx' & Hcells').
      pose proof (pairsBefore_next n col Hodd Hn Hhead Hcol0) as Hnext.
      fold col' in Hnext.
      apply IH; [ apply loopHead_next; [done | lia] | lia | lia | | lia | exact Hsq'
                | | | exact Hin | exact Hx ].
      * rewrite Hnext, Hdir.
        replace (pairsBefore n col + 1) with (Z.succ (pairsBefore n col)) by lia.
        rewrite Z.even_succ, <- Z.negb_even.
        by destruct (Z.even (pairsBefore n col)).
      * rewrite Hidx', Hnext. f_equal. lia.
      * intros x' y' Hin' Hx' Hlow.
        destruct (Hcells' x' y' Hin') as [Hnew Hold].
        destruct (decide (x' = col' \/ x' = col' - 1)) as [Hpair | Hnot].
        -- pose proof (cellIndex_pair n col x' y' Hodd Hn Hhead Hcol0 Hpair) as Hindex.
           fold col' in Hindex. rewrite Hindex.
           unfold isInBounds in Hin'.
           rewrite (Hnew Hpair (if Z.even (pairsBefore n col) then n - 1 - y' else y')).
           ++ f_equal.
           ++ destruct (Z.even (pairsBefore n col)); lia.
           ++ unfold rowAt. rewrite Hdir.
              destruct (Z.even (pairsBefore n col)); simpl; lia.
        -- rewrite Hold by tauto. apply Hcells; [done | done |].
           subst col'. destruct (col =? 6) eqn:Heq; lia.
    + apply Hcells; [done | done |]. unfold isInBounds in Hin.
      destruct Hhead as [[Heven H6] | [-> | [-> | ->]]]; lia.
Qed.

End PlacementOrder.

Lemma placeDataModules_cells (n : Z) (m : QRMatrix) (data : list Z) (x y : Z) :
  Z.odd n = true -> 7 <= n -> square n m -> isInBounds n x y = true -> x <> 6 ->
  mget (placeDataModules n m data) x y = streamBit data (cellIndex n x y).
Proof.
  intros Hodd Hn Hm Hin Hx. unfold placeDataModules.
  destruct (odd_half n Hodd) as [a Ha].
  assert (Hzero : pairsBefore n (n - 1) = 0).
  { unfold pairsBefore. replace (6 <=? n - 1) with true by lia.
    replace (n - 1 - (n - 1)) with 0 by lia. reflexivity. }
  apply (placeDataModules_loop_layout n data Hodd Hn); try done.
  - left. split; [|lia]. subst n. replace (2 * a + 1 - 1) with (0 + 2 * a) by lia.
    by rewrite Z.even_add_mul_2.
  - lia.
  - lia.
  - by rewrite Hzero.
  - lia.
  - rewrite Hzero. simpl. unfold len. lia.
  - intros x' y' Hin' _ Hlow. unfold isInBounds in Hin'. lia.
Qed.

(** The places are those of the [n * (n - 1)] modules outside of column 6,
    each taken once. *)
Lemma cellAt_cellIndex (n k : Z) :
  Z.odd n = true -> 7 <= n -> 0 <= k < n * (n - 1) ->
  isInBounds n (fst (cellAt n k)) (snd (cellAt n k)) = true /\
  fst (cellAt n k) <> 6 /\
  cellIndex n (fst (cellAt n k)) (snd (cellAt n k)) = k.
Proof.
  intros Hodd Hn Hk. destruct (odd_half n Hodd) as [a ->].
  unfold cellAt. cbv zeta.
  pose proof (Z.div_mod k (2 * (2 * a + 1)) ltac:(lia)) as Hdm.
  pose proof (Z.mod_pos_bound k (2 * (2 * a + 1)) ltac:(lia)) as Hr.
  set (p := k / (2 * (2 * a + 1))) in *.
  set (r := k mod (2 * (2 * a + 1))) in *.
  assert (Hp : 0 <= p < a) by nia.
  replace ((2 * a + 1 - 7) / 2) with (a - 3) by (Z.div_mod_to_equations; lia).
  pose proof (Z.div_mod r 2 ltac:(lia)) as Hdm2.
  pose proof (Z.mod_pos_bound r 2 ltac:(lia)) as Hc.
  set (count := r / 2) in *. set (c := r mod 2) in *.
  assert (Hcount : 0 <= count < 2 * a + 1) by lia.
  simpl fst. simpl snd.
  set (col := if p <? a - 3 then 2 * a + 1 - 1 - 2 * p else 5 - 2 * (p - (a - 3))).
  assert (Hcol : (p < a - 3 /\ col = 2 * a - 2 * p /\ 8 <= col)
                 \/ (a - 3 <= p /\ col = 5 - 2 * (p - (a - 3)) /\ 1 <= col <= 5)).
  { subst col. destruct (p <? a - 3) eqn:Hlt; [left | right]; lia. }
  split; [|split].
  - unfold isInBounds. destruct (Z.even p); destruct Hcol; lia.
  - destruct Hcol as [? | ?]; [lia|].
    assert (col = 5 \/ col = 3 \/ col = 1) by lia. lia.
  - unfold cellIndex. cbv zeta.
    replace ((2 * a + 1 - 7) / 2) with (a - 3) by (Z.div_mod_to_equations; lia).
    assert (Hpx : (if 6 <? col - c then (2 * a + 1 - 1 - (col - c)) / 2
                   else a - 3 + (5 - (col - c)) / 2) = p
                  /\ (if 6 <? col - c then (2 * a + 1 - 1 - (col - c)) mod 2
                      else (5 - (col - c)) mod 2) = c).
    { destruct Hcol as [(Hlt & -> & H8) | (Hge & -> & H5)].
      - replace (6 <? 2 * a - 2 * p - c) with true by lia.
        split; Z.div_mod_to_equations; lia.
      - replace (6 <? 5 - 2 * (p - (a - 3)) - c) with false by lia.
        split; Z.div_mod_to_equations; lia. }
    destruct Hpx as [-> ->].
    destruct (Z.even p); lia.
Qed.

Lemma cellIndex_cellAt (n x y : Z) :
  Z.odd n = true -> 7 <= n -> isInBounds n x y = true -> x <> 6 ->
  0 <= cellIndex n x y < n * (n - 1) /\ cellAt n (cellIndex n x y) = (x, y).
Proof.
  intros Hodd Hn Hin Hx. destruct (odd_half n Hodd) as [a ->].
  unfold isInBounds in Hin.
  unfold cellIndex. cbv zeta.
  replace ((2 * a + 1 - 7) / 2) with (a - 3) by (Z.div_mod_to_equations; lia).
  set (p := if 6 <? x then (2 * a + 1 - 1 - x) / 2 else a - 3 + (5 - x) / 2).
  set (c := if 6 <? x then (2 * a + 1 - 1 - x) mod 2 else (5 - x) mod 2).
  set (count := if Z.even p then 2 * a + 1 - 1 - y else y).
  assert (Hpc : 0 <= p < a /\ 0 <= c < 2 /\
                ((6 < x /\ p < a - 3 /\ x = 2 * a - 2 * p - c)
                 \/ (x < 6 /\ a - 3 <= p /\ x = 5 - 2 * (p - (a - 3)) - c))).
  { subst p c. destruct (6 <? x) eqn:H6.
    - split; [Z.div_mod_to_equations; lia|]. split; [Z.div_mod_to_equations; lia|].
      left. split; [lia|]. split; Z.div_mod_to_equations; lia.
    - split; [Z.div_mod_to_equations; lia|]. split; [Z.div_mod_to_equations; lia|].
      right. split; [lia|]. split; Z.div_mod_to_equations; lia. }
  destruct Hpc as (Hp & Hc & Hcases).
  assert (Hcount : 0 <= count < 2 * a + 1) by (subst count; destruct (Z.even p); lia).
  split; [nia|].
  unfold cellAt. cbv zeta.
  replace ((2 * a + 1 - 7) / 2) with (a - 3) by (Z.div_mod_to_equations; lia).
  assert (Hdiv : (2 * (2 * a + 1) * p + 2 * count + c) / (2 * (2 * a + 1)) = p).
  { symmetry. apply (Z.div_unique _ _ p (2 * count + c)); lia. }
  assert (Hmod : (2 * (2 * a + 1) * p + 2 * count + c) mod (2 * (2 * a + 1))
                 = 2 * count + c).
  { symmetry. apply (Z.mod_unique _ _ p (2 * count + c)); lia. }
  rewrite Hdiv, Hmod.
  replace ((2 * count + c) / 2) with count by (Z.div_mod_to_equations; lia).
  replace ((2 * count + c) mod 2) with c by (Z.div_mod_to_equations; lia).
  f_equal.
  - destruct Hcases as [(H6 & Hlt & Hxeq) | (H6 & Hge & Hxeq)].
    + replace (p <? a - 3) with true by lia. lia.
    + replace (p <? a - 3) with false by lia. lia.
  - subst count. destruct (Z.even p); lia.
Qed.

(* ------------------------------------------------------------------ *)
(** Bits *)

Lemma band_1_bit (z : Z) : isBit (band z 1).
Proof.
  unfold band, isBit. change (toInt32 1) with (Z.ones 1).
  rewrite Z.land_ones by lia. change (2 ^ 1) with 2.
  Z.div_mod_to_equations; lia.
Qed.

Lemma toBits_isBit (num bitCount : Z) : Forall isBit (toBits num bitCount).
Proof.
  unfold toBits. apply Forall_map, Forall_forall. intros i _. apply band_1_bit.
Qed.

Lemma encodeNumeric_isBit (data : jsstring) : Forall isBit (encodeNumeric data).
Proof.
  unfold encodeNumeric. generalize (length data) 0 (@nil Z) (Forall_nil_2 isBit).
  intros fuel. induction fuel as [|fuel IH]; intros i bits Hbits; simpl; [done|].
  destruct (i <? len data); [|done]. apply IH.
  destruct (len _ =? 3); [|destruct (len _ =? 2)];
    apply Forall_app; (split; [done | apply toBits_isBit]).
Qed.

Lemma encodeAlphanumeric_isBit (data : jsstring) : Forall isBit (encodeAlphanumeric data).
Proof.
  unfold encodeAlphanumeric. generalize (length data) 0 (@nil Z) (Forall_nil_2 isBit).
  intros fuel. induction fuel as [|fuel IH]; intros i bits Hbits; simpl; [done|].
  destruct (i <? len data); [|done]. apply IH.
  destruct (i + 1 <? len data);
    apply Forall_app; (split; [done | apply toBits_isBit]).
Qed.

Lemma encodeByte_isBit (data : jsstring) : Forall isBit (encodeByte data).
Proof.
  unfold encodeByte. apply (forZ_ind (Forall isBit)); [done|].
  intros i bits _ Hbits. apply Forall_app. split; [done | apply toBits_isBit].
Qed.

Lemma encodeData_isBit (data : jsstring) : Forall isBit (encodeData data).
Proof.
  rewrite encodeData_unfold. repeat (apply Forall_app; split); try apply toBits_isBit.
  unfold packedPayload. destruct (detectDataMode data);
    [apply encodeNumeric_isBit | apply encodeAlphanumeric_isBit
     | apply encodeByte_isBit | done].
Qed.

Lemma streamBit_value (stream : list Z) (k : Z) :
  Forall isBit stream -> 0 <= k < len stream ->
  at_ stream k = Some (if streamBit stream k then 1 else 0).
Proof.
  intros Hbits Hk. unfold streamBit, at_.
  replace (k <? 0) with false by lia.
  destruct (stream !! Z.to_nat k) as [b|] eqn:Hb.
  - rewrite Forall_forall in Hbits.
    destruct (Hbits b) as [-> | ->]; [eapply list_elem_of_lookup_2; exact Hb| |].
    + rewrite bool_decide_eq_false_2 by discriminate. reflexivity.
    + rewrite bool_decide_eq_true_2 by reflexivity. reflexivity.
  - apply lookup_ge_None in Hb. unfold len in Hk. lia.
Qed.

(** Every module of a finished matrix, from the payload and the mask. *)
Lemma generate_cells (data : jsstring) (level : ErrorCorrectionLevel.t)
    (forced maskPattern : option Z) (g : generated) (x y : Z) :
  generate data level forced maskPattern = Returns g ->
  isInBounds (modules g) x y = true ->
  (x <> 6 ->
   mget (matrix g) x y
   = xorb (streamBit (encodeData data) (cellIndex (modules g) x y))
       (isDataModule (modules g) x y
        && shouldApplyMask x y (QRGenerator.maskPattern g))) /\
  (x = 6 -> mget (matrix g) x y = mget (functionPatterns (version g)) x y).
Proof.
  intros Hg Hin. apply generate_inv in Hg as (_ & Hv & Hg).
  set (n := getModuleCount (version g)) in *.
  assert (Hn : 7 <= n) by (unfold n, getModuleCount; lia).
  assert (Hodd : Z.odd n = true) by apply getModuleCount_odd.
  assert (Hmodules : modules g = n) by (rewrite Hg; reflexivity).
  assert (Hmatrix : matrix g
                    = applyMaskToMatrix n (buildMatrix data (version g))
                        (QRGenerator.maskPattern g)).
  { rewrite Hg at 1. simpl. unfold applyMask. f_equal. rewrite Hg at 2. reflexivity. }
  rewrite Hmodules in *. rewrite Hmatrix.
  assert (Hsq : square n (functionPatterns (version g)))
    by (apply (functionPatterns_square (version g)); fold n; lia).
  split.
  - intros Hx.
    rewrite (applyMaskToMatrix_cell n) by (try done; apply buildMatrix_square; fold n; lia).
    unfold buildMatrix, addErrorCorrection. fold n.
    rewrite (placeDataModules_cells n) by done.
    destruct (isDataModule n x y && shouldApplyMask x y (QRGenerator.maskPattern g));
      destruct (streamBit _ _); reflexivity.
  - intros ->. rewrite applyMaskToMatrix_frame
      by (apply isDataModule_false; right; left; reflexivity).
    unfold buildMatrix, addErrorCorrection. fold n.
    by rewrite placeDataModules_keeps_column_6.
Qed.

(** When the stream is no longer than the [n * (n - 1)] modules outside of
    column 6, each of its bits is read back from the finished matrix. *)
Lemma generate_readable (data : jsstring) (level : ErrorCorrectionLevel.t)
    (forced maskPattern : option Z) (g : generated) (k : Z) :
  generate data level forced maskPattern = Returns g ->
  len (encodeData data) <= modules g * (modules g - 1) ->
  0 <= k < len (encodeData data) ->
  let x := fst (cellAt (modules g) k) in
  let y := snd (cellAt (modules g) k) in
  isInBounds (modules g) x y = true /\ x <> 6 /\
  at_ (encodeData data) k
  = Some (if xorb (mget (matrix g) x y)
               (isDataModule (modules g) x y
                && shouldApplyMask x y (QRGenerator.maskPattern g))
          then 1 else 0).
Proof.
  intros Hg Hfits Hk x y.
  pose proof (generate_inv _ _ _ _ _ Hg) as (_ & Hv & Hrecord).
  assert (Hmodules : modules g = getModuleCount (version g))
    by (rewrite Hrecord; reflexivity).
  assert (Hn : 7 <= modules g) by (rewrite Hmodules; unfold getModuleCount; lia).
  assert (Hodd : Z.odd (modules g) = true)
    by (rewrite Hmodules; apply getModuleCount_odd).
  destruct (cellAt_cellIndex (modules g) k Hodd Hn ltac:(lia)) as (Hin & Hx & Hindex).
  fold x y in Hin, Hx, Hindex.
  split; [done|]. split; [done|].
  destruct (generate_cells data level forced maskPattern g x y Hg Hin) as [Hcell _].
  rewrite (Hcell Hx), Hindex.
  rewrite (streamBit_value _ k (encodeData_isBit data) Hk).
  destruct (streamBit (encodeData data) k);
    destruct (isDataModule _ _ _ && shouldApplyMask _ _ _); reflexivity.
Qed.

Lemma packedBits_bound (mode : DataMode.t) (n : Z) :
  0 <= n -> Spec.packedBits mode n <= 8 * n.
Proof.
  intros Hn. unfold Spec.packedBits. destruct mode; try lia.
  - destruct (n mod 3 =? 1) eqn:H1; [|destruct (n mod 3 =? 2) eqn:H2];
      Z.div_mod_to_equations; lia.
  - Z.div_mod_to_equations; lia.
Qed.

Lemma encodeData_length (data : jsstring) :
  len (encodeData data)
  = 4 + getCharCountBits (detectDataMode data)
    + Spec.packedBits (detectDataMode data) (len data).
Proof.
  unfold len at 1.
  rewrite encodeData_unfold, !length_app, !toBits_length, !Nat2Z.inj_add.
  rewrite packedPayload_length.
  destruct (detectDataMode data); simpl; lia.
Qed.

(* ================================================================== *)
(** ** Forced versions, versions by length, masks and penalties *)
(* ================================================================== *)

(** X5: [QRGenerator.generate] with a forced version.  A version of 1..40 is
    taken as it is, whatever the length of the (non-empty) payload: no
    capacity is checked, and the matrix is the square of side
    [17 + 4 * version].  A version below 0 or above 40 throws "Version must
    be between 1 and 40".  Version 0 is falsy and means automatic
    selection. *)
Theorem generate_forced_version (data : jsstring) (level : ErrorCorrectionLevel.t)
    (v : Z) (maskPattern : option Z) :
  data <> [] ->
  (1 <= v <= 40 ->
     exists g, generate data level (Some v) maskPattern = Returns g /\
       version g = v /\ modules g = 17 + 4 * v /\ square (17 + 4 * v) (matrix g)) /\
  (v < 0 \/ 40 < v ->
     generate data level (Some v) maskPattern
     = Throws "Version must be between 1 and 40") /\
  generate data level (Some 0) maskPattern = generate data level None maskPattern.
Proof.
  intros Hne. split; [|split].
  - intros Hv.
    assert (Htruthy : truthy (Some v) = Some v)
      by (simpl; replace (v =? 0) with false by lia; reflexivity).
    eexists. split.
    + apply (generate_resolved data level (Some v) maskPattern v);
        [by rewrite Htruthy | done | done].
    + simpl. split; [done|]. split; [done|].
      unfold applyMask. apply applyMaskToMatrix_square.
      apply (buildMatrix_square data v). unfold getModuleCount. lia.
  - intros Hv. unfold generate. simpl truthy.
    replace (v =? 0) with false by lia.
    unfold mbind, outcome_bind, validateInput.
    rewrite bool_decide_eq_false_2 by done.
    unfold VALIDATION.MIN_VERSION, VALIDATION.MAX_VERSION.
    replace ((v <? 1) || (v >? 40)) with true by lia. reflexivity.
  - reflexivity.
Qed.

(** X6: with no forced version [QRGenerator.generate] picks the version by
    the length of the payload alone, whatever its mode: 10, 8, 6 or 4
    characters per version step at levels L, M, Q, H, so the version is the
    length divided by the step, rounded up; beyond 40 steps it throws "Data
    too long for QR code". *)
Theorem generate_version_by_length (data : jsstring) (level : ErrorCorrectionLevel.t)
    (maskPattern : option Z) :
  data <> [] ->
  let step := charactersPerVersion level in
  (len data <= 40 * step ->
     exists g, generate data level None maskPattern = Returns g /\
       version g = (len data + step - 1) / step) /\
  (40 * step < len data ->
     generate data level None maskPattern = Throws "Data too long for QR code").
Proof.
  intros Hne step.
  assert (Hlen : 1 <= len data).
  { unfold len. destruct data; [done | simpl; lia]. }
  assert (Hstep : step = 10 \/ step = 8 \/ step = 6 \/ step = 4)
    by (subst step; destruct level; simpl; lia).
  assert (Hcap : forall v, 1 <= v <= 40 ->
            getCapacity v level (detectDataMode data) = step * v).
  { intros v Hv. rewrite getCapacity_closed_form by done.
    subst step. destruct level; simpl; lia. }
  split.
  - intros Hfits. set (v := (len data + step - 1) / step).
    assert (Hv : 1 <= v <= 40 /\ len data <= step * v /\ step * (v - 1) < len data).
    { subst v. destruct Hstep as [-> | [-> | [-> | ->]]];
        Z.div_mod_to_equations; lia. }
    assert (Hdet : determineVersion data level = Returns v).
    { unfold determineVersion.
      apply (determineVersion_loop_first _ _ _ 40 1 v); [lia| |].
      - rewrite Hcap by lia. lia.
      - intros v' Hv'. rewrite Hcap by lia. nia. }
    eexists. split.
    + apply (generate_resolved data level None maskPattern v); [exact Hdet | done | lia].
    + reflexivity.
  - intros Hlong. unfold generate. simpl truthy. unfold determineVersion.
    rewrite (determineVersion_loop_none _ _ _ 40 1); [reflexivity|].
    intros v Hv. rewrite Hcap by lia. nia.
Qed.

(** X7: with a forced version the error correction level changes nothing but
    the level reported in the answer: the matrix, the version, the mask and
    the side are the same at every level ([addErrorCorrection] and
    [addFormatInfo] add nothing that depends on it). *)
Theorem generate_matrix_ignores_level (data : jsstring) (level level' : ErrorCorrectionLevel.t)
    (v : Z) (maskPattern : option Z) (g : generated) :
  v <> 0 ->
  generate data level (Some v) maskPattern = Returns g ->
  generate data level' (Some v) maskPattern
  = Returns (mkGenerated (matrix g) (version g) level' (QRGenerator.maskPattern g)
               (modules g)).
Proof.
  intros Hv Hg.
  pose proof (generate_version _ _ _ _ _ Hg) as Hversion.
  pose proof (generate_inv _ _ _ _ _ Hg) as (Hne & Hrange & Hrecord).
  cbn [truthy] in Hversion. replace (v =? 0) with false in Hversion by lia.
  injection Hversion as Hversion.
  assert (Hforced : match truthy (Some v) with
                    | Some v' => Returns v'
                    | None => determineVersion data level'
                    end = Returns (version g)).
  { cbn [truthy]. replace (v =? 0) with false by lia. by rewrite Hversion. }
  rewrite (generate_resolved data level' (Some v) maskPattern (version g)
             Hforced Hne Hrange).
  pose proof (f_equal matrix Hrecord) as Hm.
  pose proof (f_equal QRGenerator.maskPattern Hrecord) as Hp.
  pose proof (f_equal modules Hrecord) as Hmod.
  cbn [matrix QRGenerator.maskPattern modules] in Hm, Hp, Hmod.
  rewrite Hm, Hp, Hmod. reflexivity.
Qed.

(* ------------------------------------------------------------------ *)
(** Matrices with the same modules are equal *)

Lemma mget_lookup (n : Z) (m : QRMatrix) (i j : nat) (row : list bool) :
  m !! i = Some row ->
  mget m (Z.of_nat j) (Z.of_nat i) = default false (row !! j).
Proof.
  intros Hrow. unfold mget.
  rewrite (proj2 (Z.ltb_ge (Z.of_nat j) 0)) by lia.
  rewrite (proj2 (Z.ltb_ge (Z.of_nat i) 0)) by lia.
  simpl orb. cbv iota.
  rewrite !Nat2Z.id, Hrow. by destruct (row !! j).
Qed.

Lemma matrix_ext (n : Z) (m1 m2 : QRMatrix) :
  square n m1 -> square n m2 ->
  (forall x y, isInBounds n x y = true -> mget m1 x y = mget m2 x y) ->
  m1 = m2.
Proof.
  intros [Hlen1 Hrows1] [Hlen2 Hrows2] Hcells.
  rewrite Forall_forall in Hrows1, Hrows2.
  apply list_eq. intros i.
  destruct (m1 !! i) as [row1|] eqn:H1; destruct (m2 !! i) as [row2|] eqn:H2.
  - f_equal.
    assert (Hl1 : Z.of_nat (length row1) = n)
      by (apply Hrows1; eapply list_elem_of_lookup_2; exact H1).
    assert (Hl2 : Z.of_nat (length row2) = n)
      by (apply Hrows2; eapply list_elem_of_lookup_2; exact H2).
    apply lookup_lt_Some in H1 as Hi.
    apply list_eq. intros j.
    destruct (row1 !! j) as [b1|] eqn:Hb1; destruct (row2 !! j) as [b2|] eqn:Hb2.
    + apply lookup_lt_Some in Hb1 as Hj.
      specialize (Hcells (Z.of_nat j) (Z.of_nat i)).
      rewrite (mget_lookup n m1 i j row1 H1), (mget_lookup n m2 i j row2 H2) in Hcells.
      rewrite Hb1, Hb2 in Hcells. simpl in Hcells. f_equal. apply Hcells.
      unfold isInBounds. lia.
    + apply lookup_lt_Some in Hb1. apply lookup_ge_None in Hb2. lia.
    + apply lookup_ge_None in Hb1. apply lookup_lt_Some in Hb2. lia.
    + reflexivity.
  - apply lookup_lt_Some in H1. apply lookup_ge_None in H2. lia.
  - apply lookup_ge_None in H1. apply lookup_lt_Some in H2. lia.
  - reflexivity.
Qed.

(** X8: applying the same mask twice to a square matrix gives the matrix
    back. *)
Theorem applyMask_involutive (n : Z) (m : QRMatrix) (pattern : Z) :
  square n m ->
  applyMaskToMatrix n (applyMaskToMatrix n m pattern) pattern = m.
Proof.
  intros Hm. apply (matrix_ext n); [|done|].
  - by do 2 apply applyMaskToMatrix_square.
  - intros x y Hin.
    rewrite !(applyMaskToMatrix_cell n) by (try done; by apply applyMaskToMatrix_square).
    destruct (isDataModule n x y && shouldApplyMask x y pattern); [|done].
    apply negb_involutive.
Qed.

(* ------------------------------------------------------------------ *)
(** Penalties do not tell the colours apart *)

Lemma forZ_ext {St : Type} (lo hi : Z) (f g : Z -> St -> St) (s : St) :
  (forall i s, lo <= i < hi -> f i s = g i s) ->
  forZ lo hi f s = forZ lo hi g s.
Proof.
  intros Hfg. unfold forZ.
  assert (Hin : Forall (fun i => lo <= i < hi) (seqZ lo (hi - lo))).
  { apply Forall_seqZ. intros; lia. }
  revert s. induction Hin as [|i l Hi _ IH]; intros s; simpl; [done|].
  rewrite Hfg by done. apply IH.
Qed.

Lemma mget_inverted (n : Z) (m : QRMatrix) (x y : Z) :
  square n m -> isInBounds n x y = true ->
  mget (inverted m) x y = negb (mget m x y).
Proof.
  intros [Hlen Hrows] Hin. unfold isInBounds in Hin. unfold mget, inverted.
  replace ((x <? 0) || (y <? 0)) with false by lia.
  rewrite list_lookup_fmap.
  destruct (m !! Z.to_nat y) as [row|] eqn:Hrow; simpl.
  - rewrite list_lookup_fmap.
    destruct (row !! Z.to_nat x) as [b|] eqn:Hb; simpl; [done|].
    rewrite Forall_forall in Hrows.
    assert (Z.of_nat (length row) = n)
      by (apply Hrows; eapply list_elem_of_lookup_2; exact Hrow).
    apply lookup_ge_None in Hb. lia.
  - apply lookup_ge_None in Hrow. lia.
Qed.

Lemma scanLine_ext (n : Z) (cell cell' : Z -> bool) (penalty : Z) :
  (forall i, 0 <= i < n -> cell' i = negb (cell i)) ->
  scanLine n cell' penalty = scanLine n cell penalty.
Proof.
  intros Hcell. unfold scanLine.
  rewrite (forZ_ext 1 n _
             (fun i '(penalty, count) =>
                if eqb (cell i) (cell (i - 1)) then (penalty, count + 1)
                else ((if count >=? 5 then penalty + (count - 2) else penalty), 1)));
    [reflexivity|].
  intros i [p c] Hi. rewrite !Hcell by lia.
  by destruct (cell i), (cell (i - 1)).
Qed.

(** X9: the penalties of a square matrix (runs of like modules, 2x2 blocks,
    and their sum) are those of the matrix with every module inverted. *)
Theorem mask_penalty_ignores_colour (n : Z) (m : QRMatrix) :
  square n m ->
  calculateAdjacentPenalty n (inverted m) = calculateAdjacentPenalty n m /\
  calculateBlockPenalty n (inverted m) = calculateBlockPenalty n m /\
  calculateMaskPenalty n (inverted m) = calculateMaskPenalty n m.
Proof.
  intros Hm.
  assert (Hcell : forall x y, 0 <= x < n -> 0 <= y < n ->
            mget (inverted m) x y = negb (mget m x y)).
  { intros x y Hx Hy. apply (mget_inverted n); [done|]. unfold isInBounds. lia. }
  assert (Hadjacent : calculateAdjacentPenalty n (inverted m)
                      = calculateAdjacentPenalty n m).
  { unfold calculateAdjacentPenalty. cbv zeta.
    assert (Hrows : forZ 0 n (fun y penalty =>
                      scanLine n (fun x => mget (inverted m) x y) penalty) 0
                    = forZ 0 n (fun y penalty =>
                        scanLine n (fun x => mget m x y) penalty) 0).
    { apply forZ_ext. intros y penalty Hy. apply scanLine_ext.
      intros x Hx. by apply Hcell. }
    rewrite Hrows. apply forZ_ext. intros x penalty Hx. apply scanLine_ext.
    intros y Hy. by apply Hcell. }
  assert (Hblock : calculateBlockPenalty n (inverted m) = calculateBlockPenalty n m).
  { unfold calculateBlockPenalty.
    apply forZ_ext. intros y penalty Hy.
    apply forZ_ext. intros x penalty' Hx.
    rewrite !Hcell by lia.
    by destruct (mget m x y), (mget m (x + 1) y), (mget m x (y + 1)),
         (mget m (x + 1) (y + 1)). }
  split; [done|]. split; [done|].
  unfold calculateMaskPenalty. cbv zeta. by rewrite Hadjacent, Hblock.
Qed.

(* ================================================================== *)
(** ** What the encoders write *)
(* ================================================================== *)

Lemma binary_foldl (width : nat) (value acc : Z) :
  0 <= value ->
  foldl (fun acc b => 2 * acc + b) acc (Spec.binary width value)
  = acc * 2 ^ Z.of_nat width + value mod 2 ^ Z.of_nat width.
Proof.
  intros Hv. revert acc. induction width as [|w IH]; intros acc.
  - simpl. rewrite Z.mod_1_r. lia.
  - cbn [Spec.binary foldl]. rewrite IH.
    replace (Z.of_nat (S w)) with (Z.of_nat w + 1) by lia.
    rewrite Z.pow_add_r by lia. change (2 ^ 1) with 2.
    rewrite (Z.rem_mul_r value (2 ^ Z.of_nat w) 2) by lia. lia.
Qed.

Lemma binary_value (width : nat) (value : Z) :
  0 <= value -> bitsValue (Spec.binary width value) = value mod 2 ^ Z.of_nat width.
Proof. intros Hv. unfold bitsValue. rewrite binary_foldl by done. lia. Qed.

Lemma binary_inj (width : nat) (v1 v2 : Z) :
  0 <= v1 < 2 ^ Z.of_nat width -> 0 <= v2 < 2 ^ Z.of_nat width ->
  Spec.binary width v1 = Spec.binary width v2 -> v1 = v2.
Proof.
  intros H1 H2 Heq. apply (f_equal bitsValue) in Heq.
  rewrite !binary_value in Heq by lia. rewrite !Z.mod_small in Heq by lia. done.
Qed.

Lemma toBits_numeral (num bitCount : Z) :
  0 <= num < 2 ^ 31 -> 0 <= bitCount <= 32 ->
  length (toBits num bitCount) = Z.to_nat bitCount /\
  Forall isBit (toBits num bitCount) /\
  bitsValue (toBits num bitCount) = num mod 2 ^ bitCount /\
  (num < 2 ^ bitCount -> bitsValue (toBits num bitCount) = num).
Proof.
  intros Hnum Hcount.
  assert (Hvalue : bitsValue (toBits num bitCount) = num mod 2 ^ bitCount).
  { rewrite <- (Z2Nat.id bitCount) at 1 by lia.
    rewrite toBits_binary by (try done; lia).
    rewrite binary_value by lia. by rewrite Z2Nat.id by lia. }
  split; [apply toBits_length|]. split.
  - unfold toBits. apply Forall_map, Forall_forall. intros i _.
    unfold band, isBit. change (toInt32 1) with (Z.ones 1).
    rewrite Z.land_ones by lia. change (2 ^ 1) with 2.
    Z.div_mod_to_equations; lia.
  - split; [done|]. intros Hsmall. rewrite Hvalue. apply Z.mod_small. lia.
Qed.

(* ------------------------------------------------------------------ *)
(** Alphanumeric packing *)

Lemma indexOf_alphanumericValue (c : Z) :
  Spec.inAlphanumericSet c ->
  indexOf alphanumericChars (Some c) = alphanumericValue c /\
  0 <= alphanumericValue c < 45.
Proof.
  intros Hin. apply list_elem_of_In in Hin. vm_compute in Hin.
  repeat (destruct Hin as [<- | Hin]; [split; [reflexivity | vm_compute; split; congruence]|]).
  done.
Qed.

Lemma at_drop (data : jsstring) (i : Z) (k : nat) :
  0 <= i -> at_ data (i + Z.of_nat k) = drop (Z.to_nat i) data !! k.
Proof.
  intros Hi. unfold at_. rewrite (proj2 (Z.ltb_ge (i + Z.of_nat k) 0)) by lia.
  rewrite lookup_drop. f_equal. lia.
Qed.

Lemma encodeAlphanumeric_loop_spec (fuel : nat) (data : jsstring) (i : Z)
    (bits : list Z) :
  0 <= i ->
  Forall Spec.inAlphanumericSet (drop (Z.to_nat i) data) ->
  (length (drop (Z.to_nat i) data) <= fuel)%nat ->
  encodeAlphanumeric_loop fuel data i bits
  = bits ++ packAlphanumeric (drop (Z.to_nat i) data).
Proof.
  revert i bits. induction fuel as [|fuel IH]; intros i bits Hi Hset Hfuel.
  - destruct (drop (Z.to_nat i) data); simpl in *; [by rewrite app_nil_r | lia].
  - cbn [encodeAlphanumeric_loop].
    assert (Hnext : drop (Z.to_nat (i + 2)) data = drop 2 (drop (Z.to_nat i) data)).
    { rewrite drop_drop. f_equal. lia. }
    assert (Hlen : Z.of_nat (length (drop (Z.to_nat i) data)) = Z.max 0 (len data - i)).
    { rewrite length_drop. unfold len. lia. }
    pose proof (at_drop data i 0 Hi) as H0. rewrite Z.add_0_r in H0.
    pose proof (at_drop data i 1 Hi) as H1. change (Z.of_nat 1) with 1 in H1.
    destruct (drop (Z.to_nat i) data) as [|c1 rest] eqn:Hsuffix.
    { simpl in Hlen. replace (i <? len data) with false by lia. by rewrite app_nil_r. }
    simpl length in Hlen. replace (i <? len data) with true by lia.
    apply Forall_cons in Hset as [Hc1 Hset].
    destruct (indexOf_alphanumericValue c1 Hc1) as [Hv1 Hr1].
    rewrite H0. simpl lookup. rewrite Hv1.
    destruct rest as [|c2 rest].
    + simpl length in Hlen. replace (i + 1 <? len data) with false by lia.
      rewrite (IH (i + 2)); [|lia| |]; rewrite ?Hnext; simpl; [|constructor|lia].
      rewrite app_nil_r. f_equal.
      change 6 with (Z.of_nat 6). apply toBits_binary; [|lia].
      change (2 ^ 31) with 2147483648. lia.
    + simpl length in Hlen. replace (i + 1 <? len data) with true by lia.
      apply Forall_cons in Hset as [Hc2 Hset].
      destruct (indexOf_alphanumericValue c2 Hc2) as [Hv2 Hr2].
      rewrite H1. simpl lookup. rewrite Hv2.
      rewrite (IH (i + 2));
        [ | lia | rewrite Hnext; exact Hset
          | rewrite Hnext; change (drop 2 (c1 :: c2 :: rest)) with rest;
            simpl in Hfuel; lia ].
      rewrite Hnext. change (drop 2 (c1 :: c2 :: rest)) with rest.
      rewrite <- app_assoc. f_equal.
      change (packAlphanumeric (c1 :: c2 :: rest))
        with (Spec.binary 11 (45 * alphanumericValue c1 + alphanumericValue c2)
              ++ packAlphanumeric rest).
      f_equal. rewrite (Z.mul_comm (alphanumericValue c1) 45).
      change 11 with (Z.of_nat 11). apply toBits_binary; [|lia].
      change (2 ^ 31) with 2147483648. lia.
Qed.

Lemma encodeAlphanumeric_packs (data : jsstring) :
  Forall Spec.inAlphanumericSet data -> encodeAlphanumeric data = packAlphanumeric data.
Proof.
  intros Hset. unfold encodeAlphanumeric.
  rewrite encodeAlphanumeric_loop_spec; simpl; done.
Qed.

(* ------------------------------------------------------------------ *)
(** Byte packing *)

Lemma encodeByte_concat (data : jsstring) :
  encodeByte data = concat (map (fun c => toBits c 8) data).
Proof.
  unfold encodeByte, len.
  assert (Hprefix : forall k : nat, (k <= length data)%nat ->
            forZ 0 (Z.of_nat k) (fun i bits =>
              bits ++ toBits (default 0 (at_ data i)) 8) []
            = concat (map (fun c => toBits c 8) (take k data))).
  { induction k as [|k IH]; intros Hk.
    - reflexivity.
    - replace (Z.of_nat (S k)) with (Z.of_nat k + 1) by lia.
      rewrite forZ_snoc by lia. rewrite IH by lia.
      destruct (data !! k) as [c|] eqn:Hc;
        [|apply lookup_ge_None in Hc; lia].
      rewrite (take_S_r _ _ _ Hc), map_app, concat_app.
      cbn [map concat]. rewrite app_nil_r. f_equal.
      unfold at_. rewrite (proj2 (Z.ltb_ge (Z.of_nat k) 0)) by lia.
      by rewrite Nat2Z.id, Hc. }
  rewrite Hprefix by lia. by rewrite firstn_all.
Qed.

Lemma concat_map_inj {A : Type} (f : A -> list Z) (w : nat) (a b : list A) :
  (forall x, length (f x) = w) -> (0 < w)%nat ->
  concat (map f a) = concat (map f b) -> map f a = map f b.
Proof.
  intros Hw Hpos. revert b. induction a as [|x a IH]; intros [|y b] Heq; simpl in *.
  - reflexivity.
  - apply (f_equal length) in Heq. rewrite length_app, Hw in Heq. simpl in Heq. lia.
  - apply (f_equal length) in Heq. rewrite length_app, Hw in Heq. simpl in Heq. lia.
  - apply app_inj_1 in Heq as [Hx Hrest]; [|by rewrite !Hw].
    rewrite Hx. f_equal. by apply IH.
Qed.

Lemma toBits_8_inj (c d : Z) :
  latin1 c -> latin1 d -> toBits c 8 = toBits d 8 -> c = d.
Proof.
  unfold latin1. intros Hc Hd Heq.
  change 8 with (Z.of_nat 8) in Heq.
  rewrite !toBits_binary in Heq by (try lia; change (2 ^ 31) with 2147483648; lia).
  apply binary_inj in Heq; [done | |]; change (2 ^ Z.of_nat 8) with 256; lia.
Qed.

Lemma encodeByte_inj (a b : jsstring) :
  Forall latin1 a -> Forall latin1 b -> encodeByte a = encodeByte b -> a = b.
Proof.
  intros Ha Hb Heq. rewrite !encodeByte_concat in Heq.
  apply (concat_map_inj _ 8) in Heq; [|intros; apply toBits_length | lia].
  revert b Hb Heq. induction Ha as [|c a Hc Ha IH]; intros [|d b] Hb Heq;
    cbn [map] in Heq; try done.
  apply Forall_cons in Hb as [Hd Hb].
  pose proof (f_equal (List.hd []) Heq) as Hcd.
  pose proof (f_equal (@List.tl _) Heq) as Hrest.
  cbn [List.hd List.tl] in Hcd, Hrest.
  f_equal; [by apply toBits_8_inj | by apply IH].
Qed.

(* ------------------------------------------------------------------ *)
(** Numeric and alphanumeric packings lose nothing *)

Lemma packNumeric_inj (n : nat) (a b : jsstring) :
  (length a <= n)%nat -> length a = length b ->
  Forall Spec.decimalDigit a -> Forall Spec.decimalDigit b ->
  Spec.packNumeric a = Spec.packNumeric b -> a = b.
Proof.
  revert a b. induction n as [|n IH]; intros a b Hn Hlen Ha Hb Heq.
  - destruct a; [|simpl in Hn; lia]. destruct b; [done | discriminate].
  - destruct a as [|a1 [|a2 [|a3 a]]]; destruct b as [|b1 [|b2 [|b3 b]]];
      try discriminate Hlen; [done | | |].
    + apply Forall_cons in Ha as [Ha1 _]. apply Forall_cons in Hb as [Hb1 _].
      apply digit_range in Ha1 as Ha1', Hb1 as Hb1'.
      change (Spec.binary 4 (Spec.digit a1) = Spec.binary 4 (Spec.digit b1)) in Heq.
      apply binary_inj in Heq; [|simpl; lia..].
      unfold Spec.digit in *. f_equal. lia.
    + apply Forall_cons in Ha as [Ha1 Ha]. apply Forall_cons in Ha as [Ha2 _].
      apply Forall_cons in Hb as [Hb1 Hb]. apply Forall_cons in Hb as [Hb2 _].
      apply digit_range in Ha1 as Ha1', Hb1 as Hb1', Ha2 as Ha2', Hb2 as Hb2'.
      change (Spec.binary 7 (10 * Spec.digit a1 + Spec.digit a2)
              = Spec.binary 7 (10 * Spec.digit b1 + Spec.digit b2)) in Heq.
      apply binary_inj in Heq; [|simpl; lia..].
      unfold Spec.digit in *. repeat f_equal; lia.
    + apply Forall_cons in Ha as [Ha1 Ha]. apply Forall_cons in Ha as [Ha2 Ha].
      apply Forall_cons in Ha as [Ha3 Ha].
      apply Forall_cons in Hb as [Hb1 Hb]. apply Forall_cons in Hb as [Hb2 Hb].
      apply Forall_cons in Hb as [Hb3 Hb].
      apply digit_range in Ha1 as Ha1', Hb1 as Hb1', Ha2 as Ha2', Hb2 as Hb2',
        Ha3 as Ha3', Hb3 as Hb3'.
      change (Spec.packNumeric (a1 :: a2 :: a3 :: a))
        with (Spec.binary 10 (100 * Spec.digit a1 + 10 * Spec.digit a2 + Spec.digit a3)
              ++ Spec.packNumeric a) in Heq.
      change (Spec.packNumeric (b1 :: b2 :: b3 :: b))
        with (Spec.binary 10 (100 * Spec.digit b1 + 10 * Spec.digit b2 + Spec.digit b3)
              ++ Spec.packNumeric b) in Heq.
      apply app_inj_1 in Heq as [Hhead Hrest]; [|by rewrite !binary_length].
      apply binary_inj in Hhead; [|simpl; lia..].
      assert (a = b) as ->.
      { apply IH; try done; simpl in Hn, Hlen; lia. }
      unfold Spec.digit in *. repeat f_equal; lia.
Qed.

Lemma alphanumericValue_inj (c d : Z) :
  Spec.inAlphanumericSet c -> Spec.inAlphanumericSet d ->
  alphanumericValue c = alphanumericValue d -> c = d.
Proof.
  intros Hc Hd Heq.
  assert (Hback : forall e, Spec.inAlphanumericSet e ->
            Spec.alphanumericSet !! Z.to_nat (alphanumericValue e) = Some e).
  { intros e He. apply list_elem_of_In in He. vm_compute in He.
    repeat (destruct He as [<- | He]; [reflexivity|]). done. }
  pose proof (Hback c Hc) as H1. pose proof (Hback d Hd) as H2.
  rewrite Heq in H1. congruence.
Qed.

Lemma packAlphanumeric_inj (n : nat) (a b : jsstring) :
  (length a <= n)%nat -> length a = length b ->
  Forall Spec.inAlphanumericSet a -> Forall Spec.inAlphanumericSet b ->
  packAlphanumeric a = packAlphanumeric b -> a = b.
Proof.
  revert a b. induction n as [|n IH]; intros a b Hn Hlen Ha Hb Heq.
  - destruct a; [|simpl in Hn; lia]. destruct b; [done | discriminate].
  - destruct a as [|a1 [|a2 a]]; destruct b as [|b1 [|b2 b]];
      try discriminate Hlen; [done | |].
    + apply Forall_cons in Ha as [Ha1 _]. apply Forall_cons in Hb as [Hb1 _].
      destruct (indexOf_alphanumericValue a1 Ha1) as [_ Ha1'].
      destruct (indexOf_alphanumericValue b1 Hb1) as [_ Hb1'].
      change (Spec.binary 6 (alphanumericValue a1)
              = Spec.binary 6 (alphanumericValue b1)) in Heq.
      apply binary_inj in Heq; [|simpl; lia..].
      f_equal. by apply alphanumericValue_inj.
    + apply Forall_cons in Ha as [Ha1 Ha]. apply Forall_cons in Ha as [Ha2 Ha].
      apply Forall_cons in Hb as [Hb1 Hb]. apply Forall_cons in Hb as [Hb2 Hb].
      destruct (indexOf_alphanumericValue a1 Ha1) as [_ Ha1'].
      destruct (indexOf_alphanumericValue b1 Hb1) as [_ Hb1'].
      destruct (indexOf_alphanumericValue a2 Ha2) as [_ Ha2'].
      destruct (indexOf_alphanumericValue b2 Hb2) as [_ Hb2'].
      change (packAlphanumeric (a1 :: a2 :: a))
        with (Spec.binary 11 (45 * alphanumericValue a1 + alphanumericValue a2)
              ++ packAlphanumeric a) in Heq.
      change (packAlphanumeric (b1 :: b2 :: b))
        with (Spec.binary 11 (45 * alphanumericValue b1 + alphanumericValue b2)
              ++ packAlphanumeric b) in Heq.
      apply app_inj_1 in Heq as [Hhead Hrest]; [|by rewrite !binary_length].
      apply binary_inj in Hhead; [|simpl; lia..].
      assert (a = b) as ->.
      { apply IH; try done; simpl in Hn, Hlen; lia. }
      assert (alphanumericValue a1 = alphanumericValue b1) by lia.
      assert (alphanumericValue a2 = alphanumericValue b2) by lia.
      f_equal; [by apply alphanumericValue_inj|].
      f_equal. by apply alphanumericValue_inj.
Qed.

(* ------------------------------------------------------------------ *)
(** The bit stream determines the payload *)

Lemma mode_indicator_inj (m1 m2 : DataMode.t) :
  toBits (DataMode.value m1) 4 = toBits (DataMode.value m2) 4 -> m1 = m2.
Proof. destruct m1, m2; vm_compute; congruence. Qed.

Lemma count_indicator_inj (mode : DataMode.t) (n1 n2 : Z) :
  0 <= n1 < 256 -> 0 <= n2 < 256 ->
  toBits n1 (getCharCountBits mode) = toBits n2 (getCharCountBits mode) -> n1 = n2.
Proof.
  intros H1 H2 Heq. apply (f_equal bitsValue) in Heq.
  destruct (toBits_numeral n1 (getCharCountBits mode)) as (_ & _ & _ & Hv1);
    [change (2 ^ 31) with 2147483648; lia | destruct mode; simpl; lia |].
  destruct (toBits_numeral n2 (getCharCountBits mode)) as (_ & _ & _ & Hv2);
    [change (2 ^ 31) with 2147483648; lia | destruct mode; simpl; lia |].
  rewrite Hv1, Hv2 in Heq; [done | |];
    destruct mode; simpl;
      [ change (2 ^ 10) with 1024 | change (2 ^ 9) with 512
      | change (2 ^ 8) with 256 | change (2 ^ 8) with 256
      | change (2 ^ 10) with 1024 | change (2 ^ 9) with 512
      | change (2 ^ 8) with 256 | change (2 ^ 8) with 256 ]; lia.
Qed.

Lemma encodeData_inj (a b : jsstring) :
  len a < 256 -> len b < 256 -> Forall latin1 a -> Forall latin1 b ->
  encodeData a = encodeData b -> a = b.
Proof.
  intros Hla Hlb Ha Hb Heq. rewrite !encodeData_unfold in Heq.
  apply app_inj_1 in Heq as [Hmode Heq]; [|by rewrite !toBits_length].
  apply mode_indicator_inj in Hmode.
  rewrite <- Hmode in Heq.
  apply app_inj_1 in Heq as [Hcount Hpayload]; [|by rewrite !toBits_length].
  apply count_indicator_inj in Hcount; [|unfold len in *; lia..].
  assert (Hlen : length a = length b) by (unfold len in Hcount; lia).
  unfold packedPayload in Hpayload. rewrite <- Hmode in Hpayload.
  destruct (detectDataMode a) eqn:Hma.
  - symmetry in Hmode.
    apply detectDataMode_numeric in Hma as [_ Hda], Hmode as [_ Hdb].
    rewrite !encodeNumeric_packs in Hpayload by done.
    by apply (packNumeric_inj (length a)).
  - symmetry in Hmode.
    apply detectDataMode_alphanumeric in Hma as (_ & Hsa & _), Hmode as (_ & Hsb & _).
    rewrite !encodeAlphanumeric_packs in Hpayload by done.
    by apply (packAlphanumeric_inj (length a)).
  - by apply encodeByte_inj.
  - by apply detectDataMode_not_kanji in Hma.
Qed.

(* ================================================================== *)
(** ** Capacities and validation of the facade *)
(* ================================================================== *)

Lemma versions_check (f : Z -> bool) :
  forallb f (seqZ 1 40) = true -> forall v, 1 <= v <= 40 -> f v = true.
Proof.
  intros Hall v Hv. rewrite forallb_forall in Hall. apply Hall.
  apply list_elem_of_In, elem_of_seqZ. lia.
Qed.

Lemma levels_check (f : ErrorCorrectionLevel.t -> bool) :
  forallb f levels = true -> forall l, f l = true.
Proof.
  intros Hall l. rewrite forallb_forall in Hall. apply Hall.
  destruct l; simpl; auto.
Qed.

Lemma modes_check (f : DataMode.t -> bool) :
  forallb f modes = true -> forall m, f m = true.
Proof.
  intros Hall m. rewrite forallb_forall in Hall. apply Hall.
  destruct m; simpl; auto 6.
Qed.

Lemma getCapacityForVersion_modes (version : Z) (level : ErrorCorrectionLevel.t) :
  1 <= version <= 40 ->
  0 < ValidationUtils.getCapacityForVersion version level BYTE
  /\ ValidationUtils.getCapacityForVersion version level BYTE
     <= ValidationUtils.getCapacityForVersion version level ALPHANUMERIC
  /\ ValidationUtils.getCapacityForVersion version level ALPHANUMERIC
     <= ValidationUtils.getCapacityForVersion version level NUMERIC.
Proof.
  intros Hv.
  pose proof (levels_check
    (fun l => forallb (fun v =>
       (0 <? ValidationUtils.getCapacityForVersion v l BYTE)
       && (ValidationUtils.getCapacityForVersion v l BYTE
           <=? ValidationUtils.getCapacityForVersion v l ALPHANUMERIC)
       && (ValidationUtils.getCapacityForVersion v l ALPHANUMERIC
           <=? ValidationUtils.getCapacityForVersion v l NUMERIC)) (seqZ 1 40))
    ltac:(vm_compute; reflexivity) level) as Hall.
  cbv beta in Hall. apply (versions_check _ Hall) in Hv. lia.
Qed.

Lemma getCapacityForVersion_levels (version : Z) (mode : DataMode.t) :
  1 <= version <= 40 ->
  ValidationUtils.getCapacityForVersion version H mode
  <= ValidationUtils.getCapacityForVersion version Q mode
  /\ ValidationUtils.getCapacityForVersion version Q mode
     <= ValidationUtils.getCapacityForVersion version M mode
  /\ ValidationUtils.getCapacityForVersion version M mode
     <= ValidationUtils.getCapacityForVersion version L mode.
Proof.
  intros Hv.
  pose proof (modes_check
    (fun m => forallb (fun v =>
       (ValidationUtils.getCapacityForVersion v H m
        <=? ValidationUtils.getCapacityForVersion v Q m)
       && (ValidationUtils.getCapacityForVersion v Q m
           <=? ValidationUtils.getCapacityForVersion v M m)
       && (ValidationUtils.getCapacityForVersion v M m
           <=? ValidationUtils.getCapacityForVersion v L m)) (seqZ 1 40))
    ltac:(vm_compute; reflexivity) mode) as Hall.
  cbv beta in Hall. apply (versions_check _ Hall) in Hv. lia.
Qed.

Lemma getCapacityForVersion_step (version : Z) (level : ErrorCorrectionLevel.t)
    (mode : DataMode.t) :
  1 <= version < 40 ->
  ValidationUtils.getCapacityForVersion version level mode
  < ValidationUtils.getCapacityForVersion (version + 1) level mode.
Proof.
  intros Hv.
  pose proof (levels_check
    (fun l => forallb (fun m => forallb (fun v =>
       (v =? 40)
       || (ValidationUtils.getCapacityForVersion v l m
           <? ValidationUtils.getCapacityForVersion (v + 1) l m)) (seqZ 1 40)) modes)
    ltac:(vm_compute; reflexivity) level) as Hall.
  cbv beta in Hall. pose proof (modes_check _ Hall mode) as Hmode.
  cbv beta in Hmode.
  pose proof (versions_check _ Hmode version ltac:(lia)) as Hversion.
  cbv beta in Hversion. lia.
Qed.

Lemma getCapacityForVersion_bound (version : Z) (level : ErrorCorrectionLevel.t)
    (mode : DataMode.t) :
  1 <= version <= 40 ->
  ValidationUtils.getCapacityForVersion version level mode
  <= match mode with
     | NUMERIC => 36 * version + 24
     | ALPHANUMERIC => 27 * version + 18
     | _ => 15 * version + 10
     end.
Proof.
  intros Hv.
  pose proof (levels_check
    (fun l => forallb (fun m => forallb (fun v =>
       ValidationUtils.getCapacityForVersion v l m
       <=? match m with
           | NUMERIC => 36 * v + 24
           | ALPHANUMERIC => 27 * v + 18
           | _ => 15 * v + 10
           end) (seqZ 1 40)) modes)
    ltac:(vm_compute; reflexivity) level) as Hall.
  cbv beta in Hall. pose proof (modes_check _ Hall mode) as Hmode.
  cbv beta in Hmode. apply (versions_check _ Hmode) in Hv. lia.
Qed.

(* ------------------------------------------------------------------ *)
(** Validation *)

Lemma validateCapacity_loop_fits (dataLength : Z) (level : ErrorCorrectionLevel.t)
    (mode : DataMode.t) (n : nat) (lo : Z) :
  ValidationUtils.valid
    (ValidationUtils.validateCapacity_loop dataLength level mode (seqZ lo (Z.of_nat n)))
  = true <->
  exists v, lo <= v < lo + Z.of_nat n /\
    dataLength <= ValidationUtils.getCapacityForVersion v level mode.
Proof.
  revert lo. induction n as [|n IH]; intros lo.
  - rewrite seqZ_nil by lia. simpl. split; [discriminate|]. intros (v & Hv & _). lia.
  - rewrite seqZ_cons by lia. simpl.
    replace (Z.pred (Z.of_nat (S n))) with (Z.of_nat n) by lia.
    destruct (dataLength <=? ValidationUtils.getCapacityForVersion lo level mode)
      eqn:Hlo.
    + simpl. split; [|done]. intros _. exists lo. split; lia.
    + rewrite IH. apply Z.leb_gt in Hlo. split.
      * intros (v & Hv & Hfits). exists v. split; [lia | done].
      * intros (v & Hv & Hfits). exists v. split; [|done].
        destruct (decide (v = lo)) as [->|]; lia.
Qed.

Lemma validateCapacity_loop_error (dataLength : Z) (level : ErrorCorrectionLevel.t)
    (mode : DataMode.t) (versions : list Z) :
  ValidationUtils.valid
    (ValidationUtils.validateCapacity_loop dataLength level mode versions) = false ->
  ValidationUtils.error
    (ValidationUtils.validateCapacity_loop dataLength level mode versions)
  = Some ERROR_MESSAGES.DATA_TOO_LONG.
Proof.
  induction versions as [|v versions IH]; simpl; [done|].
  destruct (dataLength <=? _); [discriminate | exact IH].
Qed.

Section Validation.

Context {Rest : Type}.
Variable validateRest : Rest -> ValidationUtils.ValidationResult.

Lemma validateCapacity_valid (payload : jsstring) (options : Options.QRCodeOptions Rest) :
  (forall v, Options.version options = Some v -> 1 <= v <= 40) ->
  (ValidationUtils.valid (ValidationUtils.validateCapacity payload options) = true
   <-> accommodates payload options) /\
  (ValidationUtils.valid (ValidationUtils.validateCapacity payload options) = false ->
   ValidationUtils.error (ValidationUtils.validateCapacity payload options)
   = Some ERROR_MESSAGES.DATA_TOO_LONG).
Proof.
  intros Hversion. unfold ValidationUtils.validateCapacity, accommodates.
  destruct (Options.version options) as [v|] eqn:Hv; cbn [truthy].
  - specialize (Hversion v eq_refl). replace (v =? 0) with false by lia.
    destruct (len payload >? _) eqn:Hfits; simpl; split; try done; lia.
  - split.
    + change 40 with (Z.of_nat 40).
      rewrite validateCapacity_loop_fits. split; intros (v & Hr & Hf); exists v;
        (split; [lia | done]).
    + apply validateCapacity_loop_error.
Qed.

Lemma validateOptions_valid (options : Options.QRCodeOptions Rest) :
  ValidationUtils.valid (ValidationUtils.validateOptions validateRest options) = true
  <->
  (forall v, Options.version options = Some v -> 1 <= v <= 40) /\
  (forall p, Options.maskPattern options = Some p -> 0 <= p <= 7) /\
  ValidationUtils.valid (validateRest (Options.rest options)) = true.
Proof.
  unfold ValidationUtils.validateOptions.
  set (versionValidation := match Options.version options with
                            | Some v => ValidationUtils.validateVersion v
                            | None => ValidationUtils.ok
                            end).
  set (maskValidation := match Options.maskPattern options with
                         | Some p => ValidationUtils.validateMaskPattern p
                         | None => ValidationUtils.ok
                         end).
  assert (Hversion : ValidationUtils.valid versionValidation = true
                     <-> forall v, Options.version options = Some v -> 1 <= v <= 40).
  { subst versionValidation. destruct (Options.version options) as [v|].
    - unfold ValidationUtils.validateVersion, VALIDATION.MIN_VERSION,
        VALIDATION.MAX_VERSION.
      destruct ((v <? 1) || (v >? 40)) eqn:Hrange; simpl.
      + split; [discriminate|]. intros Hall. specialize (Hall v eq_refl). lia.
      + split; [|done]. intros _ v' Hv'. injection Hv' as <-. lia.
    - simpl. split; [|done]. intros _ v' Hv'. discriminate. }
  assert (Hmask : ValidationUtils.valid maskValidation = true
                  <-> forall p, Options.maskPattern options = Some p -> 0 <= p <= 7).
  { subst maskValidation. destruct (Options.maskPattern options) as [p|].
    - unfold ValidationUtils.validateMaskPattern, VALIDATION.MIN_MASK_PATTERN,
        VALIDATION.MAX_MASK_PATTERN.
      destruct ((p <? 0) || (p >? 7)) eqn:Hrange; simpl.
      + split; [discriminate|]. intros Hall. specialize (Hall p eq_refl). lia.
      + split; [|done]. intros _ p' Hp'. injection Hp' as <-. lia.
    - simpl. split; [|done]. intros _ p' Hp'. discriminate. }
  rewrite <- Hversion, <- Hmask. clearbody versionValidation maskValidation.
  destruct (ValidationUtils.valid versionValidation) eqn:H1; cbn [negb].
  - destruct (ValidationUtils.valid maskValidation) eqn:H2; cbn [negb].
    + destruct (ValidationUtils.valid (validateRest (Options.rest options))) eqn:H3;
        cbn [negb]; [simpl; tauto|]. rewrite H3. split; [discriminate|]. tauto.
    + rewrite H2. split; [discriminate|]. tauto.
  - rewrite H1. split; [discriminate|]. tauto.
Qed.

Lemma validateInput_valid (payload : jsstring) (options : Options.QRCodeOptions Rest) :
  ValidationUtils.valid (ValidationUtils.validateInput validateRest payload options)
  = true <->
  payload <> [] /\
  (forall v, Options.version options = Some v -> 1 <= v <= 40) /\
  (forall p, Options.maskPattern options = Some p -> 0 <= p <= 7) /\
  ValidationUtils.valid (validateRest (Options.rest options)) = true /\
  accommodates payload options.
Proof.
  unfold ValidationUtils.validateInput.
  destruct (decide (payload = [])) as [->|Hne].
  { simpl. split; [discriminate | intros [? _]; done]. }
  assert (Hdata : ValidationUtils.valid (ValidationUtils.validateData payload) = true).
  { unfold ValidationUtils.validateData, len. destruct payload; [done | reflexivity]. }
  rewrite Hdata. cbn [negb].
  pose proof (validateOptions_valid options) as Hoptions.
  destruct (ValidationUtils.valid (ValidationUtils.validateOptions validateRest options))
    eqn:Hvalid; cbn [negb].
  - destruct (proj1 Hoptions eq_refl) as (Hversion & Hmask & Hrest).
    destruct (validateCapacity_valid payload options Hversion) as [Hcap _].
    destruct (ValidationUtils.valid (ValidationUtils.validateCapacity payload options))
      eqn:Hcapacity; cbn [negb].
    + simpl. split; [|done]. intros _. repeat (split; [done|]). by apply Hcap.
    + rewrite Hcapacity. split; [discriminate|].
      intros (_ & _ & _ & _ & Hacc). apply Hcap in Hacc. discriminate.
  - rewrite Hvalid. split; [discriminate|].
    intros (_ & Hversion & Hmask & Hrest & _).
    assert (false = true) by (by apply Hoptions).
    discriminate.
Qed.

(** X16: [validateInput] reports the first failure in the order data,
    options, capacity: an empty payload gives "Invalid input data" whatever
    the options are; with a payload, invalid options give their own answer;
    with valid options, a payload that does not fit gives the error "Input
    data is too long for the specified configuration". *)
Theorem validateInput_error_order (payload : jsstring) (options : Options.QRCodeOptions Rest) :
  (payload = [] ->
   ValidationUtils.validateInput validateRest payload options
   = ValidationUtils.invalid ERROR_MESSAGES.INVALID_DATA) /\
  (payload <> [] ->
   ValidationUtils.valid (ValidationUtils.validateOptions validateRest options) = false ->
   ValidationUtils.validateInput validateRest payload options
   = ValidationUtils.validateOptions validateRest options) /\
  (payload <> [] ->
   ValidationUtils.valid (ValidationUtils.validateOptions validateRest options) = true ->
   ~ accommodates payload options ->
   ValidationUtils.error (ValidationUtils.validateInput validateRest payload options)
   = Some ERROR_MESSAGES.DATA_TOO_LONG).
Proof.
  split; [|split].
  - intros ->. reflexivity.
  - intros Hne Hinvalid. unfold ValidationUtils.validateInput.
    assert (Hdata : ValidationUtils.valid (ValidationUtils.validateData payload) = true).
    { unfold ValidationUtils.validateData, len. destruct payload; [done | reflexivity]. }
    rewrite Hdata, Hinvalid. reflexivity.
  - intros Hne Hvalid Hnot. unfold ValidationUtils.validateInput.
    assert (Hdata : ValidationUtils.valid (ValidationUtils.validateData payload) = true).
    { unfold ValidationUtils.validateData, len. destruct payload; [done | reflexivity]. }
    rewrite Hdata, Hvalid. cbn [negb].
    apply validateOptions_valid in Hvalid as (Hversion & _).
    destruct (validateCapacity_valid payload options Hversion) as [Hcap Herror].
    destruct (ValidationUtils.valid (ValidationUtils.validateCapacity payload options))
      eqn:Hcapacity; cbn [negb].
    + exfalso. by apply Hnot, Hcap.
    + by apply Herror.
Qed.

End Validation.

(* ------------------------------------------------------------------ *)
(** The facade *)

Section FacadeRuns.

Context {Rest RestInternal : Type}.
Variable validateRest : Rest -> ValidationUtils.ValidationResult.
Variable mergeRest : Rest -> RestInternal.

(** After a successful validation the generator is called with a version
    of 1..40 that accommodates the payload: the forced one, or the one that
    [validateCapacity] suggests. *)
Lemma generateMatrix_call (payload : jsstring) (options : Options.QRCodeOptions Rest) :
  ValidationUtils.valid (ValidationUtils.validateInput validateRest payload options)
  = true ->
  let level := default Options.DEFAULT_errorCorrectionLevel
                 (Options.errorCorrectionLevel options) in
  exists v, 1 <= v <= 40 /\
    len payload <= ValidationUtils.getCapacityForVersion v level
                     (ValidationUtils.detectDataMode payload) /\
    (forall v0, Options.version options = Some v0 -> v = v0) /\
    QRCode.generateMatrix validateRest mergeRest payload options
    = generate payload level (Some v) (truthy (Options.maskPattern options)).
Proof.
  intros Hvalid level.
  pose proof (proj1 (validateInput_valid validateRest payload options) Hvalid)
    as (Hne & Hversion & Hmask & Hrest & Hacc).
  unfold QRCode.generateMatrix. rewrite Hvalid. cbn [negb].
  unfold ValidationUtils.validateInput in *.
  destruct (ValidationUtils.valid (ValidationUtils.validateData payload)) eqn:Hdata;
    [|cbn [negb] in Hvalid; rewrite Hdata in Hvalid; discriminate].
  destruct (ValidationUtils.valid
              (ValidationUtils.validateOptions validateRest options)) eqn:Hoptions;
    [|cbn [negb] in Hvalid; rewrite Hoptions in Hvalid; discriminate].
  destruct (ValidationUtils.valid (ValidationUtils.validateCapacity payload options))
    eqn:Hcapacity;
    [|cbn [negb] in Hvalid; rewrite Hcapacity in Hvalid; discriminate].
  cbn [negb ValidationUtils.suggestedVersion].
  unfold QRCode.mergeOptions.
  cbn [Options.finalErrorCorrectionLevel Options.finalVersion Options.finalMaskPattern].
  fold level.
  unfold ValidationUtils.validateCapacity in *. unfold accommodates in Hacc.
  fold level in Hcapacity, Hacc |- *.
  destruct (Options.version options) as [v0|] eqn:Hv0.
  - specialize (Hversion v0 eq_refl). cbn [truthy] in Hcapacity |- *.
    replace (v0 =? 0) with false in Hcapacity |- * by lia.
    exists v0. split; [done|]. split; [done|]. split; [intros ? [= <-]; done|].
    destruct (len payload >? _); reflexivity.
  - cbn [truthy] in Hcapacity |- *.
    destruct (validateCapacity_loop_valid (len payload) level
                (ValidationUtils.detectDataMode payload) 40 1 Hcapacity)
      as (v & Hsuggested & Hrange & Hfits & _).
    change (Z.of_nat 40) with 40 in Hsuggested.
    rewrite Hsuggested. cbn [truthy]. replace (v =? 0) with false by lia.
    exists v. split; [lia|]. split; [done|]. split; [intros ? [=]|]. reflexivity.
Qed.

Lemma generateMatrix_total (payload : jsstring) (options : Options.QRCodeOptions Rest) :
  let validation := ValidationUtils.validateInput validateRest payload options in
  (ValidationUtils.valid validation = true ->
   exists g, QRCode.generateMatrix validateRest mergeRest payload options = Returns g) /\
  (ValidationUtils.valid validation = false ->
   QRCode.generateMatrix validateRest mergeRest payload options
   = Throws (default EmptyString (ValidationUtils.error validation))).
Proof.
  intros validation. subst validation. split.
  - intros Hvalid.
    pose proof (proj1 (validateInput_valid validateRest payload options) Hvalid)
      as (Hne & _).
    destruct (generateMatrix_call payload options Hvalid) as (v & Hv & _ & _ & ->).
    eexists. apply (generate_resolved _ _ (Some v) _ v); [|done|done].
    cbn [truthy]. replace (v =? 0) with false by lia. reflexivity.
  - intros Hinvalid. unfold QRCode.generateMatrix. by rewrite Hinvalid.
Qed.

Lemma generateMatrix_version (payload : jsstring) (options : Options.QRCodeOptions Rest)
    (g : generated) :
  QRCode.generateMatrix validateRest mergeRest payload options = Returns g ->
  let level := default Options.DEFAULT_errorCorrectionLevel
                 (Options.errorCorrectionLevel options) in
  1 <= version g <= 40 /\
  len payload <= ValidationUtils.getCapacityForVersion (version g) level
                   (ValidationUtils.detectDataMode payload) /\
  (forall v0, Options.version options = Some v0 -> version g = v0) /\
  errorCorrectionLevel g = level.
Proof.
  intros Hg level.
  destruct (ValidationUtils.valid
              (ValidationUtils.validateInput validateRest payload options)) eqn:Hvalid.
  - destruct (generateMatrix_call payload options Hvalid) as (v & Hv & Hfits & Hforced & Hcall).
    fold level in Hfits, Hcall. rewrite Hcall in Hg.
    pose proof (generate_version _ _ _ _ _ Hg) as Hversion.
    cbn [truthy] in Hversion. replace (v =? 0) with false in Hversion by lia.
    injection Hversion as Hversion. rewrite <- Hversion.
    split; [done|]. split; [done|]. split; [done|].
    apply generate_inv in Hg as (_ & _ & ->). reflexivity.
  - unfold QRCode.generateMatrix in Hg. rewrite Hvalid in Hg. discriminate.
Qed.

Lemma generateMatrix_fits (payload : jsstring) (options : Options.QRCodeOptions Rest)
    (g : generated) :
  QRCode.generateMatrix validateRest mergeRest payload options = Returns g ->
  len (encodeData payload) <= modules g * (modules g - 1).
Proof.
  intros Hg.
  destruct (generateMatrix_version payload options g Hg) as (Hv & Hfits & _ & _).
  assert (Hmodules : modules g = 17 + 4 * version g).
  { destruct (ValidationUtils.valid
                (ValidationUtils.validateInput validateRest payload options)) eqn:Hvalid.
    - destruct (generateMatrix_call payload options Hvalid) as (v & _ & _ & _ & Hcall).
      rewrite Hcall in Hg. apply generate_inv in Hg as (_ & _ & ->). reflexivity.
    - unfold QRCode.generateMatrix in Hg. rewrite Hvalid in Hg. discriminate. }
  rewrite Hmodules, encodeData_length.
  pose proof (getCapacityForVersion_bound (version g)
                (default Options.DEFAULT_errorCorrectionLevel
                   (Options.errorCorrectionLevel options))
                (ValidationUtils.detectDataMode payload) Hv) as Hbound.
  change (ValidationUtils.detectDataMode payload) with (detectDataMode payload) in *.
  assert (Hlen : 0 <= len payload) by (unfold len; lia).
  set (n := len payload) in *. set (v := version g) in *.
  destruct (detectDataMode payload); cbn [getCharCountBits Spec.packedBits].
  - assert (10 * (n / 3) + (if n mod 3 =? 1 then 4 else if n mod 3 =? 2 then 7 else 0)
            <= 4 * n).
    { destruct (n mod 3 =? 1) eqn:H1; [|destruct (n mod 3 =? 2) eqn:H2];
        Z.div_mod_to_equations; lia. }
    nia.
  - assert (11 * (n / 2) + 6 * (n mod 2) <= 6 * n) by (Z.div_mod_to_equations; lia).
    nia.
  - nia.
  - nia.
Qed.

End FacadeRuns.

Lemma generate_fits (data : jsstring) (level : ErrorCorrectionLevel.t)
    (maskPattern : option Z) (g : generated) :
  generate data level None maskPattern = Returns g ->
  len (encodeData data) <= modules g * (modules g - 1).
Proof.
  intros Hg.
  pose proof (generate_version _ _ _ _ _ Hg) as Hversion. cbn [truthy] in Hversion.
  unfold determineVersion in Hversion.
  apply (determineVersion_loop_returns _ _ _ 40 1) in Hversion as (Hv & Hfits & _).
  rewrite getCapacity_closed_form in Hfits by lia.
  apply generate_inv in Hg as (_ & _ & Hg).
  assert (Hmodules : modules g = 17 + 4 * version g) by (rewrite Hg; reflexivity).
  rewrite Hmodules, encodeData_length.
  pose proof (packedBits_bound (detectDataMode data) (len data)
                ltac:(unfold len; lia)) as Hbits.
  assert (Hcount : getCharCountBits (detectDataMode data) <= 10)
    by (destruct (detectDataMode data); simpl; lia).
  assert (Hlen : len data <= 10 * version g) by (destruct level; lia).
  nia.
Qed.

(* ================================================================== *)
(** ** Logo options and logo zones *)
(* ================================================================== *)

Section LogoNumbers.

Context {number : Type} `{JSNumber number}.

(** X23: [LogoProcessor.validateAndOptimize] throws on every logo: it
    validates the logo with [validateInput({}, { logo })], whose data is
    neither a string, a number nor a [Buffer], so that a logo that passes
    [validateLogoOptions] fails with "Unsupported data type"; the other
    messages are those of [validateLogoOptions]. *)
Theorem validateAndOptimize_never_returns (logo : Logo.LogoOptions number) :
  let tooLarge (size : option number) :=
    match size with
    | Some s => ltN s (ofZ 5) || ltN (ofZ 30) s
    | None => false
    end in
  LogoProcessor.validateAndOptimize logo
  = Throws (if Logo.srcFalsy (Logo.src logo) then "Logo source is required"
            else if tooLarge (Logo.width logo) || tooLarge (Logo.height logo)
                 then "Logo size exceeds maximum allowed percentage"
                 else "Unsupported data type")%string.
Proof.
  cbv zeta. unfold LogoProcessor.validateAndOptimize, ValidationUtils.validateInput_logo,
    ValidationUtils.validateLogoOptions.
  unfold LOGO_CONSTRAINTS.MIN_WIDTH_PERCENT, LOGO_CONSTRAINTS.MAX_WIDTH_PERCENT,
    LOGO_CONSTRAINTS.MIN_HEIGHT_PERCENT, LOGO_CONSTRAINTS.MAX_HEIGHT_PERCENT.
  destruct (Logo.srcFalsy (Logo.src logo)); [reflexivity|].
  destruct (Logo.width logo) as [w|]; destruct (Logo.height logo) as [h|];
    repeat match goal with
           | |- context [ltN ?a ?b] => destruct (ltN a b)
           end; reflexivity.
Qed.

(** X24: [optimizeSize] on a given size answers a size that is neither below
    5 nor above 30: the size itself when it is within these bounds (and for
    NaN, which no comparison rejects), else the bound it crossed; applying
    it again changes nothing. *)
Theorem optimizeSize_clamps (size : number) (defaultSize : number) :
  let result := LogoProcessor.optimizeSize (Some size) defaultSize in
  ltN result (ofZ 5) = false /\ ltN (ofZ 30) result = false /\
  (result = size \/ result = ofZ 5 \/ result = ofZ 30) /\
  (ltN size (ofZ 5) = false -> ltN (ofZ 30) size = false -> result = size) /\
  LogoProcessor.optimizeSize (Some result) defaultSize = result.
Proof.
  cbv zeta. unfold LogoProcessor.optimizeSize.
  unfold LOGO_CONSTRAINTS.MIN_WIDTH_PERCENT, LOGO_CONSTRAINTS.MAX_WIDTH_PERCENT.
  destruct (ltN size (ofZ 5)) eqn:Hlow.
  - rewrite !ltN_ofZ. simpl. repeat split; auto. discriminate.
  - destruct (ltN (ofZ 30) size) eqn:Hhigh.
    + rewrite !ltN_ofZ. simpl. repeat split; auto. discriminate.
    + rewrite Hlow, Hhigh. repeat split; auto.
Qed.

End LogoNumbers.

Lemma logo_isDataModule_included (x y modules : Z) :
  LogoProcessor.isDataModule x y modules = true ->
  QRGenerator.isDataModule modules x y = true.
Proof.
  unfold LogoProcessor.isDataModule, LogoProcessor.isInFinderPattern,
    QRGenerator.isDataModule, QRGenerator.isFinderPattern.
  destruct ((x <=? 8) && (y <=? 8)) eqn:H1; [discriminate|].
  destruct ((modules - 9 <=? x) && (y <=? 8)) eqn:H2; [discriminate|].
  destruct ((x <=? 8) && (modules - 9 <=? y)) eqn:H3; [discriminate|].
  destruct ((x =? 6) || (y =? 6)) eqn:H4; [discriminate|].
  intros _. lia.
Qed.

Lemma logo_isDataModule_checks (x y version : Z) :
  let modules := 17 + 4 * version in
  LogoProcessor.isDataModule x y modules
  = negb (LogoProcessor.isInFinderPattern x y modules)
    && negb ((x =? 6) || (y =? 6))
    && negb ((version + 1 >=? 7) && LogoProcessor.isVersionInfoArea x y modules)
    && negb ((version + 1 >=? 2) && LogoProcessor.isInAlignmentPattern x y modules).
Proof.
  cbv zeta. unfold LogoProcessor.isDataModule.
  replace ((17 + 4 * version - 17) / 4) with version
    by (Z.div_mod_to_equations; lia).
  destruct (LogoProcessor.isInFinderPattern x y (17 + 4 * version)) eqn:Hfinder;
    [reflexivity|].
  destruct ((x =? 6) || (y =? 6)) eqn:H6; [reflexivity|].
  assert (Hdark : (x =? 8) && (y =? 4 * version + 9) = false).
  { unfold LogoProcessor.isInFinderPattern in Hfinder.
    destruct ((x <=? 8) && (y <=? 8)) eqn:H1; [discriminate|].
    destruct ((17 + 4 * version - 9 <=? x) && (y <=? 8)) eqn:H2; [discriminate|].
    destruct ((x <=? 8) && (17 + 4 * version - 9 <=? y)) eqn:H3; [discriminate|].
    lia. }
  assert (Hformat : LogoProcessor.isFormatInfoArea x y (17 + 4 * version) = false).
  { unfold LogoProcessor.isInFinderPattern in Hfinder.
    unfold LogoProcessor.isFormatInfoArea.
    destruct ((x <=? 8) && (y <=? 8)) eqn:H1; [discriminate|].
    destruct ((17 + 4 * version - 9 <=? x) && (y <=? 8)) eqn:H2; [discriminate|].
    destruct ((x <=? 8) && (17 + 4 * version - 9 <=? y)) eqn:H3; [discriminate|].
    replace (((x <=? 8) && (y =? 8)) || ((x =? 8) && (y <=? 8))) with false by lia.
    replace ((17 + 4 * version - 8 <=? x) && (y =? 8)) with false by lia.
    replace ((x =? 8) && (17 + 4 * version - 7 <=? y)) with false by lia.
    reflexivity. }
  rewrite Hdark, Hformat. cbn [negb andb].
  destruct ((version + 1 >=? 7) && _); [reflexivity|].
  destruct ((version + 1 >=? 2) && _); reflexivity.
Qed.

(** X26: [findSafeZones] answers one square zone, of side a quarter of the
    matrix side rounded down, inside the matrix and centred: the space on
    its right (and below) is the space on its left (and above), or one
    module more. *)
Theorem findSafeZones_centred (matrix : QRMatrix) :
  let modules := Z.of_nat (length matrix) in
  exists zone, LogoProcessor.findSafeZones matrix = [zone] /\
    LogoProcessor.zoneY zone = LogoProcessor.zoneX zone /\
    LogoProcessor.zoneHeight zone = LogoProcessor.zoneWidth zone /\
    LogoProcessor.zoneWidth zone = modules / 4 /\
    0 <= LogoProcessor.zoneX zone /\
    LogoProcessor.zoneX zone + LogoProcessor.zoneWidth zone <= modules /\
    let right := modules - (LogoProcessor.zoneX zone + LogoProcessor.zoneWidth zone) in
    LogoProcessor.zoneX zone <= right <= LogoProcessor.zoneX zone + 1.
Proof.
  cbv zeta. eexists. split; [reflexivity|]. simpl.
  assert (0 <= Z.of_nat (length matrix)) by lia.
  set (n := Z.of_nat (length matrix)) in *.
  repeat split; Z.div_mod_to_equations; lia.
Qed.

(* ================================================================== *)
(** ** Batches *)
(* ================================================================== *)

Section BatchValidation.

Context {Rest : Type}.
Variable validateRest : Rest -> ValidationUtils.ValidationResult.

Lemma validateBatchOptions_loop_spec (i : Z) (items : list jsstring)
    (options : Options.QRCodeOptions Rest) :
  (Forall (fun data =>
     ValidationUtils.valid (ValidationUtils.validateInput validateRest data options)
     = true) items /\
   ValidationUtils.validateBatchOptions_loop validateRest i items options = ValidationUtils.ok)
  \/
  (exists accepted data rest, items = accepted ++ data :: rest /\
     Forall (fun data =>
       ValidationUtils.valid (ValidationUtils.validateInput validateRest data options)
       = true) accepted /\
     ValidationUtils.valid (ValidationUtils.validateInput validateRest data options)
     = false /\
     ValidationUtils.validateBatchOptions_loop validateRest i items options
     = ValidationUtils.invalid
         (ValidationUtils.itemError (i + Z.of_nat (length accepted))
            (ValidationUtils.error
               (ValidationUtils.validateInput validateRest data options)))).
Proof.
  revert i. induction items as [|data items IH]; intros i.
  - left. split; [constructor | reflexivity].
  - cbn [ValidationUtils.validateBatchOptions_loop].
    destruct (ValidationUtils.valid
                (ValidationUtils.validateInput validateRest data options)) eqn:Hdata;
      cbn [negb].
    + destruct (IH (i + 1)) as [[Hall Hok] | (accepted & bad & rest & -> & Hall & Hbad & Hres)].
      * left. split; [by constructor | done].
      * right. exists (data :: accepted), bad, rest.
        split; [reflexivity|]. split; [by constructor|]. split; [done|].
        rewrite Hres. simpl length. do 2 f_equal. lia.
    + right. exists [], data, items. split; [reflexivity|]. split; [constructor|].
      split; [done|]. simpl. by rewrite Z.add_0_r.
Qed.

Lemma validateBatchOptions_spec (dataArray : list jsstring)
    (options : Options.QRCodeOptions Rest) :
  let validItem data :=
    ValidationUtils.valid (ValidationUtils.validateInput validateRest data options)
    = true in
  (ValidationUtils.valid (ValidationUtils.validateBatchOptions validateRest dataArray options)
   = true <-> dataArray <> [] /\ Forall validItem dataArray) /\
  (dataArray = [] ->
   ValidationUtils.validateBatchOptions validateRest dataArray options
   = ValidationUtils.invalid "Data array cannot be empty") /\
  (forall accepted data rest,
     dataArray = accepted ++ data :: rest -> Forall validItem accepted ->
     ~ validItem data ->
     ValidationUtils.validateBatchOptions validateRest dataArray options
     = ValidationUtils.invalid
         (ValidationUtils.itemError (Z.of_nat (length accepted))
            (ValidationUtils.error
               (ValidationUtils.validateInput validateRest data options)))).
Proof.
  cbv zeta. unfold ValidationUtils.validateBatchOptions.
  destruct dataArray as [|d items].
  { split; [|split].
    - simpl. split; [discriminate | intros [? _]; done].
    - reflexivity.
    - intros accepted data rest Heq. by destruct accepted. }
  rewrite (proj2 (Z.eqb_neq (Z.of_nat (length (d :: items))) 0)) by (simpl length; lia).
  destruct (validateBatchOptions_loop_spec 0 (d :: items) options)
    as [[Hall Hok] | (accepted & bad & rest & Heq & Hall & Hbad & Hres)].
  - rewrite Hok. split; [|split].
    + simpl. split; [|done]. intros _. split; [done | exact Hall].
    + discriminate.
    + intros accepted data rest Heq _ Hbad. exfalso. apply Hbad.
      rewrite Heq in Hall. apply Forall_app in Hall as [_ Hall].
      by apply Forall_cons in Hall as [? _].
  - rewrite Hres. split; [|split].
    + simpl. split; [discriminate|]. intros [_ Hall']. rewrite Heq in Hall'.
      apply Forall_app in Hall' as [_ Hall']. apply Forall_cons in Hall' as [Hgood _].
      congruence.
    + discriminate.
    + intros accepted' data' rest' Heq' Hall' Hbad'. rewrite Z.add_0_l.
      assert (Hsame : accepted' = accepted /\ data' = bad).
      { clear Hres. rewrite Heq in Heq'. clear Heq.
        revert accepted' Heq' Hall'. induction Hall as [|a accepted Ha Hall IH];
          intros [|a' accepted'] Heq' Hall'; simpl in Heq'.
        - by injection Heq' as -> _.
        - injection Heq' as -> _. apply Forall_cons in Hall' as [? _]. congruence.
        - injection Heq' as -> _. congruence.
        - injection Heq' as -> Heq'. apply Forall_cons in Hall' as [_ Hall'].
          destruct (IH accepted' Heq' Hall') as [-> ->]. done. }
      destruct Hsame as [-> ->]. reflexivity.
Qed.

End BatchValidation.

Section BatchGeneration.

Context {Rest RestInternal Format Rendered Size : Type}.
Variable validateRest : Rest -> ValidationUtils.ValidationResult.
Variable mergeRest : Rest -> RestInternal.
Variable renderMatrix :
  QRMatrix -> Format -> Options.QRCodeOptionsInternal RestInternal -> outcome Rendered.
Variable calculateOutputSize :
  Options.QRCodeOptionsInternal RestInternal -> Format -> Z -> Size.

Let generateItem := QRCode.generate validateRest mergeRest renderMatrix calculateOutputSize.
Let runBatch :=
  QRCode.generateBatch validateRest mergeRest renderMatrix calculateOutputSize.

Lemma generateBatch_loop_returns (total i : Z) (items : list jsstring) (fmt : Format)
    (options : Options.QRCodeOptions Rest)
    (results results' : list (QRCode.QRCodeResult Format Rendered Size))
    (calls calls' : list QRCode.ProgressCall) :
  QRCode.generateBatch_loop validateRest mergeRest renderMatrix calculateOutputSize
    total i items fmt options results calls = (calls', Returns results') ->
  exists new, results' = results ++ new /\
    Forall2 (fun data result => generateItem data fmt options = Returns result) items new /\
    calls' = calls ++ imap (fun k data => (i + Z.of_nat k, total, data)) items
             ++ [(total, total, lit "Complete")].
Proof.
  revert i results calls. induction items as [|data items IH]; intros i results calls.
  - simpl. intros [= <- <-]. exists []. rewrite app_nil_r. split; [done|].
    split; [constructor | reflexivity].
  - cbn [QRCode.generateBatch_loop].
    destruct (QRCode.generate validateRest mergeRest renderMatrix calculateOutputSize
                data fmt options) as [result|message] eqn:Hdata; [|discriminate].
    intros Hloop. apply IH in Hloop as (new & -> & Hall & ->).
    exists (result :: new). split; [by rewrite <- app_assoc|]. split.
    + constructor; [exact Hdata | exact Hall].
    + rewrite <- !app_assoc. f_equal. cbn [imap]. rewrite Z.add_0_r. simpl. f_equal.
      f_equal. apply imap_ext. intros k d _. simpl. f_equal. f_equal. lia.
Qed.

Lemma generateBatch_loop_total (total i : Z) (items : list jsstring) (fmt : Format)
    (options : Options.QRCodeOptions Rest)
    (results : list (QRCode.QRCodeResult Format Rendered Size))
    (calls : list QRCode.ProgressCall) :
  Forall (fun data => exists result, generateItem data fmt options = Returns result) items ->
  exists calls' results',
    QRCode.generateBatch_loop validateRest mergeRest renderMatrix calculateOutputSize
      total i items fmt options results calls = (calls', Returns results').
Proof.
  intros Hall. revert i results calls.
  induction Hall as [|data items [result Hdata] _ IH]; intros i results calls.
  - simpl. eauto.
  - cbn [QRCode.generateBatch_loop]. fold generateItem. rewrite Hdata. apply IH.
Qed.

(** X22: [generateBatch].  When it returns, there is one result per item, in
    the order of the array, each the result of [generate] on that item, and
    the progress callback has been called once per item with
    [(index, total, item)] and a last time with [(total, total,
    "Complete")].  An empty array throws "Data array cannot be empty".  A
    non-empty array whose items all pass [validateInput] is generated
    whenever the renderer returns. *)
Theorem generateBatch_results (dataArray : list jsstring) (fmt : Format)
    (options : Options.QRCodeOptions Rest) :
  (forall calls results,
     runBatch dataArray fmt options = (calls, Returns results) ->
     length results = length dataArray /\
     Forall2 (fun data result => generateItem data fmt options = Returns result)
       dataArray results /\
     calls = progressCalls dataArray) /\
  (dataArray = [] ->
   runBatch dataArray fmt options = ([], Throws "Data array cannot be empty")) /\
  (dataArray <> [] ->
   Forall (fun data =>
     ValidationUtils.valid (ValidationUtils.validateInput validateRest data options)
     = true) dataArray ->
   (forall m o, exists rendered, renderMatrix m fmt o = Returns rendered) ->
   exists results, runBatch dataArray fmt options
                   = (progressCalls dataArray, Returns results)).
Proof.
  assert (Hreturns : forall calls results,
            runBatch dataArray fmt options = (calls, Returns results) ->
            length results = length dataArray /\
            Forall2 (fun data result => generateItem data fmt options = Returns result)
              dataArray results /\
            calls = progressCalls dataArray).
  { intros calls results. subst runBatch. unfold QRCode.generateBatch.
    destruct (negb _); [discriminate|]. intros Hloop.
    apply generateBatch_loop_returns in Hloop as (new & -> & Hall & ->).
    simpl. split; [symmetry; by eapply Forall2_length|]. split; [done|].
    unfold progressCalls. cbv zeta.
    first [ reflexivity
          | f_equal; apply imap_ext; intros k d _; simpl; by rewrite Z.add_0_l ]. }
  split; [exact Hreturns|]. split.
  - intros ->. reflexivity.
  - intros Hne Hvalid Hrender.
    assert (Hbatch : ValidationUtils.valid
                       (ValidationUtils.validateBatchOptions validateRest dataArray options) = true).
    { by apply (validateBatchOptions_spec validateRest dataArray options). }
    assert (Hall : Forall (fun data => exists result,
                             generateItem data fmt options = Returns result) dataArray).
    { eapply Forall_impl; [exact Hvalid|]. intros data Hdata. simpl in Hdata.
      destruct (proj1 (generateMatrix_total validateRest mergeRest data options) Hdata)
        as [g Hg].
      subst generateItem. unfold QRCode.generate. rewrite Hg.
      unfold mbind, outcome_bind.
      destruct (Hrender (matrix g) (QRCode.mergeOptions mergeRest options))
        as [rendered ->].
      eauto. }
    destruct (generateBatch_loop_total (Z.of_nat (length dataArray)) 0 dataArray fmt
                options [] [] Hall) as (calls & results & Hloop).
    assert (Hrun : runBatch dataArray fmt options = (calls, Returns results)).
    { subst runBatch. unfold QRCode.generateBatch. rewrite Hbatch. exact Hloop. }
    destruct (Hreturns calls results Hrun) as (_ & _ & ->).
    exists results. exact Hrun.
Qed.

End BatchGeneration.

(* ================================================================== *)
(** ** Bits, payloads and the finished matrix *)
(* ================================================================== *)

Lemma binary_low_bits (width : nat) (value modulus : Z) :
  0 <= value -> Z.of_nat width <= modulus ->
  Spec.binary width (value mod 2 ^ modulus) = Spec.binary width value.
Proof.
  intros Hv. induction width as [|w IH]; intros Hw; [reflexivity|].
  cbn [Spec.binary]. rewrite IH by lia. f_equal.
  rewrite <- !Z.testbit_spec' by lia.
  by rewrite Z.mod_pow2_bits_low by lia.
Qed.

(** X1: [toBits] writes a number below [2 ^ 31] on [bitCount] bits, most
    significant bit first: the answer has [bitCount] entries, each 0 or 1,
    and reads back as the number modulo [2 ^ bitCount]; so a number that
    fits is read back, and of a larger one the high bits are dropped
    without an error. *)
Theorem toBits_round_trip (num bitCount : Z) :
  0 <= num < 2 ^ 31 -> 0 <= bitCount <= 32 ->
  length (toBits num bitCount) = Z.to_nat bitCount /\
  Forall isBit (toBits num bitCount) /\
  bitsValue (toBits num bitCount) = num mod 2 ^ bitCount /\
  (num < 2 ^ bitCount -> bitsValue (toBits num bitCount) = num).
Proof. exact (toBits_numeral num bitCount). Qed.

Lemma toBits_round_trip_witness : bitsValue (toBits 45 7) = 45.
Proof.
  apply (toBits_round_trip 45 7); [split; [lia | reflexivity] | lia | reflexivity].
Defined.

(** X2: on a string of the 45-character set, [encodeAlphanumeric] writes
    each pair of characters on 11 bits as [45 * first + second] and a last
    single character on 6 bits, with the values 0..44 of the table (digits,
    capital letters, then space and [$ % * + - . / :]); the stream has
    [11 * (length / 2) + 6 * (length mod 2)] bits. *)
Theorem encodeAlphanumeric_packing (data : jsstring) :
  Forall Spec.inAlphanumericSet data ->
  encodeAlphanumeric data = packAlphanumeric data /\
  Z.of_nat (length (encodeAlphanumeric data)) = 11 * (len data / 2) + 6 * (len data mod 2) /\
  Forall (fun c => 0 <= alphanumericValue c < 45) data /\
  encodeAlphanumeric (lit "AC-42")
  = Spec.binary 11 (45 * 10 + 12) ++ Spec.binary 11 (45 * 41 + 4) ++ Spec.binary 6 2.
Proof.
  intros Hset. split; [by apply encodeAlphanumeric_packs|].
  split; [apply encodeAlphanumeric_length|]. split; [|reflexivity].
  eapply Forall_impl; [exact Hset|]. intros c Hc.
  by destruct (indexOf_alphanumericValue c Hc).
Qed.

Lemma encodeAlphanumeric_packing_witness :
  encodeAlphanumeric (lit "HELLO WORLD") = packAlphanumeric (lit "HELLO WORLD").
Proof.
  apply (encodeAlphanumeric_packing (lit "HELLO WORLD")).
  change (lit "HELLO WORLD") with [72; 69; 76; 76; 79; 32; 87; 79; 82; 76; 68].
  repeat (apply Forall_cons_2; [unfold Spec.inAlphanumericSet; in_literal|]).
  apply Forall_nil_2.
Defined.

(** X3: [encodeByte] writes 8 bits per UTF-16 code unit, the low byte of the
    unit: a code unit of 256 or more loses its high byte.  On strings whose
    code units are all below 256 the stream determines the string. *)
Theorem encodeByte_low_bytes (data : jsstring) :
  Forall (fun c => 0 <= c < 65536) data ->
  encodeByte data = concat (map (fun c => Spec.binary 8 (c mod 256)) data) /\
  (Forall latin1 data ->
   forall other, Forall latin1 other -> encodeByte other = encodeByte data ->
                 other = data).
Proof.
  intros Hunits. split.
  - rewrite encodeByte_concat. f_equal. apply map_ext_Forall.
    eapply Forall_impl; [exact Hunits|]. intros c Hc. simpl in Hc.
    change 8 with (Z.of_nat 8) at 1.
    rewrite toBits_binary by (try lia; change (2 ^ 31) with 2147483648; lia).
    change 256 with (2 ^ 8). by rewrite binary_low_bits by (simpl; lia).
  - intros Hdata other Hother Heq. by apply encodeByte_inj.
Qed.

Lemma encodeByte_low_bytes_witness :
  encodeByte [72; 105; 8364]
  = concat (map (fun c => Spec.binary 8 (c mod 256)) [72; 105; 8364]).
Proof.
  apply (encodeByte_low_bytes [72; 105; 8364]).
  repeat (apply Forall_cons_2; [lia|]). apply Forall_nil_2.
Defined.

(** X4: two different payloads of fewer than 256 characters, with code units
    below 256, never get the same bit stream from [encodeData]: the mode
    indicator, the character count and the packed bits tell them apart. *)
Theorem encodeData_determines_payload (a b : jsstring) :
  len a < 256 -> len b < 256 -> Forall latin1 a -> Forall latin1 b ->
  a <> b -> encodeData a <> encodeData b.
Proof. intros Hla Hlb Ha Hb Hne Heq. apply Hne. by apply encodeData_inj. Qed.

Lemma encodeData_determines_payload_witness :
  encodeData (lit "12") <> encodeData (lit "1A").
Proof.
  apply (encodeData_determines_payload (lit "12") (lit "1A"));
    [ reflexivity | reflexivity | | | vm_compute; congruence ].
  - change (lit "12") with [49; 50].
    repeat (apply Forall_cons_2; [unfold latin1; lia|]). apply Forall_nil_2.
  - change (lit "1A") with [49; 65].
    repeat (apply Forall_cons_2; [unfold latin1; lia|]). apply Forall_nil_2.
Defined.

(* ---- forced versions, masks and penalties at concrete inputs ---- *)

Lemma generate_forced_version_witness :
  exists g, generate (lit "1") L (Some 1) None = Returns g /\
    version g = 1 /\ modules g = 17 + 4 * 1 /\ square (17 + 4 * 1) (matrix g).
Proof.
  assert (Hne : lit "1" <> []) by (vm_compute; discriminate).
  apply (proj1 (generate_forced_version (lit "1") L 1 None Hne)). lia.
Defined.

Lemma generate_version_by_length_witness :
  exists g, generate (lit "HELLO WORLD") M None None = Returns g /\
    version g = (len (lit "HELLO WORLD") + charactersPerVersion M - 1)
                / charactersPerVersion M.
Proof.
  assert (Hne : lit "HELLO WORLD" <> []) by (vm_compute; discriminate).
  apply (proj1 (generate_version_by_length (lit "HELLO WORLD") M None Hne)).
  vm_compute. discriminate.
Defined.

Lemma generate_matrix_ignores_level_witness :
  exists g, generate (lit "1") L (Some 1) (Some 0) = Returns g /\
    generate (lit "1") H (Some 1) (Some 0)
    = Returns (mkGenerated (matrix g) (version g) H (maskPattern g) (modules g)).
Proof.
  destruct (generate (lit "1") L (Some 1) (Some 0)) as [g|msg] eqn:Hg.
  - exists g. split; [reflexivity|].
    apply (generate_matrix_ignores_level (lit "1") L H 1 (Some 0) g); [lia | exact Hg].
  - vm_compute in Hg. discriminate.
Defined.

Lemma applyMask_involutive_witness :
  applyMaskToMatrix 21 (applyMaskToMatrix 21 (initializeMatrix 21) 3) 3
  = initializeMatrix 21.
Proof.
  apply (applyMask_involutive 21 (initializeMatrix 21) 3).
  apply initializeMatrix_square. lia.
Defined.

Lemma mask_penalty_ignores_colour_witness :
  calculateMaskPenalty 21 (inverted (initializeMatrix 21))
  = calculateMaskPenalty 21 (initializeMatrix 21).
Proof.
  apply (mask_penalty_ignores_colour 21 (initializeMatrix 21)).
  apply initializeMatrix_square. lia.
Defined.

(* ---- placement and the finished matrix ---- *)

(** X10: the layout of [placeDataModules] on a square matrix of odd side
    [n >= 7].  Every module outside column 6 takes the stream bit of its
    place [cellIndex n x y] in the zigzag (dark for a 1, light for anything
    else and beyond the end of the stream), whatever it held before; the
    places are below [n * (n - 1)], and [cellAt] gives the module of a place
    back.  Column 6 is left as it was.  For [n >= 11] the zigzag starts at
    the bottom right corner, goes left, then up, and the second pair of
    columns starts at the top. *)
Theorem placeDataModules_zigzag (n : Z) (m : QRMatrix) (data : list Z) (x y : Z) :
  Z.odd n = true -> 7 <= n -> square n m -> isInBounds n x y = true ->
  (x <> 6 ->
   mget (placeDataModules n m data) x y = streamBit data (cellIndex n x y) /\
   0 <= cellIndex n x y < n * (n - 1) /\
   cellAt n (cellIndex n x y) = (x, y)) /\
  (x = 6 -> mget (placeDataModules n m data) x y = mget m x y) /\
  (11 <= n -> cellAt n 0 = (n - 1, n - 1) /\ cellAt n 1 = (n - 2, n - 1) /\
             cellAt n 2 = (n - 1, n - 2) /\ cellAt n (2 * n) = (n - 3, 0)).
Proof.
  intros Hodd Hn Hm Hin. split; [|split].
  - intros Hx. split; [by apply placeDataModules_cells|]. by apply cellIndex_cellAt.
  - intros ->. by apply placeDataModules_keeps_column_6.
  - intros H11. destruct (odd_half n Hodd) as [a ->].
    assert (Hpairs : (2 * a + 1 - 7) / 2 = a - 3) by (Z.div_mod_to_equations; lia).
    assert (H0 : 0 / (2 * (2 * a + 1)) = 0 /\ 0 mod (2 * (2 * a + 1)) = 0)
      by (split; [apply Z.div_0_l | apply Z.mod_0_l]; lia).
    assert (H1 : 1 / (2 * (2 * a + 1)) = 0 /\ 1 mod (2 * (2 * a + 1)) = 1)
      by (split; [apply Z.div_small | apply Z.mod_small]; lia).
    assert (H2 : 2 / (2 * (2 * a + 1)) = 0 /\ 2 mod (2 * (2 * a + 1)) = 2)
      by (split; [apply Z.div_small | apply Z.mod_small]; lia).
    assert (H3 : (2 * (2 * a + 1)) / (2 * (2 * a + 1)) = 1
                 /\ (2 * (2 * a + 1)) mod (2 * (2 * a + 1)) = 0)
      by (split; [apply Z.div_same | apply Z.mod_same]; lia).
    unfold cellAt. cbv zeta. rewrite Hpairs.
    destruct H0 as [-> ->], H1 as [-> ->], H2 as [-> ->], H3 as [-> ->].
    replace (0 <? a - 3) with true by lia. replace (1 <? a - 3) with true by lia.
    change (0 / 2) with 0. change (0 mod 2) with 0. change (1 / 2) with 0.
    change (1 mod 2) with 1. change (2 / 2) with 1. change (2 mod 2) with 0.
    change (Z.even 0) with true. change (Z.even 1) with false. cbv iota.
    repeat split; f_equal; lia.
Qed.

Lemma placeDataModules_zigzag_witness :
  mget (placeDataModules 21 (initializeMatrix 21) [1; 0; 1]) 20 19
  = streamBit [1; 0; 1] (cellIndex 21 20 19).
Proof.
  apply (placeDataModules_zigzag 21 (initializeMatrix 21) [1; 0; 1] 20 19);
    [ reflexivity | lia | apply initializeMatrix_square; lia | reflexivity | lia ].
Defined.

(** X11: every module of the matrix that [generate] returns, in closed form:
    outside column 6, the stream bit of the module's place in the zigzag,
    inverted when the module is a data module that the chosen mask selects;
    in column 6, the module of the function patterns. *)
Theorem finished_matrix_cells (data : jsstring) (level : ErrorCorrectionLevel.t)
    (forced maskPattern : option Z) (g : generated) :
  generate data level forced maskPattern = Returns g ->
  forall x y, isInBounds (modules g) x y = true ->
    mget (matrix g) x y
    = if x =? 6 then mget (functionPatterns (version g)) x y
      else xorb (streamBit (encodeData data) (cellIndex (modules g) x y))
             (isDataModule (modules g) x y
              && shouldApplyMask x y (QRGenerator.maskPattern g)).
Proof.
  intros Hg x y Hin.
  destruct (generate_cells data level forced maskPattern g x y Hg Hin) as [Hdata Hsix].
  destruct (x =? 6) eqn:Hx.
  - apply Hsix. lia.
  - apply Hdata. lia.
Qed.

Lemma finished_matrix_cells_witness :
  exists g, generate (lit "1") L None (Some 2) = Returns g /\
    mget (matrix g) 20 20
    = xorb (streamBit (encodeData (lit "1")) (cellIndex (modules g) 20 20))
        (isDataModule (modules g) 20 20
         && shouldApplyMask 20 20 (QRGenerator.maskPattern g)).
Proof.
  destruct (generate (lit "1") L None (Some 2)) as [g|msg] eqn:Hg.
  - exists g. split; [reflexivity|].
    assert (Hin : isInBounds (modules g) 20 20 = true).
    { vm_compute in Hg. injection Hg as <-. reflexivity. }
    exact (finished_matrix_cells (lit "1") L None (Some 2) g Hg 20 20 Hin).
  - vm_compute in Hg. discriminate.
Defined.

(** X12: with no forced version the whole bit stream of [encodeData] is in
    the matrix that [generate] returns: it has at most [n * (n - 1)] bits
    for the side [n], and bit [k] is read back at module [cellAt n k], which
    is in bounds and outside column 6, by undoing the mask on data
    modules. *)
Theorem generate_stream_read_back (data : jsstring) (level : ErrorCorrectionLevel.t)
    (maskPattern : option Z) (g : generated) :
  generate data level None maskPattern = Returns g ->
  len (encodeData data) <= modules g * (modules g - 1) /\
  forall k, 0 <= k < len (encodeData data) ->
    let x := fst (cellAt (modules g) k) in
    let y := snd (cellAt (modules g) k) in
    isInBounds (modules g) x y = true /\ x <> 6 /\
    at_ (encodeData data) k
    = Some (if xorb (mget (matrix g) x y)
                 (isDataModule (modules g) x y
                  && shouldApplyMask x y (QRGenerator.maskPattern g))
            then 1 else 0).
Proof.
  intros Hg. pose proof (generate_fits data level maskPattern g Hg) as Hfits.
  split; [exact Hfits|]. intros k Hk.
  by apply (generate_readable data level None maskPattern g k).
Qed.

Lemma generate_stream_read_back_witness :
  exists g, generate (lit "1") L None None = Returns g /\
    len (encodeData (lit "1")) <= modules g * (modules g - 1).
Proof.
  destruct (generate (lit "1") L None None) as [g|msg] eqn:Hg.
  - exists g. split; [reflexivity|].
    exact (proj1 (generate_stream_read_back (lit "1") L None g Hg)).
  - vm_compute in Hg. discriminate.
Defined.

(* ---- the vertical timing pattern at a concrete input ---- *)
Lemma vertical_timing_pattern_kept_witness :
  exists g, generate (lit "1") L None None = Returns g /\
    mget (matrix g) 6 10 = Z.even 10.
Proof.
  destruct (generate (lit "1") L None None) as [g|msg] eqn:Hg.
  - exists g. split; [reflexivity|].
    apply (vertical_timing_pattern_kept (lit "1") L None None g 10 Hg).
    vm_compute in Hg. injection Hg as <-. simpl. lia.
  - vm_compute in Hg. discriminate.
Defined.

(* ================================================================== *)
(** ** The facade *)
(* ================================================================== *)

(** X14: the capacities that [getCapacityInfo] reports for a version of
    1..40: byte <= alphanumeric <= numeric, all positive; for each mode
    H <= Q <= M <= L; each grows strictly with the version; and [modules]
    is the side [17 + 4 * version] of the generator. *)
Theorem getCapacityInfo_ordered (version : Z) (level : ErrorCorrectionLevel.t) :
  1 <= version <= 40 ->
  let info := ValidationUtils.getCapacityInfo version in
  0 < ValidationUtils.byte (info level) /\
  ValidationUtils.byte (info level) <= ValidationUtils.alphanumeric (info level) /\
  ValidationUtils.alphanumeric (info level) <= ValidationUtils.numeric (info level) /\
  ValidationUtils.modules (info level) = getModuleCount version /\
  (forall field, In field [ValidationUtils.numeric; ValidationUtils.alphanumeric; ValidationUtils.byte] ->
     field (info H) <= field (info Q) /\ field (info Q) <= field (info M)
     /\ field (info M) <= field (info L)) /\
  (version < 40 ->
   forall field, In field [ValidationUtils.numeric; ValidationUtils.alphanumeric; ValidationUtils.byte] ->
     field (info level) < field (ValidationUtils.getCapacityInfo (version + 1) level)).
Proof.
  intros Hv info. subst info. unfold ValidationUtils.getCapacityInfo.
  cbn [ValidationUtils.byte ValidationUtils.alphanumeric ValidationUtils.numeric ValidationUtils.modules].
  destruct (getCapacityForVersion_modes version level Hv) as (Hpos & Hba & Han).
  split; [done|]. split; [done|]. split; [done|]. split; [reflexivity|]. split.
  - intros field [<- | [<- | [<- | []]]]; cbn [ValidationUtils.byte ValidationUtils.alphanumeric ValidationUtils.numeric];
      by apply getCapacityForVersion_levels.
  - intros Hlt field [<- | [<- | [<- | []]]];
      cbn [ValidationUtils.byte ValidationUtils.alphanumeric ValidationUtils.numeric];
      apply getCapacityForVersion_step; lia.
Qed.

Lemma getCapacityInfo_ordered_witness :
  ValidationUtils.byte (ValidationUtils.getCapacityInfo 1 M) <= ValidationUtils.alphanumeric (ValidationUtils.getCapacityInfo 1 M).
Proof.
  exact (proj1 (proj2 (getCapacityInfo_ordered 1 M ltac:(lia)))).
Defined.

Section FacadeTheorems.

Context {Rest RestInternal Format Rendered Size : Type}.
Variable validateRest : Rest -> ValidationUtils.ValidationResult.
Variable mergeRest : Rest -> RestInternal.
Variable renderMatrix :
  QRMatrix -> Format -> Options.QRCodeOptionsInternal RestInternal -> outcome Rendered.
Variable calculateOutputSize :
  Options.QRCodeOptionsInternal RestInternal -> Format -> Z -> Size.

(** X15: [validateInput] accepts a string payload exactly when it is not
    empty, a version in the options is in 1..40, a mask pattern is in 0..7,
    the remaining options are valid, and the payload fits the capacity: of
    the version in the options, or else of some version of 1..40. *)
Theorem validateInput_accepts (payload : jsstring) (options : Options.QRCodeOptions Rest) :
  ValidationUtils.valid (ValidationUtils.validateInput validateRest payload options)
  = true <->
  payload <> [] /\
  (forall v, Options.version options = Some v -> 1 <= v <= 40) /\
  (forall p, Options.maskPattern options = Some p -> 0 <= p <= 7) /\
  ValidationUtils.valid (validateRest (Options.rest options)) = true /\
  accommodates payload options.
Proof. apply validateInput_valid. Qed.

(** X17: the facade's generator step returns a matrix exactly when
    [validateInput] accepts the payload and the options; otherwise it, and
    [QRCode.generate] with it, throws the error of the validation.  When the
    renderer returns, [QRCode.generate] returns its rendering with the
    version and mask of the generator and [modules = 17 + 4 * version]. *)
Theorem facade_returns_iff_valid (payload : jsstring) (fmt : Format)
    (options : Options.QRCodeOptions Rest) :
  let validation := ValidationUtils.validateInput validateRest payload options in
  let message := default EmptyString (ValidationUtils.error validation) in
  ((exists g, QRCode.generateMatrix validateRest mergeRest payload options = Returns g)
   <-> ValidationUtils.valid validation = true) /\
  (ValidationUtils.valid validation = false ->
   QRCode.generateMatrix validateRest mergeRest payload options = Throws message /\
   QRCode.generate validateRest mergeRest renderMatrix calculateOutputSize
     payload fmt options = Throws message) /\
  (forall g rendered,
     QRCode.generateMatrix validateRest mergeRest payload options = Returns g ->
     renderMatrix (matrix g) fmt (QRCode.mergeOptions mergeRest options)
     = Returns rendered ->
     exists result,
       QRCode.generate validateRest mergeRest renderMatrix calculateOutputSize
         payload fmt options = Returns result /\
       QRCode.data result = rendered /\
       QRCode.version result = version g /\
       QRCode.maskPattern result = QRGenerator.maskPattern g /\
       QRCode.modules result = 17 + 4 * version g).
Proof.
  cbv zeta.
  destruct (generateMatrix_total validateRest mergeRest payload options)
    as [Hvalid Hinvalid].
  split; [|split].
  - split; [|exact Hvalid]. intros [g Hg].
    destruct (ValidationUtils.valid
                (ValidationUtils.validateInput validateRest payload options)) eqn:Hv;
      [done|].
    rewrite (Hinvalid eq_refl) in Hg. discriminate.
  - intros Hv. split; [by apply Hinvalid|].
    unfold QRCode.generate. by rewrite (Hinvalid Hv).
  - intros g rendered Hg Hrender. unfold QRCode.generate. rewrite Hg.
    unfold mbind, outcome_bind. rewrite Hrender.
    eexists. split; [reflexivity|]. cbn [QRCode.data QRCode.version QRCode.maskPattern
                                         QRCode.modules].
    split; [reflexivity|]. split; [reflexivity|]. split; [reflexivity|].
    destruct (ValidationUtils.valid
                (ValidationUtils.validateInput validateRest payload options)) eqn:Hv.
    + destruct (generateMatrix_call validateRest mergeRest payload options Hv)
        as (v & _ & _ & _ & Hcall).
      rewrite Hcall in Hg. apply generate_inv in Hg as (_ & _ & ->). reflexivity.
    + rewrite (Hinvalid eq_refl) in Hg. discriminate.
Qed.

(** X18: whenever the facade generates a matrix, its version is in 1..40
    and accommodates the payload by [getCapacityForVersion], at the
    requested level (M by default), also when the version is forced by the
    options (it is then that version). *)
Theorem facade_version_accommodates_payload
    (payload : jsstring) (options : Options.QRCodeOptions Rest) (g : generated) :
  QRCode.generateMatrix validateRest mergeRest payload options = Returns g ->
  let level := default Options.DEFAULT_errorCorrectionLevel
                 (Options.errorCorrectionLevel options) in
  1 <= version g <= 40 /\
  len payload <= ValidationUtils.getCapacityForVersion (version g) level
                   (ValidationUtils.detectDataMode payload) /\
  (forall v0, Options.version options = Some v0 -> version g = v0) /\
  errorCorrectionLevel g = level.
Proof. apply generateMatrix_version. Qed.

(** X20: through the facade, with or without a version in the options, the
    whole bit stream of [encodeData] is in the matrix: bit [k] is read back
    at module [cellAt n k] by undoing the mask on data modules. *)
Theorem facade_stream_read_back
    (payload : jsstring) (options : Options.QRCodeOptions Rest) (g : generated) :
  QRCode.generateMatrix validateRest mergeRest payload options = Returns g ->
  len (encodeData payload) <= modules g * (modules g - 1) /\
  forall k, 0 <= k < len (encodeData payload) ->
    let x := fst (cellAt (modules g) k) in
    let y := snd (cellAt (modules g) k) in
    isInBounds (modules g) x y = true /\ x <> 6 /\
    at_ (encodeData payload) k
    = Some (if xorb (mget (matrix g) x y)
                 (isDataModule (modules g) x y
                  && shouldApplyMask x y (QRGenerator.maskPattern g))
            then 1 else 0).
Proof.
  intros Hg.
  pose proof (generateMatrix_fits validateRest mergeRest payload options g Hg) as Hfits.
  split; [exact Hfits|]. intros k Hk.
  destruct (ValidationUtils.valid
              (ValidationUtils.validateInput validateRest payload options)) eqn:Hv.
  - destruct (generateMatrix_call validateRest mergeRest payload options Hv)
      as (v & _ & _ & _ & Hcall).
    rewrite Hcall in Hg.
    exact (generate_readable payload _ (Some v) _ g k Hg Hfits Hk).
  - destruct (generateMatrix_total validateRest mergeRest payload options) as [_ Hinv].
    rewrite (Hinv Hv) in Hg. discriminate.
Qed.

(** X21: [validateBatchOptions] accepts an array exactly when it is not
    empty and [validateInput] accepts every item; an empty array gives
    "Data array cannot be empty"; otherwise the answer is the error of the
    first item that fails, after "Item <its 1-based index>: ". *)
Theorem validateBatchOptions_first_failure (dataArray : list jsstring)
    (options : Options.QRCodeOptions Rest) :
  let validItem data :=
    ValidationUtils.valid (ValidationUtils.validateInput validateRest data options)
    = true in
  (ValidationUtils.valid (ValidationUtils.validateBatchOptions validateRest dataArray options)
   = true <-> dataArray <> [] /\ Forall validItem dataArray) /\
  (dataArray = [] ->
   ValidationUtils.validateBatchOptions validateRest dataArray options
   = ValidationUtils.invalid "Data array cannot be empty") /\
  (forall accepted data rest,
     dataArray = accepted ++ data :: rest -> Forall validItem accepted ->
     ~ validItem data ->
     ValidationUtils.validateBatchOptions validateRest dataArray options
     = ValidationUtils.invalid
         (ValidationUtils.itemError (Z.of_nat (length accepted))
            (ValidationUtils.error
               (ValidationUtils.validateInput validateRest data options)))).
Proof. exact (validateBatchOptions_spec validateRest dataArray options). Qed.

End FacadeTheorems.

Lemma facade_stream_read_back_witness :
  exists g,
    QRCode.generateMatrix plainValidate plainMerge (lit "HELLO WORLD")
      (plainOptions (Some M) None None) = Returns g /\
    len (encodeData (lit "HELLO WORLD")) <= modules g * (modules g - 1).
Proof.
  destruct (QRCode.generateMatrix plainValidate plainMerge (lit "HELLO WORLD")
              (plainOptions (Some M) None None)) as [g|msg] eqn:Hg.
  - exists g. split; [reflexivity|].
    exact (proj1 (facade_stream_read_back plainValidate plainMerge
                    (lit "HELLO WORLD") (plainOptions (Some M) None None) g Hg)).
  - vm_compute in Hg. discriminate.
Defined.

Lemma facade_version_accommodates_payload_witness :
  exists g,
    QRCode.generateMatrix plainValidate plainMerge (lit "HELLO WORLD")
      (plainOptions (Some M) (Some 3) None) = Returns g /\
    version g = 3.
Proof.
  destruct (QRCode.generateMatrix plainValidate plainMerge (lit "HELLO WORLD")
              (plainOptions (Some M) (Some 3) None)) as [g|msg] eqn:Hg.
  - exists g. split; [reflexivity|].
    exact (proj1 (proj2 (proj2
             (facade_version_accommodates_payload plainValidate plainMerge
                (lit "HELLO WORLD") (plainOptions (Some M) (Some 3) None) g Hg)))
             3 eq_refl).
  - vm_compute in Hg. discriminate.
Defined.

Lemma facade_selects_smallest_version_witness :
  exists g,
    QRCode.generateMatrix plainValidate plainMerge (lit "HELLO WORLD")
      (plainOptions (Some M) None None) = Returns g /\
    1 <= version g <= 40.
Proof.
  destruct (QRCode.generateMatrix plainValidate plainMerge (lit "HELLO WORLD")
              (plainOptions (Some M) None None)) as [g|msg] eqn:Hg.
  - exists g. split; [reflexivity|].
    exact (proj1 (proj2 (proj2
             (facade_selects_smallest_version plainValidate plainMerge
                (lit "HELLO WORLD") (plainOptions (Some M) None None) g
                eq_refl Hg)))).
  - vm_compute in Hg. discriminate.
Defined.

Lemma validateInput_error_order_witness :
  ValidationUtils.validateInput plainValidate (lit "1") (plainOptions None (Some 41) None)
  = ValidationUtils.validateOptions plainValidate (plainOptions None (Some 41) None).
Proof.
  apply (proj1 (proj2 (validateInput_error_order plainValidate (lit "1")
                         (plainOptions None (Some 41) None))));
    [vm_compute; discriminate | reflexivity].
Defined.

Lemma generateBatch_results_witness :
  exists results,
    QRCode.generateBatch plainValidate plainMerge
      (fun m (_ : unit) _ => Returns m) (fun _ _ n => n)
      [lit "1"; lit "A"] tt (plainOptions None None None)
    = (progressCalls [lit "1"; lit "A"], Returns results).
Proof.
  apply (proj2 (proj2 (generateBatch_results plainValidate plainMerge
                         (fun m (_ : unit) _ => Returns m) (fun _ _ n => n)
                         [lit "1"; lit "A"] tt (plainOptions None None None)))).
  - discriminate.
  - repeat (apply Forall_cons_2; [vm_compute; reflexivity|]). apply Forall_nil_2.
  - intros m o. eexists. reflexivity.
Defined.

(** X25: the data modules of [LogoProcessor] are data modules of the
    generator.  For a side [17 + 4 * version] its tests of the dark module
    and of the format areas add nothing to those of the finder areas and
    timing lines, and the version it uses for the version and alignment
    areas is [version + 1]. *)
Theorem logo_data_modules (x y modules : Z) :
  (LogoProcessor.isDataModule x y modules = true ->
   QRGenerator.isDataModule modules x y = true) /\
  (forall version, modules = 17 + 4 * version ->
   LogoProcessor.isDataModule x y modules
   = negb (LogoProcessor.isInFinderPattern x y modules)
     && negb ((x =? 6) || (y =? 6))
     && negb ((version + 1 >=? 7) && LogoProcessor.isVersionInfoArea x y modules)
     && negb ((version + 1 >=? 2) && LogoProcessor.isInAlignmentPattern x y modules)).
Proof.
  split; [apply logo_isDataModule_included|].
  intros version ->. apply logo_isDataModule_checks.
Qed.

(* ================================================================== *)
(** ** ASCII rendering *)
(* ================================================================== *)

Lemma foldl_cells (darkChar lightChar : jsstring) (row : list bool) (result : jsstring) :
  foldl (fun result module => result ++ (if module : bool then darkChar else lightChar))
    result row
  = result ++ concat (map (fun module : bool => if module then darkChar else lightChar) row).
Proof.
  revert result. induction row as [|b row IH]; intros result; simpl.
  - by rewrite app_nil_r.
  - rewrite IH. by rewrite <- app_assoc.
Qed.

Lemma marginLines_returns (lightChar : jsstring) (lineWidth margin : Z)
    (result : jsstring) :
  0 <= lineWidth \/ margin <= 0 ->
  forZ 0 margin (fun i result =>
    result ← result;
    blank ← repeatString lightChar lineWidth;
    Value (result ++ blank ++ [10])) (Value result)
  = Value (result
             ++ concat (map (fun line => line ++ [10])
                  (replicate (Z.to_nat margin)
                     (concat (replicate (Z.to_nat lineWidth) lightChar))))).
Proof.
  intros Hwidth.
  destruct (Z.le_gt_cases margin 0) as [Hle | Hgt].
  { rewrite forZ_empty by lia. replace (Z.to_nat margin) with 0%nat by lia.
    simpl. by rewrite app_nil_r. }
  assert (Hk : exists k : nat, margin = Z.of_nat k) by (exists (Z.to_nat margin); lia).
  destruct Hk as [k ->]. rewrite Nat2Z.id. clear Hgt.
  induction k as [|k IH].
  - rewrite forZ_empty by lia. simpl. by rewrite app_nil_r.
  - replace (Z.of_nat (S k)) with (Z.of_nat k + 1) by lia.
    rewrite forZ_snoc by lia. rewrite IH by (destruct Hwidth; [by left | lia]).
    unfold mbind, completion_bind, repeatString.
    replace (lineWidth <? 0) with false by lia.
    f_equal. rewrite <- app_assoc. f_equal.
    replace (S k) with (k + 1)%nat by lia.
    rewrite replicate_add, map_app, concat_app. simpl. by rewrite app_nil_r.
Qed.

Lemma renderASCII_rows (darkChar lightChar : jsstring) (margin : Z)
    (matrix : QRMatrix) (result : jsstring) :
  0 <= margin ->
  foldl (fun result row =>
      result ← result;
      side ← repeatString lightChar margin;
      let result := result ++ side in
      let result :=
        foldl (fun result module => result ++ (if module : bool then darkChar else lightChar))
          result row in
      side ← repeatString lightChar margin;
      Value (result ++ side ++ [10])) (Value result) matrix
  = Value (result
      ++ concat (map (fun line => line ++ [10])
           (map (fun row =>
              concat (replicate (Z.to_nat margin) lightChar)
              ++ concat (map (fun module : bool => if module then darkChar else lightChar) row)
              ++ concat (replicate (Z.to_nat margin) lightChar)) matrix))).
Proof.
  intros Hmargin. revert result. induction matrix as [|row matrix IH]; intros result.
  - simpl. by rewrite app_nil_r.
  - match goal with |- foldl ?f _ (_ :: _) = _ => set (body := f) in * end.
    cbn [foldl].
    assert (Hrow : body (Value result) row
                = Value ((result
                    ++ concat (replicate (Z.to_nat margin) lightChar)
                    ++ concat (map (fun module : bool =>
                                      if module then darkChar else lightChar) row)
                    ++ concat (replicate (Z.to_nat margin) lightChar)) ++ [10])).
    { unfold body, mbind, completion_bind, repeatString.
      replace (margin <? 0) with false by lia. cbv zeta.
      rewrite foldl_cells. f_equal. by rewrite <- !app_assoc. }
    rewrite Hrow, IH. f_equal. cbn [map concat].
    rewrite <- !app_assoc. reflexivity.
Qed.

Lemma renderASCII_chars (text : option TextOptions.t) :
  QRCode.orString (text ≫= TextOptions.darkChar) [9608; 9608] <> []
  /\ QRCode.orString (text ≫= TextOptions.lightChar) [32; 32] <> [].
Proof.
  split; unfold QRCode.orString.
  - destruct (text ≫= TextOptions.darkChar) as [s|]; [|done].
    case_bool_decide; done.
  - destruct (text ≫= TextOptions.lightChar) as [s|]; [|done].
    case_bool_decide; done.
Qed.

Lemma renderASCII_lines (matrix : QRMatrix) (text : option TextOptions.t) (margin : Z) :
  0 <= margin ->
  QRCode.renderASCII matrix text margin
  = Value (concat (map (fun line => line ++ [10])
      (asciiLines matrix
         (QRCode.orString (text ≫= TextOptions.darkChar) [9608; 9608])
         (QRCode.orString (text ≫= TextOptions.lightChar) [32; 32]) margin))).
Proof.
  intros Hmargin. unfold QRCode.renderASCII, asciiLines. cbv zeta.
  rewrite marginLines_returns by lia.
  rewrite renderASCII_rows by lia.
  rewrite marginLines_returns by lia.
  f_equal. rewrite !map_app, !concat_app. cbn [app]. by rewrite <- app_assoc.
Qed.

Lemma concat_inj_width {A : Type} (w : nat) (a b : list (list A)) :
  Forall (fun l => length l = w) a -> Forall (fun l => length l = w) b -> (0 < w)%nat ->
  concat a = concat b -> a = b.
Proof.
  intros Ha Hb Hpos. revert b Hb.
  induction Ha as [|x a Hx Ha IH]; intros b Hb Heq; destruct Hb as [|y b Hy Hb]; simpl in *.
  - reflexivity.
  - apply (f_equal length) in Heq. rewrite length_app in Heq. simpl in Heq. lia.
  - apply (f_equal length) in Heq. rewrite length_app in Heq. simpl in Heq. lia.
  - apply app_inj_1 in Heq as [-> Hrest]; [|lia]. f_equal. by apply IH.
Qed.

Lemma length_concat_replicate {A : Type} (k : nat) (s : list A) :
  length (concat (replicate k s)) = (k * length s)%nat.
Proof.
  induction k as [|k IH]; simpl; [done|]. rewrite length_app, IH. lia.
Qed.

Lemma length_concat_cells (darkChar lightChar : jsstring) (row : list bool) :
  length darkChar = length lightChar ->
  length (concat (map (fun module : bool => if module then darkChar else lightChar) row))
  = (length row * length lightChar)%nat.
Proof.
  intros Hlen. induction row as [|b row IH]; simpl; [done|].
  rewrite length_app, IH. destruct b; lia.
Qed.

Lemma asciiLines_width (n : Z) (matrix : QRMatrix) (darkChar lightChar : jsstring)
    (margin : Z) :
  square n matrix -> 0 <= margin -> length darkChar = length lightChar ->
  Forall (fun line =>
            length line = (Z.to_nat (n + margin * 2) * length lightChar)%nat)
    (asciiLines matrix darkChar lightChar margin).
Proof.
  intros [Hn Hrows] Hmargin Hlen. unfold asciiLines. cbv zeta.
  rewrite Hn.
  assert (Hblank : Forall (fun line =>
            length line = (Z.to_nat (n + margin * 2) * length lightChar)%nat)
            (replicate (Z.to_nat margin)
               (concat (replicate (Z.to_nat (n + margin * 2)) lightChar)))).
  { apply Forall_replicate. apply length_concat_replicate. }
  apply Forall_app; split; [exact Hblank|].
  apply Forall_app; split; [|exact Hblank].
  apply Forall_map. eapply Forall_impl; [exact Hrows|].
  intros row Hrow. simpl.
  rewrite !length_app, !length_concat_replicate, (length_concat_cells _ _ _ Hlen).
  simpl in Hrow.
  replace (Z.to_nat (n + margin * 2))
    with (length row + Z.to_nat margin + Z.to_nat margin)%nat by lia.
  rewrite !Nat.mul_add_distr_r. lia.
Qed.

Lemma asciiLines_rows_inj (n : Z) (m1 m2 : QRMatrix) (darkChar lightChar side : jsstring) :
  square n m1 -> square n m2 ->
  length darkChar = length lightChar -> darkChar <> lightChar ->
  map (fun row =>
         side
         ++ concat (map (fun module : bool => if module then darkChar else lightChar) row)
         ++ side) m1
  = map (fun row =>
         side
         ++ concat (map (fun module : bool => if module then darkChar else lightChar) row)
         ++ side) m2 ->
  m1 = m2.
Proof.
  intros [Hn1 _] [Hn2 _] Hlen Hne.
  assert (Hpos : (0 < length lightChar)%nat).
  { destruct darkChar, lightChar; simpl in *; try lia. done. }
  clear Hn1 Hn2. revert m2.
  induction m1 as [|r1 m1 IH]; intros [|r2 m2] Heq; simpl in Heq; try done.
  injection Heq as Hrow Hrest.
  apply app_inv_head, app_inv_tail in Hrow.
  apply (concat_map_inj _ (length lightChar)) in Hrow;
    [|intros []; done | exact Hpos].
  f_equal; [|by apply IH].
  clear -Hrow Hne. revert r2 Hrow.
  induction r1 as [|b1 r1 IH]; intros [|b2 r2] Hrow; simpl in Hrow; try done.
  injection Hrow as Hcell Hrest.
  f_equal; [|by apply IH].
  destruct b1, b2; congruence.
Qed.

(** X27: the ASCII rendering determines the matrix: two square matrices of
    one size that render to the same string, with the same non-negative
    margin and with dark and light strings that differ and have one length
    (as the default ones do), are equal. *)
Theorem renderASCII_injective (n : Z) (m1 m2 : QRMatrix)
    (text : option TextOptions.t) (margin : Z) :
  let darkChar := QRCode.orString (text ≫= TextOptions.darkChar) [9608; 9608] in
  let lightChar := QRCode.orString (text ≫= TextOptions.lightChar) [32; 32] in
  square n m1 -> square n m2 -> 0 <= margin ->
  length darkChar = length lightChar -> darkChar <> lightChar ->
  QRCode.renderASCII m1 text margin = QRCode.renderASCII m2 text margin ->
  m1 = m2.
Proof.
  intros darkChar lightChar H1 H2 Hmargin Hlen Hne Heq.
  rewrite !renderASCII_lines in Heq by done.
  fold darkChar lightChar in Heq. injection Heq as Heq.
  pose proof (asciiLines_width n m1 darkChar lightChar margin H1 Hmargin Hlen) as Hw1.
  pose proof (asciiLines_width n m2 darkChar lightChar margin H2 Hmargin Hlen) as Hw2.
  apply (concat_inj_width (S (Z.to_nat (n + margin * 2) * length lightChar))) in Heq;
    [ | apply Forall_map; eapply Forall_impl; [exact Hw1|];
        intros line Hline; cbv beta in Hline |- *;
        rewrite length_app, Hline; cbn [length]; lia
      | apply Forall_map; eapply Forall_impl; [exact Hw2|];
        intros line Hline; cbv beta in Hline |- *;
        rewrite length_app, Hline; cbn [length]; lia
      | apply Nat.lt_0_succ ].
  assert (Hlines : asciiLines m1 darkChar lightChar margin
                   = asciiLines m2 darkChar lightChar margin).
  { revert Heq. generalize (asciiLines m1 darkChar lightChar margin).
    generalize (asciiLines m2 darkChar lightChar margin).
    intros l2 l1. revert l2. induction l1 as [|a l1 IH]; intros [|b l2] Heq;
      simpl in Heq; try done.
    injection Heq as Ha Hrest. apply app_inv_tail in Ha. subst. f_equal. by apply IH. }
  unfold asciiLines in Hlines. cbv zeta in Hlines.
  destruct H1 as [Hn1 Hr1], H2 as [Hn2 Hr2].
  rewrite Hn1, Hn2 in Hlines.
  apply app_inv_head in Hlines.
  apply app_inv_tail in Hlines.
  exact (asciiLines_rows_inj n m1 m2 darkChar lightChar _
           (conj Hn1 Hr1) (conj Hn2 Hr2) Hlen Hne Hlines).
Qed.

Lemma foldl_thrown {A B : Type} (body : completion A -> B -> completion A)
    (class : ErrorClass.t) (message : string) (l : list B) :
  (forall b, body (Thrown class message) b = Thrown class message) ->
  foldl body (Thrown class message) l = Thrown class message.
Proof.
  intros Hbody. induction l as [|b l IH]; simpl; [done|]. by rewrite Hbody.
Qed.

(** X28: with a negative margin size [renderASCII] draws no margin line and
    throws the [RangeError] of [String.prototype.repeat] at the first row,
    with the message "Invalid count value: " and the margin size; only an
    empty matrix is rendered, to the empty string. *)
Theorem renderASCII_negative_margin (matrix : QRMatrix)
    (text : option TextOptions.t) (margin : Z) :
  margin < 0 ->
  QRCode.renderASCII matrix text margin
  = if bool_decide (matrix = []) then Value []
    else Thrown ErrorClass.RangeError ("Invalid count value: " ++ decimal margin).
Proof.
  intros Hmargin. unfold QRCode.renderASCII. cbv zeta.
  rewrite !forZ_empty by lia.
  destruct matrix as [|row matrix]; [done|].
  rewrite bool_decide_eq_false_2 by done.
  match goal with |- foldl ?f _ (_ :: _) = _ => set (body := f) end.
  cbn [foldl].
  assert (Hrow : body (Value []) row
                 = Thrown ErrorClass.RangeError
                     ("Invalid count value: " ++ decimal margin)).
  { unfold body, mbind, completion_bind, repeatString.
    by replace (margin <? 0) with true by lia. }
  rewrite Hrow. by apply foldl_thrown.
Qed.

Lemma renderASCII_injective_witness :
  [[true; false]; [false; true]] = [[true; false]; [false; true]].
Proof.
  apply (renderASCII_injective 2 [[true; false]; [false; true]]
           [[true; false]; [false; true]] None 1).
  - split; [reflexivity | repeat constructor].
  - split; [reflexivity | repeat constructor].
  - lia.
  - reflexivity.
  - simpl. discriminate.
  - reflexivity.
Defined.

Lemma renderASCII_negative_margin_witness :
  QRCode.renderASCII [[true]] None (-1)
  = Thrown ErrorClass.RangeError "Invalid count value: -1".
Proof.
  apply (renderASCII_negative_margin [[true]] None (-1)). lia.
Defined.
